(** * Proxy-Tools: the proxy checker and the scraper's endpoint validation

    A shallow embedding of [proxy_checker.py] (class [ProxyChecker]) and of
    the validation path of [proxy_scraper.py] (class [ProxyScraper]),
    together with the properties of the design document that concern them.

    Conventions.
    - A Python [str] is a [string]; a character is read as the code point
      of the same number (U+0000 to U+00FF).
    - A Python [int] is a [Z].
    - A Python [set] of strings is a [gset string]; [list(set(...))] is
      [elements], one duplicate-free enumeration among the possible ones.
    - Methods that touch the object, the disk or the console are written in
      a state-and-exception monad over [World].
    - The probes only read the network, and the rest of [check_proxy] runs
      under [self.lock]; a run of the thread pool is therefore one call of
      [check_proxy] after the other, in the order in which the candidates
      reach the lock, an order that [run_check] takes as a parameter. *)

From Stdlib Require Import Ascii String ZArith QArith Lia.
From stdpp Require Import base list strings gmap sets.

#[local] Open Scope Z_scope.

(** ** Python string primitives *)

Module Py.

(** [str.isspace] on one character; also the set that [str.strip()]
    removes and that the pattern [\s] matches. *)
Definition isspace (c : ascii) : bool :=
  let n := nat_of_ascii c in
  ((9 <=? n)%nat && (n <=? 13)%nat) || ((28 <=? n)%nat && (n <=? 32)%nat)
  || (n =? 133)%nat || (n =? 160)%nat.

(** The blanks that [int(...)] skips around a numeral: the C-locale ones,
    and the two non-ASCII blanks that it rewrites to a space. *)
Definition int_blank (c : ascii) : bool :=
  let n := nat_of_ascii c in
  ((9 <=? n)%nat && (n <=? 13)%nat) || (n =? 32)%nat
  || (n =? 133)%nat || (n =? 160)%nat.

Fixpoint drop_while (f : ascii -> bool) (s : string) : string :=
  match s with
  | String c s' => if f c then drop_while f s' else s
  | EmptyString => EmptyString
  end.

Fixpoint rev_onto (s acc : string) : string :=
  match s with
  | String c s' => rev_onto s' (String c acc)
  | EmptyString => acc
  end.

Definition rev (s : string) : string := rev_onto s EmptyString.

Definition strip_with (f : ascii -> bool) (s : string) : string :=
  rev (drop_while f (rev (drop_while f s))).

(** [s.strip()] *)
Definition strip (s : string) : string := strip_with isspace s.

(** [bool(s)] for a string: non-empty. *)
Definition truthy (s : string) : bool :=
  match s with EmptyString => false | _ => true end.

(** [s.split(sep)] for a one-character separator: never an empty list. *)
Fixpoint split (sep : ascii) (s : string) : list string :=
  match s with
  | EmptyString => [EmptyString]
  | String c s' =>
      if Ascii.eqb c sep then EmptyString :: split sep s'
      else match split sep s' with
           | w :: ws => String c w :: ws
           | [] => [String c EmptyString]
           end
  end.

(** [re.sub(r'\s+', '', s)] *)
Fixpoint remove_spaces (s : string) : string :=
  match s with
  | EmptyString => EmptyString
  | String c s' =>
      if isspace c then remove_spaces s' else String c (remove_spaces s')
  end.

Definition digit_value (c : ascii) : option Z :=
  let n := nat_of_ascii c in
  if ((48 <=? n)%nat && (n <=? 57)%nat)%bool then Some (Z.of_nat n - 48)
  else None.

Definition underscore : ascii := "_"%char.

(** The digits of a numeral, most significant first; a single underscore
    may separate two digits. [after_digit] tells whether the previous
    character was a digit. The result carries the value and the number of
    digits read. *)
Fixpoint digits (s : string) (after_digit : bool) (acc : Z) (count : Z)
  : option (Z * Z) :=
  match s with
  | EmptyString => if after_digit then Some (acc, count) else None
  | String c s' =>
      match digit_value c with
      | Some d => digits s' true (10 * acc + d) (count + 1)
      | None =>
          if (Ascii.eqb c underscore && after_digit)%bool
          then digits s' false acc count
          else None
      end
  end.

(** [sys.get_int_max_str_digits()] *)
Definition int_max_str_digits : Z := 4300.

(** [int(s)] in base ten; [None] stands for [ValueError]. *)
Definition int (s : string) : option Z :=
  let body := strip_with int_blank s in
  let '(sign, num) :=
    match body with
    | String "+" r => (1, r)
    | String "-" r => (-1, r)
    | _ => (1, body)
    end in
  match digits num false 0 0 with
  | Some (v, n) => if (n <=? int_max_str_digits)%Z then Some (sign * v) else None
  | None => None
  end.

End Py.

(** ** Exceptions, the world and the monad *)

Inductive exception :=
  | FileNotFoundError
  | OSError
  | ValueError
  | ZeroDivisionError
  | OverflowError
  | RequestException
  | ProxyError
  | SocketTimeout
  | KeyboardInterrupt.

#[global] Instance exception_eq_dec : EqDecision exception.
Proof. solve_decision. Defined.

(** [isinstance(e, Exception)]: what [except Exception] catches. *)
Definition is_Exception (e : exception) : bool :=
  match e with KeyboardInterrupt => false | _ => true end.

Inductive outcome (A : Type) :=
  | Returns (a : A)
  | Raises (e : exception).
Arguments Returns {A} a.
Arguments Raises {A} e.

(** The five buckets; the first four are the working ones. *)
Inductive category := Http | Https | Socks4 | Socks5 | Failed.

#[global] Instance category_eq_dec : EqDecision category.
Proof. solve_decision. Defined.

Inductive socks_type := SOCKS4 | SOCKS5.

(** The network as the probes see it: what [requests.get] answers for a
    target URL and a proxy dictionary (the status code, or the exception it
    raises), and how a SOCKS session to the fixed target ends
    ([socksocket()], [set_proxy], [settimeout], [connect], [close]). *)
Record Network := mkNetwork {
  requests_get : string -> string -> string -> Z -> outcome Z;
  socks_session : socks_type -> string -> Z -> Z -> outcome unit
}.

(** What is printed: one constructor per [print] that reports a value. *)
Inductive message :=
  | MsgLoaded (original_count : Z) (file_path : string)
  | MsgRemoved (duplicates_removed unique_count : Z)
  | MsgNoDuplicates (unique_count : Z)
  | MsgFileNotFound (file_path : string)
  | MsgErrorLoading (e : exception)
  | MsgSaved (checked : Z)
  | MsgProgress (checked total : Z) (percent : Q) (n_http n_https n_socks4 n_socks5 : Z)
  | MsgStarting (workers : Z)
  | MsgErrorChecking (proxy : string) (e : exception)
  | MsgTested (total : Z)
  | MsgTimeTaken (duration : Q)
  | MsgAverage (average : Q)
  | MsgTotals (n_http n_https n_socks4 n_socks5 n_failed : Z)
  | MsgSuccessRate (rate : Q)
  | MsgFinalAppended (c : category) (file_name : string)
  | MsgAllSaved (timestamp : string).

(** The attributes of a [ProxyChecker] object, in the order of [__init__]. *)
Record ProxyChecker := mkChecker {
  timeout : Z;
  max_workers : Z;
  working_http : list string;
  working_https : list string;
  working_socks4 : list string;
  working_socks5 : list string;
  failed_proxies : list string;
  total_proxies : Z;
  checked_proxies : Z;
  last_save_count : Z;
  save_interval : Z;
  total_working_http : Z;
  total_working_https : Z;
  total_working_socks4 : Z;
  total_working_socks5 : Z;
  total_failed_proxies : Z;
  timestamp : string
}.

Definition test_url : string := "http://httpbin.org/ip".
Definition test_url_https : string := "https://httpbin.org/ip".

(** [ProxyChecker.__init__]; the time stamp is read from the clock. *)
Definition init (timeout max_workers : Z) (timestamp : string) : ProxyChecker :=
  mkChecker timeout max_workers [] [] [] [] [] 0 0 0 500 0 0 0 0 0 timestamp.

(** [self.file_names[c]] *)
Definition file_names (s : ProxyChecker) (c : category) : string :=
  match c with
  | Http => "working_http_proxies_" +:+ timestamp s +:+ ".txt"
  | Https => "working_https_proxies_" +:+ timestamp s +:+ ".txt"
  | Socks4 => "working_socks4_proxies_" +:+ timestamp s +:+ ".txt"
  | Socks5 => "working_socks5_proxies_" +:+ timestamp s +:+ ".txt"
  | Failed => "failed_proxies_" +:+ timestamp s +:+ ".txt"
  end.

(** The list and the counter that belong to a category. *)
Definition bucket (c : category) (s : ProxyChecker) : list string :=
  match c with
  | Http => working_http s
  | Https => working_https s
  | Socks4 => working_socks4 s
  | Socks5 => working_socks5 s
  | Failed => failed_proxies s
  end.

Definition total (c : category) (s : ProxyChecker) : Z :=
  match c with
  | Http => total_working_http s
  | Https => total_working_https s
  | Socks4 => total_working_socks4 s
  | Socks5 => total_working_socks5 s
  | Failed => total_failed_proxies s
  end.

(** Assignment to one attribute. *)
Definition set_bucket (c : category) (v : list string) (s : ProxyChecker) : ProxyChecker :=
  let pick c' := if decide (c = c') then v else bucket c' s in
  mkChecker (timeout s) (max_workers s)
    (pick Http) (pick Https) (pick Socks4) (pick Socks5) (pick Failed)
    (total_proxies s) (checked_proxies s) (last_save_count s) (save_interval s)
    (total_working_http s) (total_working_https s) (total_working_socks4 s)
    (total_working_socks5 s) (total_failed_proxies s) (timestamp s).

Definition set_total (c : category) (v : Z) (s : ProxyChecker) : ProxyChecker :=
  let pick c' := if decide (c = c') then v else total c' s in
  mkChecker (timeout s) (max_workers s)
    (working_http s) (working_https s) (working_socks4 s) (working_socks5 s)
    (failed_proxies s)
    (total_proxies s) (checked_proxies s) (last_save_count s) (save_interval s)
    (pick Http) (pick Https) (pick Socks4) (pick Socks5) (pick Failed) (timestamp s).

Definition set_total_proxies (v : Z) (s : ProxyChecker) : ProxyChecker :=
  mkChecker (timeout s) (max_workers s)
    (working_http s) (working_https s) (working_socks4 s) (working_socks5 s)
    (failed_proxies s)
    v (checked_proxies s) (last_save_count s) (save_interval s)
    (total_working_http s) (total_working_https s) (total_working_socks4 s)
    (total_working_socks5 s) (total_failed_proxies s) (timestamp s).

Definition set_checked_proxies (v : Z) (s : ProxyChecker) : ProxyChecker :=
  mkChecker (timeout s) (max_workers s)
    (working_http s) (working_https s) (working_socks4 s) (working_socks5 s)
    (failed_proxies s)
    (total_proxies s) v (last_save_count s) (save_interval s)
    (total_working_http s) (total_working_https s) (total_working_socks4 s)
    (total_working_socks5 s) (total_failed_proxies s) (timestamp s).

Definition set_last_save_count (v : Z) (s : ProxyChecker) : ProxyChecker :=
  mkChecker (timeout s) (max_workers s)
    (working_http s) (working_https s) (working_socks4 s) (working_socks5 s)
    (failed_proxies s)
    (total_proxies s) (checked_proxies s) v (save_interval s)
    (total_working_http s) (total_working_https s) (total_working_socks4 s)
    (total_working_socks5 s) (total_failed_proxies s) (timestamp s).

Definition set_save_interval (v : Z) (s : ProxyChecker) : ProxyChecker :=
  mkChecker (timeout s) (max_workers s)
    (working_http s) (working_https s) (working_socks4 s) (working_socks5 s)
    (failed_proxies s)
    (total_proxies s) (checked_proxies s) (last_save_count s) v
    (total_working_http s) (total_working_https s) (total_working_socks4 s)
    (total_working_socks5 s) (total_failed_proxies s) (timestamp s).

(** Everything a method can read or change: the object, the disk (a text
    file is the list of its lines), the paths whose [open] fails, the
    network, the console, and the probe calls made so far. *)
Record World := mkWorld {
  self : ProxyChecker;
  disk : gmap string (list string);
  denied : gset string;
  net : Network;
  console : list message;
  calls : list (category * string)
}.

Definition with_self (s : ProxyChecker) (w : World) : World :=
  mkWorld s (disk w) (denied w) (net w) (console w) (calls w).
Definition with_disk (d : gmap string (list string)) (w : World) : World :=
  mkWorld (self w) d (denied w) (net w) (console w) (calls w).
Definition with_console (c : list message) (w : World) : World :=
  mkWorld (self w) (disk w) (denied w) (net w) c (calls w).
Definition with_calls (c : list (category * string)) (w : World) : World :=
  mkWorld (self w) (disk w) (denied w) (net w) (console w) c.

(** A computation returns or raises, and leaves a world behind. *)
Definition M (A : Type) : Type := World -> outcome A * World.

#[global] Instance M_ret : MRet M := fun A a w => (Returns a, w).
#[global] Instance M_bind : MBind M := fun A B f m w =>
  match m w with
  | (Returns a, w') => f a w'
  | (Raises e, w') => (Raises e, w')
  end.

Definition raise {A} (e : exception) : M A := fun w => (Raises e, w).

(** [try: body except ...: ...]: the first clause that matches the
    exception handles it; with no match the exception goes on. A bare
    [except:] is the clause that matches everything. *)
Fixpoint handle {A} (clauses : list ((exception -> bool) * (exception -> M A)))
    (e : exception) : M A :=
  match clauses with
  | [] => raise e
  | (catches, handler) :: rest => if catches e then handler e else handle rest e
  end.

Definition try_except {A} (body : M A)
    (clauses : list ((exception -> bool) * (exception -> M A))) : M A := fun w =>
  match body w with
  | (Raises e, w') => handle clauses e w'
  | r => r
  end.

Definition anything (e : exception) : bool := true.

Definition get_self : M ProxyChecker := fun w => (Returns (self w), w).
Definition modify_self (f : ProxyChecker -> ProxyChecker) : M unit :=
  fun w => (Returns tt, with_self (f (self w)) w).
Definition print (m : message) : M unit :=
  fun w => (Returns tt, with_console (console w ++ [m]) w).
Definition called (c : category) (proxy : string) : M unit :=
  fun w => (Returns tt, with_calls (calls w ++ [(c, proxy)]) w).
Definition when (b : bool) (m : M unit) : M unit := if b then m else mret tt.

Fixpoint for_each {A} (l : list A) (body : A -> M unit) : M unit :=
  match l with
  | [] => mret tt
  | x :: l' => body x;; for_each l' body
  end.

(** [with open(path, 'r') as f: ... for line in f] *)
Definition read_lines (path : string) : M (list string) := fun w =>
  if decide (path ∈ denied w) then (Raises OSError, w)
  else match disk w !! path with
       | Some lines => (Returns lines, w)
       | None => (Raises FileNotFoundError, w)
       end.

(** [with open(path, 'a') as f: f.write('\n'.join(lines) + '\n')] *)
Definition append_lines (path : string) (lines : list string) : M unit := fun w =>
  if decide (path ∈ denied w) then (Raises OSError, w)
  else (Returns tt, with_disk (<[path := default [] (disk w !! path) ++ lines]> (disk w)) w).

(** [bool(l)] for a list: non-empty. *)
Definition nonempty {A} (l : list A) : bool :=
  match l with [] => false | _ => true end.

Definition len {A} (l : list A) : Z := Z.of_nat (length l).

Definition fetch (url proxy_http proxy_https : string) (t : Z) : M Z := fun w =>
  (requests_get (net w) url proxy_http proxy_https t, w).
Definition socks_through (v : socks_type) (ip : string) (port t : Z) : M unit := fun w =>
  (socks_session (net w) v ip port t, w).

(** ** [ProxyChecker] *)

(** [all_lines = [line.strip() for line in f if line.strip()]] *)
Definition all_lines_of (f : list string) : list string :=
  Py.strip <$> filter (fun line => Py.truthy (Py.strip line)) f.

(** [load_proxies] *)
Definition load_proxies (file_path : string) : M (list string) :=
  try_except
    (f ← read_lines file_path;
     let all_lines := all_lines_of f in
     let proxies := elements (list_to_set all_lines : gset string) in
     let original_count := len all_lines in
     let unique_count := len proxies in
     let duplicates_removed := original_count - unique_count in
     modify_self (set_total_proxies unique_count);;
     print (MsgLoaded original_count file_path);;
     (if 0 <? duplicates_removed
      then print (MsgRemoved duplicates_removed unique_count)
      else print (MsgNoDuplicates unique_count));;
     mret proxies)
    [ (fun e => bool_decide (e = FileNotFoundError),
       fun _ => print (MsgFileNotFound file_path);; mret []);
      (is_Exception,
       fun e => print (MsgErrorLoading e);; mret []) ].

(** The value a function gives back when its [try] block either executed
    a [return] ([Some]) or was left, normally or through [except: pass]
    ([None]), before the final [return False]. *)
Definition or_false (r : option bool) : M bool :=
  match r with Some b => mret b | None => mret false end.

(** [test_http_proxy] *)
Definition test_http_proxy (proxy : string) : M bool :=
  called Http proxy;;
  r ← try_except
        (s ← get_self;
         status_code ← fetch test_url ("http://" +:+ proxy) ("http://" +:+ proxy) (timeout s);
         if status_code =? 200 then mret (Some true) else mret None)
        [ (anything, fun _ => mret None) ];
  or_false r.

(** [test_https_proxy] *)
Definition test_https_proxy (proxy : string) : M bool :=
  called Https proxy;;
  r ← try_except
        (s ← get_self;
         status_code ← fetch test_url_https ("https://" +:+ proxy) ("https://" +:+ proxy) (timeout s);
         if status_code =? 200 then mret (Some true) else mret None)
        [ (anything, fun _ => mret None) ];
  or_false r.

(** The common body of the two SOCKS probes. *)
Definition socks_attempt (v : socks_type) (proxy : string) : M (option bool) :=
  match Py.split ":" proxy with
  | [ip; port] =>
      match Py.int port with
      | Some port =>
          s ← get_self;
          socks_through v ip port (timeout s);;
          mret (Some true)
      | None => raise ValueError
      end
  | _ => raise ValueError
  end.

(** [test_socks4_proxy] *)
Definition test_socks4_proxy (proxy : string) : M bool :=
  called Socks4 proxy;;
  r ← try_except (socks_attempt SOCKS4 proxy) [ (anything, fun _ => mret None) ];
  or_false r.

(** [test_socks5_proxy] *)
Definition test_socks5_proxy (proxy : string) : M bool :=
  called Socks5 proxy;;
  r ← try_except (socks_attempt SOCKS5 proxy) [ (anything, fun _ => mret None) ];
  or_false r.

(** One block of [save_intermediate_results]: write, count, clear. *)
Definition drain_bucket (c : category) : M unit :=
  s ← get_self;
  when (nonempty (bucket c s))
    (append_lines (file_names s c) (bucket c s);;
     modify_self (fun s => set_total c (total c s + len (bucket c s)) s);;
     modify_self (set_bucket c [])).

(** [save_intermediate_results] *)
Definition save_intermediate_results : M unit :=
  drain_bucket Http;;
  drain_bucket Https;;
  drain_bucket Socks4;;
  drain_bucket Socks5;;
  drain_bucket Failed;;
  s ← get_self;
  print (MsgSaved (checked_proxies s));;
  modify_self (fun s => set_last_save_count (checked_proxies s) s).

(** The dictionary [results] of [check_proxy]. *)
Record results := mkResults {
  proxy : string;
  http : bool;
  https : bool;
  socks4 : bool;
  socks5 : bool
}.

Definition flag (c : category) (r : results) : bool :=
  match c with
  | Http => http r
  | Https => https r
  | Socks4 => socks4 r
  | Socks5 => socks5 r
  | Failed => negb (http r || https r || socks4 r || socks5 r)
  end.

Definition append (c : category) (x : string) : M unit :=
  modify_self (fun s => set_bucket c (bucket c s ++ [x]) s).

(** The first part of the block under [self.lock]: count the candidate and
    file it. *)
Definition record_outcome (r : results) : M unit :=
  modify_self (fun s => set_checked_proxies (checked_proxies s + 1) s);;
  when (http r) (append Http (proxy r));;
  when (https r) (append Https (proxy r));;
  when (socks4 r) (append Socks4 (proxy r));;
  when (socks5 r) (append Socks5 (proxy r));;
  when (negb (http r || https r || socks4 r || socks5 r)) (append Failed (proxy r)).

(** The second part: the checkpoint. *)
Definition checkpoint : M unit :=
  s ← get_self;
  when (save_interval s <=? checked_proxies s - last_save_count s)
    save_intermediate_results.

(** The third part: the progress line. *)
Definition progress_update : M unit :=
  s ← get_self;
  if total_proxies s =? 0 then raise ZeroDivisionError
  else
    let progress :=
      (inject_Z (checked_proxies s) / inject_Z (total_proxies s) * 100)%Q in
    print (MsgProgress (checked_proxies s) (total_proxies s) progress
             (len (working_http s)) (len (working_https s))
             (len (working_socks4 s)) (len (working_socks5 s))).

(** [check_proxy] *)
Definition check_proxy (proxy : string) : M results :=
  r_http ← test_http_proxy proxy;
  r_https ← test_https_proxy proxy;
  r_socks4 ← test_socks4_proxy proxy;
  r_socks5 ← test_socks5_proxy proxy;
  let results := mkResults proxy r_http r_https r_socks4 r_socks5 in
  record_outcome results;;
  checkpoint;;
  progress_update;;
  mret results.

(** One block of [save_results]: write, count, report; the list stays. *)
Definition flush_bucket (c : category) : M unit :=
  s ← get_self;
  when (nonempty (bucket c s))
    (append_lines (file_names s c) (bucket c s);;
     modify_self (fun s => set_total c (total c s + len (bucket c s)) s);;
     print (MsgFinalAppended c (file_names s c))).

(** [save_results] *)
Definition save_results : M unit :=
  s ← get_self;
  when (nonempty (working_http s) || nonempty (working_https s)
        || nonempty (working_socks4 s) || nonempty (working_socks5 s)
        || nonempty (failed_proxies s))
    (flush_bucket Http;;
     flush_bucket Https;;
     flush_bucket Socks4;;
     flush_bucket Socks5;;
     flush_bucket Failed);;
  print (MsgAllSaved (timestamp s)).

(** The rate that [display_results] prints. *)
Definition success_rate (s : ProxyChecker) : Q :=
  let total_working :=
    total_working_http s + total_working_https s
    + total_working_socks4 s + total_working_socks5 s in
  if total_working <=? total_proxies s
  then (inject_Z total_working / inject_Z (total_proxies s) * 100)%Q
  else (inject_Z (total_proxies s - total_failed_proxies s)
        / inject_Z (total_proxies s) * 100)%Q.

(** [display_results] *)
Definition display_results (duration : Q) : M unit :=
  s ← get_self;
  print (MsgTested (total_proxies s));;
  print (MsgTimeTaken duration);;
  (if total_proxies s =? 0 then raise ZeroDivisionError
   else print (MsgAverage (duration / inject_Z (total_proxies s))%Q));;
  print (MsgTotals (total_working_http s) (total_working_https s)
           (total_working_socks4 s) (total_working_socks5 s)
           (total_failed_proxies s));;
  print (MsgSuccessRate (success_rate s));;
  save_results.

(** The body of the [as_completed] loop for one future. *)
Definition await (proxy : string) : M unit :=
  try_except (check_proxy proxy;; mret tt)
    [ (is_Exception, fun e => print (MsgErrorChecking proxy e)) ].

(** [ThreadPoolExecutor(max_workers=...)]: a pool without a worker is
    refused. *)
Definition executor (max_workers : Z) : M unit :=
  if max_workers <=? 0 then raise ValueError else mret tt.

(** [run_check]. The pool decides in which order the candidates reach the
    block under the lock: [completion_order], given the pool size and the
    submitted list. [duration] is what the clock measures. *)
Definition run_check (completion_order : Z -> list string -> list string)
    (duration : Q) (proxy_file : string) : M unit :=
  proxies ← load_proxies proxy_file;
  if nonempty proxies then
    s ← get_self;
    print (MsgStarting (max_workers s));;
    executor (max_workers s);;
    for_each (completion_order (max_workers s) proxies) await;;
    display_results duration
  else mret tt.

(** ** [ProxyScraper]: validation of extracted endpoints *)

Module Scraper.

(** The loop over the four parts of the address: [Some false] when it
    returns [False], [None] when [int] raises, [Some true] when it ends. *)
Fixpoint parts_in_range (parts : list string) : option bool :=
  match parts with
  | [] => Some true
  | part :: rest =>
      match Py.int part with
      | Some n => if (0 <=? n) && (n <=? 255) then parts_in_range rest else Some false
      | None => None
      end
  end.

(** [validate_proxy_format] *)
Definition validate_proxy_format (proxy : string) : bool :=
  match Py.split ":" proxy with
  | [ip; port] =>
      let parts := Py.split "." ip in
      if negb (length parts =? 4)%nat then false
      else match parts_in_range parts with
           | Some true =>
               match Py.int port with
               | Some port_num =>
                   if negb ((1 <=? port_num) && (port_num <=? 65535)) then false
                   else true
               | None => false
               end
           | Some false => false
           | None => false
           end
  | _ => false
  end.

Definition proxy_patterns : list string :=
  [ "\b(?:\d{1,3}\.){3}\d{1,3}:\d{1,5}\b";
    "\b(?:\d{1,3}\s*\.\s*){3}\d{1,3}\s*:\s*\d{1,5}\b" ].

Section Extraction.

(** [re.findall(pattern, text, re.IGNORECASE)], the regular expression
    engine of the standard library. *)
Variable findall : string -> string -> list string.

(** [extract_proxies_from_text] *)
Definition extract_proxies_from_text (text : string) : gset string :=
  foldl (fun proxies pattern =>
           foldl (fun proxies match_ =>
                    let proxy := Py.remove_spaces match_ in
                    if validate_proxy_format proxy then proxies ∪ {[ proxy ]}
                    else proxies)
                 proxies (findall pattern text))
        ∅ proxy_patterns.

End Extraction.

End Scraper.

(** * Notions used in the statements *)

(** ** Observations of a world *)

(** The lines of the category's output file; a file that does not exist
    has none. *)
Definition file_lines (c : category) (w : World) : list string :=
  default [] (disk w !! file_names (self w) c).

(** Everything filed under a category so far: what was written, then what
    is still in memory. *)
Definition history (c : category) (w : World) : list string :=
  file_lines c w ++ bucket c (self w).

(** The attributes and surroundings that no method changes after loading. *)
Definition frame (w : World) : string * Z * Z * Z * Z * gset string * Network :=
  (timestamp (self w), timeout (self w), max_workers (self w),
   total_proxies (self w), save_interval (self w), denied w, net w).

(** Every output file can be opened for appending. *)
Definition writable (w : World) : Prop :=
  forall c, file_names (self w) c ∉ denied w.

(** ** Hoare triples *)

Definition hoare {A} (P : World -> Prop) (m : M A)
    (Q : outcome A -> World -> Prop) : Prop :=
  forall w, P w -> Q (m w).1 (m w).2.

(** An invariant that survives a computation however it ends, with a
    bound on what it may raise. *)
Definition keeps {A} (I : World -> Prop) (E : exception -> Prop) (m : M A) : Prop :=
  hoare I m (fun r w => I w /\ forall e, r = Raises e -> E e).

(** ** The answers of the probes *)

(** A response, or its absence, counts as success. *)
Definition status_ok (r : outcome Z) : bool :=
  match r with Returns status_code => status_code =? 200 | Raises _ => false end.

(** A SOCKS probe of the candidate goes through. *)
Definition session_ok (n : Network) (t : Z) (v : socks_type) (p : string) : bool :=
  match Py.split ":" p with
  | [ip; port] =>
      match Py.int port with
      | Some k => match socks_session n v ip k t with
                  | Returns _ => true
                  | Raises _ => false
                  end
      | None => false
      end
  | _ => false
  end.

(** The outcome of the four probes for a candidate, on a given network
    and with a given time limit. *)
Definition answers (n : Network) (t : Z) (p : string) : results :=
  mkResults p
    (status_ok (requests_get n test_url ("http://" +:+ p) ("http://" +:+ p) t))
    (status_ok (requests_get n test_url_https ("https://" +:+ p) ("https://" +:+ p) t))
    (session_ok n t SOCKS4 p)
    (session_ok n t SOCKS5 p).

(** The candidate is filed under the category. *)
Definition placed (n : Network) (t : Z) (c : category) (p : string) : bool :=
  flag c (answers n t p).

(** The probe calls that [check_proxy] makes for a candidate. *)
Definition four_calls (p : string) : list (category * string) :=
  [(Http, p); (Https, p); (Socks4, p); (Socks5, p)].

(** ** Steps of the checkpoint and of the final save *)

(** The world after one block of [save_intermediate_results] has run to
    its end on a non-empty list. *)
Definition drained (c : category) (w : World) : World :=
  with_self
    (set_bucket c [] (set_total c (total c (self w) + len (bucket c (self w))) (self w)))
    (with_disk (<[file_names (self w) c := file_lines c w ++ bucket c (self w)]> (disk w)) w).

(** The same for one block of [save_results]. *)
Definition flushed (c : category) (w : World) : World :=
  with_console (console w ++ [MsgFinalAppended c (file_names (self w) c)])
    (with_self
       (set_total c (total c (self w) + len (bucket c (self w))) (self w))
       (with_disk (<[file_names (self w) c := file_lines c w ++ bucket c (self w)]> (disk w)) w)).

(** After [l] has been recorded: the frame is the same, the counter has
    advanced by the length of [l], each probe was called, and each
    category holds what it held plus the candidates of [l] placed in it;
    the cumulative totals make up for the lists that were cleared, and
    never decrease. *)
Definition advances (l : list string) (w w' : World) : Prop :=
  frame w' = frame w
  /\ checked_proxies (self w') = checked_proxies (self w) + len l
  /\ calls w' = calls w ++ (l ≫= four_calls)
  /\ forall c,
       history c w' = history c w ++ filter (placed (net w) (timeout (self w)) c) l
       /\ total c (self w') + len (bucket c (self w'))
          = total c (self w) + len (bucket c (self w))
            + len (filter (placed (net w) (timeout (self w)) c) l)
       /\ total c (self w) <= total c (self w').

(** Nothing has been recorded in between. *)
Definition evolves (w w' : World) : Prop := advances [] w w'.

(** Properties of the later world only, closed under [evolves]. *)
Definition since (w0 : World) : World -> Prop := evolves w0.

(** A block of the checkpoint, and of the final save, when the file can be
    written: nothing happens to an empty list. *)
Definition drain_ok (c : category) (w : World) : World :=
  if nonempty (bucket c (self w)) then drained c w else w.

Definition flush_ok (c : category) (w : World) : World :=
  if nonempty (bucket c (self w)) then flushed c w else w.

(** The categories in [D] have been written out since [w0]; [clear] tells
    whether writing also empties the list. *)
Definition settled (clear : bool) (D : category -> bool) (w0 w : World) : Prop :=
  frame w = frame w0
  /\ checked_proxies (self w) = checked_proxies (self w0)
  /\ last_save_count (self w) = last_save_count (self w0)
  /\ forall c,
       file_lines c w = (if D c then history c w0 else file_lines c w0)
       /\ bucket c (self w) = (if D c && clear then [] else bucket c (self w0))
       /\ total c (self w)
          = (if D c then total c (self w0) + len (bucket c (self w0))
             else total c (self w0)).

Definition also (c : category) (D : category -> bool) : category -> bool :=
  fun c' => if decide (c' = c) then true else D c'.

Definition nothing : category -> bool := fun _ => false.

Definition drain_all (w : World) : World :=
  drain_ok Failed (drain_ok Socks5 (drain_ok Socks4 (drain_ok Https (drain_ok Http w)))).

Definition flush_all (w : World) : World :=
  flush_ok Failed (flush_ok Socks5 (flush_ok Socks4 (flush_ok Https (flush_ok Http w)))).

Definition everything : category -> bool :=
  also Failed (also Socks5 (also Socks4 (also Https (also Http nothing)))).

(** ** The stages of a run *)

(** The candidate list that [load_proxies] builds from the lines of the
    file. *)
Definition candidates (f : list string) : list string :=
  elements (list_to_set (all_lines_of f) : gset string).

(** The world after a successful [load_proxies]. *)
Definition loaded (path : string) (f : list string) (w : World) : World :=
  let original_count := len (all_lines_of f) in
  let unique_count := len (candidates f) in
  let duplicates_removed := original_count - unique_count in
  with_console
    ((console w ++ [MsgLoaded original_count path])
     ++ [if 0 <? duplicates_removed
         then MsgRemoved duplicates_removed unique_count
         else MsgNoDuplicates unique_count])
    (with_self (set_total_proxies unique_count (self w)) w).

(** The world in which the loop of [run_check] starts. *)
Definition started (path : string) (f : list string) (w : World) : World :=
  with_console (console (loaded path f w) ++ [MsgStarting (max_workers (self w))])
    (loaded path f w).

(** The world in which [display_results] is called at the end of the run. *)
Definition checked_all (order : Z -> list string -> list string)
    (path : string) (f : list string) (w : World) : World :=
  (for_each (order (max_workers (self w)) (candidates f)) await (started path f w)).2.

(** The messages of [display_results] before the final save. *)
Definition displayed (d : Q) (w : World) : World :=
  let s := self w in
  with_console
    (((((console w ++ [MsgTested (total_proxies s)])
        ++ [MsgTimeTaken d])
       ++ [MsgAverage (d / inject_Z (total_proxies s))%Q])
      ++ [MsgTotals (total_working_http s) (total_working_https s)
            (total_working_socks4 s) (total_working_socks5 s) (total_failed_proxies s)])
     ++ [MsgSuccessRate (success_rate s)])
    w.

(** ** Counting *)

(** A checker that has recorded nothing yet, with output files that are
    new. *)
Definition fresh (w : World) : Prop :=
  checked_proxies (self w) = 0
  /\ last_save_count (self w) = 0
  /\ forall c, bucket c (self w) = [] /\ total c (self w) = 0 /\ file_lines c w = [].

(** How often a candidate is placed in a category, over a list. *)
Definition count (n : Network) (t : Z) (c : category) (l : list string) : Z :=
  len (filter (placed n t c) l).

(** The number of lines in the five output files. *)
Definition lines_written (w : World) : Z :=
  len (file_lines Http w) + len (file_lines Https w) + len (file_lines Socks4 w)
  + len (file_lines Socks5 w) + len (file_lines Failed w).

(** The number of buckets that receive a candidate: the number of its true
    flags, or one (the failed bucket) when no flag is true. *)
Definition memberships (n : Network) (t : Z) (p : string) : Z :=
  let r := answers n t p in
  Z.max 1 (Z.b2z (http r) + Z.b2z (https r) + Z.b2z (socks4 r) + Z.b2z (socks5 r)).

Definition total_memberships (n : Network) (t : Z) (l : list string) : Z :=
  foldr (fun p acc => memberships n t p + acc) 0 l.

(** The candidate was appended to the list of the category: the sequence
    filed under the category, on disk and in memory, is longer by it. *)
Definition filed (c : category) (p : string) (w w' : World) : Prop :=
  history c w' = history c w ++ [p].

(** The distinct strings among the trimmed lines, the empty ones dropped. *)
Definition distinct_trimmed (f : list string) : list string :=
  remove_dups (filter (fun x => x <> EmptyString) (Py.strip <$> f)).

(** ** Sample worlds *)

(** A network on which [1.2.3.4:8080] answers both as a plain and as a
    CONNECT proxy, [9.9.9.9:1080] speaks both SOCKS dialects, and nothing
    else answers. *)
Definition demo_net : Network :=
  mkNetwork
    (fun url proxy_http proxy_https t =>
       if String.eqb proxy_http "http://1.2.3.4:8080" then Returns 200
       else if String.eqb proxy_http "https://1.2.3.4:8080" then Returns 200
       else if String.eqb proxy_http "http://7.7.7.7:80" then Returns 503
       else Raises RequestException)
    (fun v ip port t =>
       if (String.eqb ip "9.9.9.9" && (port =? 1080))%bool then Returns tt
       else Raises ProxyError).

Definition demo_file : list string :=
  ["1.2.3.4:8080"; " 1.2.3.4:8080 "; ""; "5.6.7.8:3128"].

(** A new checker with a pool of the given size, facing a disk that holds
    the list. *)
Definition demo_world (workers : Z) : World :=
  mkWorld (init 10 workers "20260101_000000")
    {[ "proxy_list.txt" := demo_file ]} ∅ demo_net [] [].

(** A pool that finishes in submission order with one worker and in the
    opposite order otherwise. *)
Definition demo_order (workers : Z) (l : list string) : list string :=
  if workers =? 1 then l else reverse l.

(** A checker with the given checkpoint interval, facing a disk that
    refuses the HTTP output file. *)
Definition refusing_world (interval : Z) : World :=
  mkWorld (set_save_interval interval (init 10 50 "20260101_000000"))
    {[ "proxy_list.txt" := demo_file ]}
    {[ "working_http_proxies_20260101_000000.txt" ]} demo_net [] [].

(** A checker that checkpoints after every candidate, with one candidate
    that answers both as an HTTP and as an HTTPS proxy. *)
Definition eager_world : World :=
  mkWorld (set_save_interval 1 (init 10 50 "20260101_000000"))
    {[ "proxy_list.txt" := ["1.2.3.4:8080"] ]} ∅ demo_net [] [].


(** An engine that reports three matches for either pattern. *)
Definition demo_findall (pattern text : string) : list string :=
  ["1.2.3.4 : 80"; "999.1.1.1:80"; "1.2.3.4:70000"].

(** * Further notions: the checker's steps on a cooperating disk *)

(** The world after [save_intermediate_results] has run to its end. *)
Definition saved (w : World) : World :=
  with_self (set_last_save_count (checked_proxies (self (drain_all w))) (self (drain_all w)))
    (with_console (console (drain_all w) ++ [MsgSaved (checked_proxies (self (drain_all w)))])
       (drain_all w)).

(** The world after the checkpoint of [check_proxy], when every write
    succeeds. *)
Definition checkpoint_ok (w : World) : World :=
  if save_interval (self w) <=? checked_proxies (self w) - last_save_count (self w)
  then saved w else w.

(** The candidates recorded since the last checkpoint. *)
Definition backlog (w : World) : Z :=
  checked_proxies (self w) - last_save_count (self w).

(** The world after the final save has run twice in a row. *)
Definition flushed_twice (w : World) : World :=
  (save_results (save_results w).2).2.

(** * [ProxyScraper]: the object, the disk and the web *)

(** ** More string primitives *)

Module Str.

(** [s.startswith(prefix)] *)
Definition startswith (prefix s : string) : bool := String.prefix prefix s.

(** [needle in s] *)
Fixpoint contains (needle s : string) : bool :=
  String.prefix needle s
  || match s with
     | String _ s' => contains needle s'
     | EmptyString => false
     end.

(** [c.lower()] for one character: the capital letters of Latin-1. *)
Definition lower_char (c : ascii) : ascii :=
  let n := nat_of_ascii c in
  if ((65 <=? n)%nat && (n <=? 90)%nat)
     || ((192 <=? n)%nat && (n <=? 222)%nat && negb (n =? 215)%nat)
  then ascii_of_nat (n + 32) else c.

(** [s.lower()] *)
Fixpoint lower (s : string) : string :=
  match s with
  | EmptyString => EmptyString
  | String c s' => String (lower_char c) (lower s')
  end.

(** The string that Python writes as a backslash and an [n]. *)
Definition newline : string := String "010" EmptyString.

(** [list(f)] for a file with the characters [s] that is open for reading
    as text: the lines in order, each with its end, which is a newline
    whether the file has a line feed, a carriage return or the two in a
    row; only the last line can be without an end. *)
Fixpoint readlines (s : string) : list string :=
  match s with
  | EmptyString => []
  | String c s' =>
      if Ascii.eqb c "010" then newline :: readlines s'
      else if Ascii.eqb c "013" then
        match s' with
        | String c' s'' =>
            if Ascii.eqb c' "010" then newline :: readlines s''
            else newline :: readlines s'
        | EmptyString => [newline]
        end
      else
        match readlines s' with
        | line :: rest => String c line :: rest
        | [] => [String c EmptyString]
        end
  end.

End Str.

Module Crawler.

(** A fetched page as the scraper reads it: the text of the document
    ([soup.get_text()]) and, for every [a] element with an [href], its
    text and its [href]. *)
Record Page := mkPage {
  page_text : string;
  anchors : list (string * string)
}.

(** How [session.get] followed by [raise_for_status] can fail, by the
    [except] clause of [scrape_page] that receives it. *)
Inductive fetch_error := Timeout | RequestError | OtherError.

(** The library functions and the web, as [scrape_page] uses them:
    [re.findall], [re.search] and [re.match] with their patterns,
    [urljoin] ([None] when it raises), the order in which [for] goes
    through a set, the delays that are beyond the range of the clock of
    [time.sleep] (on the usual platforms those of more than some
    9.2e9 seconds, in either direction), and the answer to a request. *)
Record Library := mkLibrary {
  findall : string -> string -> list string;
  re_search : string -> string -> bool;
  re_match : string -> string -> bool;
  urljoin : string -> string -> option string;
  iterate : gset string -> list string;
  too_long : Q -> bool;
  session_get : string -> fetch_error + Page
}.

(** What the scraper prints. *)
Inductive note :=
  | LoadedExisting (count : Z) (file : string)
  | ErrorLoadingExisting (e : exception)
  | ErrorSaving (proxy : string) (e : exception)
  | Scraping (url : string)
  | FoundNew (count : Z) (url : string)
  | AllDuplicates (count : Z) (url : string)
  | NoProxies (url : string)
  | SkippingPagination (url : string)
  | FoundPagination (count processing : Z)
  | TimeoutScraping (url : string)
  | RequestErrorScraping (url : string)
  | ErrorScraping (url : string)
  | UrlFileNotFound (filename : string).

(** The scraper object with its surroundings: the set [all_proxies], the
    name [proxy_file], the [delay], the disk (a text file is the string
    of its characters), the paths whose [open] fails, the requests sent
    so far and the console. *)
Record Site := mkSite {
  all_proxies : gset string;
  proxy_file : string;
  delay : Q;
  files : gmap string string;
  locked : gset string;
  requested : list string;
  screen : list note
}.

Definition with_all_proxies (x : gset string) (s : Site) : Site :=
  mkSite x (proxy_file s) (delay s) (files s) (locked s) (requested s) (screen s).
Definition with_files (x : gmap string string) (s : Site) : Site :=
  mkSite (all_proxies s) (proxy_file s) (delay s) x (locked s) (requested s) (screen s).
Definition with_requested (x : list string) (s : Site) : Site :=
  mkSite (all_proxies s) (proxy_file s) (delay s) (files s) (locked s) x (screen s).
Definition with_screen (x : list note) (s : Site) : Site :=
  mkSite (all_proxies s) (proxy_file s) (delay s) (files s) (locked s) (requested s) x.

(** A method returns or raises, and leaves a site behind. *)
Definition E (A : Type) : Type := Site -> outcome A * Site.

#[global] Instance E_ret : MRet E := fun A a s => (Returns a, s).
#[global] Instance E_bind : MBind E := fun A B f m s =>
  match m s with
  | (Returns a, s') => f a s'
  | (Raises e, s') => (Raises e, s')
  end.

Definition raise {A} (e : exception) : E A := fun s => (Raises e, s).

(** [try: body except ...], as for the checker. *)
Fixpoint handle {A} (clauses : list ((exception -> bool) * (exception -> E A)))
    (e : exception) : E A :=
  match clauses with
  | [] => raise e
  | (catches, handler) :: rest => if catches e then handler e else handle rest e
  end.

Definition try_except {A} (body : E A)
    (clauses : list ((exception -> bool) * (exception -> E A))) : E A := fun s =>
  match body s with
  | (Raises e, s') => handle clauses e s'
  | r => r
  end.

Definition get : E Site := fun s => (Returns s, s).
Definition say (n : note) : E unit :=
  fun s => (Returns tt, with_screen (screen s ++ [n]) s).

(** [os.path.exists(path)] *)
Definition exists_ (path : string) : E bool :=
  fun s => (Returns (bool_decide (is_Some (files s !! path))), s).

(** [with open(path, 'r') as f: ... for line in f] *)
Definition read_lines (path : string) : E (list string) := fun s =>
  if decide (path ∈ locked s) then (Raises OSError, s)
  else match files s !! path with
       | Some text => (Returns (Str.readlines text), s)
       | None => (Raises FileNotFoundError, s)
       end.

(** [with open(path, 'a') as f: f.write(text)]: a missing file is
    created. *)
Definition append_text (path text : string) : E unit := fun s =>
  if decide (path ∈ locked s) then (Raises OSError, s)
  else (Returns tt,
        with_files (<[path := default EmptyString (files s !! path) +:+ text]> (files s)) s).

(** [self.all_proxies.update(x)] *)
Definition update_all_proxies (x : gset string) : E unit :=
  fun s => (Returns tt, with_all_proxies (all_proxies s ∪ x) s).

(** [ProxyScraper.load_existing_proxies] *)
Definition load_existing_proxies : E unit :=
  try_except
    (s ← get;
     exists_ (proxy_file s) ≫= fun present : bool =>
     if present then
       f ← read_lines (proxy_file s);
       let existing_proxies : gset string := list_to_set (all_lines_of f) in
       update_all_proxies existing_proxies;;
       say (LoadedExisting (Z.of_nat (size existing_proxies)) (proxy_file s))
     else mret tt)
    [ (is_Exception, fun e => say (ErrorLoadingExisting e)) ].

(** [ProxyScraper.save_proxy_instantly] *)
Definition save_proxy_instantly (proxy : string) : E unit :=
  try_except
    (s ← get; append_text (proxy_file s) (proxy +:+ Str.newline))
    [ (is_Exception, fun e => say (ErrorSaving proxy e)) ].

(** [load_urls_from_file], the function of the module. *)
Definition load_urls_from_file (filename : string) : E (list string) :=
  try_except
    (f ← read_lines filename;
     let urls :=
       Py.strip <$> filter (fun line => Py.truthy (Py.strip line)
                                        && negb (Str.startswith "#" line)) f in
     mret urls)
    [ (fun e => bool_decide (e = FileNotFoundError),
       fun _ => say (UrlFileNotFound filename);; mret []) ].

Definition pagination_patterns : list string :=
  [ "next\s*page"; "next\s*>"; ">\s*next"; "page\s*\d+"; "more\s*proxies";
    "continue"; "load\s*more" ].

(** [for x in l: body(x)] *)
Fixpoint each {A} (l : list A) (body : A -> E unit) : E unit :=
  match l with
  | [] => mret tt
  | x :: l' => body x;; each l' body
  end.

Section Scraping.

Variable lib : Library.

(** The inner loop of the first pass of [find_pagination_links] for one
    link: the first pattern that matches a link whose address is new and
    is not the page itself adds the address and ends the loop. [None]
    stands for an exception of [urljoin]. *)
Fixpoint try_patterns (base_url link_href link_text : string)
    (patterns : list string) (pagination_links : list string) : option (list string) :=
  match patterns with
  | [] => Some pagination_links
  | pattern :: rest =>
      if re_search lib pattern link_text then
        match urljoin lib base_url link_href with
        | None => None
        | Some full_url =>
            if bool_decide (full_url <> base_url)
               && bool_decide (full_url ∉ pagination_links)
            then Some (pagination_links ++ [full_url])
            else try_patterns base_url link_href link_text rest pagination_links
        end
      else try_patterns base_url link_href link_text rest pagination_links
  end.

(** The first pass: links whose text names a next page. *)
Fixpoint links_by_text (base_url : string) (links : list (string * string))
    (pagination_links : list string) : option (list string) :=
  match links with
  | [] => Some pagination_links
  | (text, link_href) :: rest =>
      let link_text := Py.strip (Str.lower text) in
      match try_patterns base_url link_href link_text pagination_patterns pagination_links with
      | Some found => links_by_text base_url rest found
      | None => None
      end
  end.

(** The second pass: links whose text is a number. *)
Fixpoint links_by_number (base_url : string) (links : list (string * string))
    (pagination_links : list string) : option (list string) :=
  match links with
  | [] => Some pagination_links
  | (text, link_href) :: rest =>
      let link_text := Py.strip text in
      if re_match lib "^\d+$" link_text then
        match urljoin lib base_url link_href with
        | None => None
        | Some full_url =>
            if bool_decide (full_url <> base_url)
               && bool_decide (full_url ∉ pagination_links)
            then links_by_number base_url rest (pagination_links ++ [full_url])
            else links_by_number base_url rest pagination_links
        end
      else links_by_number base_url rest pagination_links
  end.

(** [ProxyScraper.find_pagination_links] *)
Definition find_pagination_links (soup : Page) (base_url : string) : option (list string) :=
  match links_by_text base_url (anchors soup) [] with
  | Some found => links_by_number base_url (anchors soup) found
  | None => None
  end.

(** [time.sleep(self.delay)]: a delay beyond the range of the clock is
    refused when it is converted, a negative one after that. *)
Definition sleep : E unit := fun s =>
  if too_long lib (delay s) then (Raises OverflowError, s)
  else if Qle_bool 0 (delay s) then (Returns tt, s)
  else (Raises ValueError, s).

(** [self.session.get(url, timeout=15)], [raise_for_status] and the
    parsing of the answer. *)
Definition request (url : string) : E (fetch_error + Page) := fun s =>
  (Returns (session_get lib url), with_requested (requested s ++ [url]) s).

(** The loop of [scrape_page] over the extracted proxies, each step under
    [self.lock]. *)
Fixpoint record_new (proxies : list string) (new_proxies : list string)
  : E (list string) :=
  match proxies with
  | [] => mret new_proxies
  | proxy :: rest =>
      s ← get;
      if decide (proxy ∈ all_proxies s) then record_new rest new_proxies
      else
        update_all_proxies {[ proxy ]};;
        save_proxy_instantly proxy;;
        record_new rest (new_proxies ++ [proxy])
  end.

(** The body of [scrape_page], with the call [self.scrape_page(next_url,
    max_pages=1)] left open as [recurse]. The three [except] clauses
    print; the first two receive only what the request raises. *)
Definition scrape_body (recurse : string -> E unit) (url : string) (max_pages : Z)
  : E unit :=
  say (Scraping url);;
  request url ≫= fun response : fetch_error + Page =>
  match response with
  | inl Timeout => say (TimeoutScraping url)
  | inl RequestError => say (RequestErrorScraping url)
  | inl OtherError => say (ErrorScraping url)
  | inr soup =>
      try_except
        (let proxies := Scraper.extract_proxies_from_text (findall lib) (page_text soup) in
         (if nonempty (elements proxies) then
            record_new (iterate lib proxies) [] ≫= fun new_proxies : list string =>
            if nonempty new_proxies then say (FoundNew (len new_proxies) url)
            else say (AllDuplicates (Z.of_nat (size proxies)) url)
          else say (NoProxies url));;
         if Str.contains "raw.githubusercontent.com" url || Str.contains "github.com" url
         then say (SkippingPagination url)
         else if 1 <? max_pages then
           match find_pagination_links soup url with
           | None => raise ValueError
           | Some next_links =>
               if nonempty next_links then
                 say (FoundPagination (len next_links)
                        (Z.min (len next_links) (max_pages - 1)));;
                 each (take (Z.to_nat (max_pages - 1)) next_links)
                   (fun next_url => sleep;; recurse next_url)
               else mret tt
           end
         else mret tt)
        [ (is_Exception, fun _ => say (ErrorScraping url)) ]
  end.

(** [scrape_page] with [max_pages=1], where the body never reaches the
    recursive call. *)
Definition scrape_last (url : string) : E unit :=
  scrape_body (fun _ => mret tt) url 1.

(** [ProxyScraper.scrape_page]: the recursive calls all have
    [max_pages=1]. *)
Definition scrape_page (url : string) (max_pages : Z) : E unit :=
  scrape_body scrape_last url max_pages.

End Scraping.

(** [ProxyScraper.__init__] on the disk, the web log and the console of
    [s]: an empty set, the file name, and what the file holds. *)
Definition init (delay : Q) (s : Site) : Site :=
  (load_existing_proxies
     (mkSite ∅ "proxy_list.txt" delay (files s) (locked s) (requested s) (screen s))).2.

End Crawler.

(** ** Notions for a save that is refused *)



(** * Notions used for the scraper *)

(** From a site where [P] holds, [m] returns in a site where [Q] holds
    of its result, or raises [e] in a site where [X e] holds. *)
Definition triple {A} (P : Crawler.Site -> Prop) (m : Crawler.E A)
    (Q : A -> Crawler.Site -> Prop) (X : exception -> Crawler.Site -> Prop) : Prop :=
  forall s, P s ->
    match m s with
    | (Returns a, s') => Q a s'
    | (Raises e, s') => X e s'
    end.

(** [m] keeps [I], and what it raises is an [Exception]. *)
Definition preserves {A} (I : Crawler.Site -> Prop) (m : Crawler.E A) : Prop :=
  triple I m (fun _ => I) (fun e s => I s /\ is_Exception e = true).

(** The characters of the proxy file; none when the file is missing. *)
Definition proxy_text (s : Crawler.Site) : string :=
  default EmptyString (Crawler.files s !! Crawler.proxy_file s).

(** What the calls of [save_proxy_instantly] for the strings of [l], in
    this order, write. *)
Definition written (l : list string) : string :=
  foldr (fun proxy rest => proxy +:+ Str.newline +:+ rest) EmptyString l.

(** The text is empty, or its last line has its end. *)
Fixpoint ends_line (s : string) : bool :=
  match s with
  | EmptyString => true
  | String c s' =>
      match s' with
      | EmptyString => Ascii.eqb c "010" || Ascii.eqb c "013"
      | String _ _ => ends_line s'
      end
  end.

(** A string that is not empty and in which no line ends. *)
Definition one_line (x : string) : Prop :=
  x <> EmptyString
  /\ Forall (fun c => Ascii.eqb c "010" = false /\ Ascii.eqb c "013" = false)
       (list_ascii_of_string x).

(** The test of [scrape_page] for the addresses it does not paginate. *)
Definition github (url : string) : bool :=
  Str.contains "raw.githubusercontent.com" url || Str.contains "github.com" url.

(** A string that passes the validation and holds no blank. *)
Definition endpoint (x : string) : Prop :=
  Scraper.validate_proxy_format x = true /\ Py.remove_spaces x = x.

(** A [for] loop over a set meets each element once. *)
Definition each_once (lib : Crawler.Library) : Prop :=
  forall X : gset string, Crawler.iterate lib X ≡ₚ elements X.

(** From [s] to [s'] the scraper has recorded the strings [added], in
    this order: they are new and distinct, they have joined [all_proxies],
    and each of them, followed by a newline, has been written at the end
    of the proxy file, unless the file cannot be opened, when the disk is
    as it was. *)
Definition grows (s s' : Crawler.Site) (added : list string) : Prop :=
  Crawler.proxy_file s' = Crawler.proxy_file s
  /\ Crawler.locked s' = Crawler.locked s
  /\ Crawler.delay s' = Crawler.delay s
  /\ NoDup added
  /\ (forall x, x ∈ added -> x ∉ Crawler.all_proxies s)
  /\ Crawler.all_proxies s' = Crawler.all_proxies s ∪ list_to_set added
  /\ (if decide (Crawler.proxy_file s ∈ Crawler.locked s)
      then Crawler.files s' = Crawler.files s
      else proxy_text s' = proxy_text s +:+ written added
           /\ forall path, path <> Crawler.proxy_file s ->
                Crawler.files s' !! path = Crawler.files s !! path).

(** The set [all_proxies] holds what a new scraper would load from the
    proxy file, which has the name that [__init__] gives it and can be
    opened. *)
Definition in_step (s : Crawler.Site) : Prop :=
  Crawler.proxy_file s = "proxy_list.txt"
  /\ (Crawler.proxy_file s ∉ Crawler.locked s)
  /\ Crawler.all_proxies s = list_to_set (all_lines_of (Str.readlines (proxy_text s))).

(** In step, with a proxy file whose last line has its end. *)
Definition in_sync (s : Crawler.Site) : Prop :=
  in_step s /\ ends_line (proxy_text s) = true.

(** ** A sample web *)

(** A page with one list of proxies, a link to a second page under two
    texts, and a link to itself. *)
Definition demo_page : Crawler.Page :=
  Crawler.mkPage "1.2.3.4 : 80 999.1.1.1:80 1.2.3.4:70000"
    [("Next Page", "/list?page=2"); ("2", "/list?page=2"); ("home", "/list")].

(** A library that knows this page only: every other request times out. *)
Definition demo_lib : Crawler.Library :=
  Crawler.mkLibrary demo_findall
    (fun pattern text => bool_decide (pattern = "next\s*page") && Str.contains "next page" text)
    (fun _ text => bool_decide (text = "2"))
    (fun _ href => Some ("http://a.example" +:+ href))
    elements
    (fun delay => negb (Qle_bool (-9223372036) delay && Qle_bool delay 9223372036))
    (fun url => if bool_decide (url = "http://a.example/list") then inr demo_page
                else inl Crawler.Timeout).

(** A scraper without proxies on an empty disk. *)
Definition demo_site : Crawler.Site :=
  Crawler.mkSite ∅ "proxy_list.txt" 1 ∅ ∅ [] [].

(** A list of addresses to scrape, the last line without its end. *)
Definition url_text : string :=
  written ["# sources"; "  http://a.example/list "; ""; "  # indented"]
  +:+ "http://b.example/".

Definition url_site : Crawler.Site :=
  Crawler.mkSite ∅ "proxy_list.txt" 1 {[ "proxy_sources.txt" := url_text ]} ∅ [] [].

(** What the scraper has recorded since [s0]: validated strings without
    blanks. *)
Definition recorded (s0 s : Crawler.Site) : Prop :=
  exists added, grows s0 s added /\ Forall endpoint added.

(** A link text that [find_pagination_links] takes for a link to a
    further page: trimmed, it is a number, or, in lower case and trimmed,
    one of the patterns is found in it. *)
Definition paginates (lib : Crawler.Library) (text : string) : Prop :=
  Crawler.re_match lib "^\d+$" (Py.strip text) = true
  \/ exists pattern,
       pattern ∈ Crawler.pagination_patterns
       /\ Crawler.re_search lib pattern (Py.strip (Str.lower text)) = true.

(** A scraper that has the proxy of the sample page already. *)
Definition known_site : Crawler.Site :=
  Crawler.mkSite {[ "1.2.3.4:80" ]} "proxy_list.txt" 1
    {[ "proxy_list.txt" := written ["1.2.3.4:80"] ]} ∅ [] [].

(** * Reasoning *)

(** ** The string primitives on examples *)

Example strip_ex : Py.strip "  1.2.3.4:80 " = "1.2.3.4:80".
Proof. reflexivity. Qed.
Example split_ex1 : Py.split ":" "a:b:c" = ["a"; "b"; "c"].
Proof. reflexivity. Qed.
Example split_ex2 : Py.split ":" ":" = [""; ""].
Proof. reflexivity. Qed.
Example split_ex3 : Py.split "." "1..2" = ["1"; ""; "2"].
Proof. reflexivity. Qed.
Example int_ex1 : Py.int " 080 " = Some 80.
Proof. reflexivity. Qed.
Example int_ex2 : Py.int "1_0" = Some 10.
Proof. reflexivity. Qed.
Example int_ex3 : Py.int "1__0" = None.
Proof. reflexivity. Qed.
Example int_ex4 : Py.int "-1" = Some (-1).
Proof. reflexivity. Qed.
Example int_ex5 : Py.int "+ 1" = None.
Proof. reflexivity. Qed.
Example int_ex6 : Py.int "" = None.
Proof. reflexivity. Qed.
Example int_ex7 : Py.int "1_" = None.
Proof. reflexivity. Qed.

(** ** What a world holds for a category *)

Lemma file_names_inj s c c' : file_names s c = file_names s c' -> c = c'.
Proof.
  destruct c, c'; intros H; try reflexivity; exfalso;
    vm_compute in H; discriminate H.
Qed.

Lemma file_names_timestamp s s' c :
  timestamp s = timestamp s' -> file_names s c = file_names s' c.
Proof. intros H. unfold file_names. now rewrite H. Qed.

(** ** A Hoare logic for the monad *)

Lemma hoare_bind {A B} (P : World -> Prop) (R : A -> World -> Prop)
    (Q : outcome B -> World -> Prop) (m : M A) (f : A -> M B) :
  hoare P m (fun r w => match r with
                        | Returns a => R a w
                        | Raises e => Q (Raises e) w
                        end) ->
  (forall a, hoare (R a) (f a) Q) ->
  hoare P (m ≫= f) Q.
Proof.
  intros Hm Hf w HP. specialize (Hm w HP).
  unfold mbind, M_bind. destruct (m w) as [[a|e] w1]; cbn in *.
  - apply Hf, Hm.
  - exact Hm.
Qed.

Lemma keeps_bind {A B} I E (m : M A) (f : A -> M B) :
  keeps I E m -> (forall a, keeps I E (f a)) -> keeps I E (m ≫= f).
Proof.
  intros Hm Hf. apply hoare_bind with (R := fun _ w => I w).
  - intros w HI. destruct (Hm w HI) as [HI' HE].
    destruct (m w) as [[a|e] w1]; cbn in *; [exact HI'|].
    split; [exact HI'|]. intros e' [= <-]. now apply HE.
  - intros a. apply Hf.
Qed.

Lemma keeps_ret {A} I E (a : A) : keeps I E (mret a).
Proof. intros w HI. split; [exact HI|]. intros e [=]. Qed.

Lemma keeps_raise {A} I (E : exception -> Prop) e : E e -> keeps I E (@raise A e).
Proof. intros He w HI. split; [exact HI|]. now intros e' [= <-]. Qed.

Lemma keeps_when I E b (m : M unit) : keeps I E m -> keeps I E (when b m).
Proof. intros Hm. destruct b; [exact Hm|apply keeps_ret]. Qed.

Lemma keeps_get_self I E : keeps I E get_self.
Proof. intros w HI. split; [exact HI|]. intros e [=]. Qed.

Lemma keeps_modify_self I E f :
  (forall w, I w -> I (with_self (f (self w)) w)) -> keeps I E (modify_self f).
Proof. intros H w HI. split; [now apply H|]. intros e [=]. Qed.

Lemma keeps_print I E msg :
  (forall w, I w -> I (with_console (console w ++ [msg]) w)) -> keeps I E (print msg).
Proof. intros H w HI. split; [now apply H|]. intros e [=]. Qed.

(** ** What the probes answer *)

Lemma test_http_proxy_eq p w :
  test_http_proxy p w =
  (Returns (http (answers (net w) (timeout (self w)) p)),
   with_calls (calls w ++ [(Http, p)]) w).
Proof.
  unfold test_http_proxy, try_except, fetch, mbind, M_bind, called, get_self. cbn.
  destruct (requests_get _ _ _ _ _) as [z|e]; cbn; [|reflexivity].
  destruct (z =? 200); reflexivity.
Qed.

Lemma test_https_proxy_eq p w :
  test_https_proxy p w =
  (Returns (https (answers (net w) (timeout (self w)) p)),
   with_calls (calls w ++ [(Https, p)]) w).
Proof.
  unfold test_https_proxy, try_except, fetch, mbind, M_bind, called, get_self. cbn.
  destruct (requests_get _ _ _ _ _) as [z|e]; cbn; [|reflexivity].
  destruct (z =? 200); reflexivity.
Qed.

Lemma socks_attempt_eq v p w :
  try_except (socks_attempt v p) [ (anything, fun _ => mret None) ] w =
  ((if session_ok (net w) (timeout (self w)) v p then Returns (Some true)
    else Returns None), w).
Proof.
  unfold try_except, socks_attempt, session_ok.
  destruct (Py.split ":" p) as [|ip [|port [|? ?]]]; try reflexivity.
  destruct (Py.int port) as [k|]; [|reflexivity].
  unfold mbind, M_bind, get_self, socks_through. cbn.
  destruct (socks_session _ _ _ _ _) as [[]|e]; reflexivity.
Qed.

Lemma test_socks4_proxy_eq p w :
  test_socks4_proxy p w =
  (Returns (socks4 (answers (net w) (timeout (self w)) p)),
   with_calls (calls w ++ [(Socks4, p)]) w).
Proof.
  unfold test_socks4_proxy, mbind, M_bind, called.
  rewrite socks_attempt_eq. cbn. destruct (session_ok _ _ _ _); reflexivity.
Qed.

Lemma test_socks5_proxy_eq p w :
  test_socks5_proxy p w =
  (Returns (socks5 (answers (net w) (timeout (self w)) p)),
   with_calls (calls w ++ [(Socks5, p)]) w).
Proof.
  unfold test_socks5_proxy, mbind, M_bind, called.
  rewrite socks_attempt_eq. cbn. destruct (session_ok _ _ _ _); reflexivity.
Qed.

(** [check_proxy] is the block under the lock, run on the answers of the
    four probes. *)
Lemma check_proxy_eq p w :
  check_proxy p w =
  (let r := answers (net w) (timeout (self w)) p in
   record_outcome r;; checkpoint;; progress_update;; mret r)
    (with_calls (calls w ++ four_calls p) w).
Proof.
  unfold check_proxy. unfold mbind at 1, M_bind at 1. rewrite test_http_proxy_eq.
  unfold mbind at 1, M_bind at 1. rewrite test_https_proxy_eq.
  unfold mbind at 1, M_bind at 1. rewrite test_socks4_proxy_eq.
  unfold mbind at 1, M_bind at 1. rewrite test_socks5_proxy_eq.
  cbn. unfold with_calls; cbn. rewrite <- !app_assoc. reflexivity.
Qed.

(** ** Draining and recording *)

Lemma len_app {A} (l k : list A) : len (l ++ k) = len l + len k.
Proof. unfold len. rewrite length_app. lia. Qed.

Lemma len_nonneg {A} (l : list A) : 0 <= len l.
Proof. unfold len. lia. Qed.

Lemma drain_bucket_eq c w :
  drain_bucket c w =
  if nonempty (bucket c (self w)) then
    if decide (file_names (self w) c ∈ denied w) then (Raises OSError, w)
    else (Returns tt, drained c w)
  else (Returns tt, w).
Proof.
  unfold drain_bucket, append_lines, mbind, M_bind, get_self, when. cbn.
  destruct (nonempty _); [|reflexivity].
  destruct (decide _); [reflexivity|]. cbn.
  unfold modify_self, drained, file_lines. cbn. destruct c; reflexivity.
Qed.

Lemma flush_bucket_eq c w :
  flush_bucket c w =
  if nonempty (bucket c (self w)) then
    if decide (file_names (self w) c ∈ denied w) then (Raises OSError, w)
    else (Returns tt, flushed c w)
  else (Returns tt, w).
Proof.
  unfold flush_bucket, append_lines, mbind, M_bind, get_self, when. cbn.
  destruct (nonempty _); [|reflexivity].
  destruct (decide _); [reflexivity|]. cbn.
  unfold modify_self, print, flushed, file_lines. cbn. destruct c; reflexivity.
Qed.

Lemma file_lines_insert c c' x s' w :
  timestamp s' = timestamp (self w) ->
  file_lines c' (with_self s' (with_disk (<[file_names (self w) c := x]> (disk w)) w)) =
  if decide (c' = c) then x else file_lines c' w.
Proof.
  intros Hts. unfold file_lines. cbn.
  rewrite (file_names_timestamp _ _ c' Hts).
  destruct (decide (c' = c)) as [->|Hne].
  - now rewrite lookup_insert_eq.
  - rewrite lookup_insert_ne; [reflexivity|].
    intros Heq. apply Hne. symmetry. exact (file_names_inj _ _ _ Heq).
Qed.

Lemma file_lines_drained c c' w :
  file_lines c' (drained c w) = if decide (c' = c) then history c w else file_lines c' w.
Proof. unfold drained. rewrite file_lines_insert; [reflexivity|]. destruct c; reflexivity. Qed.

Lemma file_lines_flushed c c' w :
  file_lines c' (flushed c w) = if decide (c' = c) then history c w else file_lines c' w.
Proof.
  unfold flushed.
  change (file_lines c' (with_console ?m ?x)) with (file_lines c' x).
  rewrite file_lines_insert; [reflexivity|]. destruct c; reflexivity.
Qed.

Lemma bucket_drained c c' w :
  bucket c' (self (drained c w)) = if decide (c' = c) then [] else bucket c' (self w).
Proof. destruct c, c'; reflexivity. Qed.

Lemma total_drained c c' w :
  total c' (self (drained c w)) =
  if decide (c' = c) then total c (self w) + len (bucket c (self w)) else total c' (self w).
Proof. destruct c, c'; reflexivity. Qed.

Lemma bucket_flushed c c' w : bucket c' (self (flushed c w)) = bucket c' (self w).
Proof. destruct c, c'; reflexivity. Qed.

Lemma total_flushed c c' w :
  total c' (self (flushed c w)) =
  if decide (c' = c) then total c (self w) + len (bucket c (self w)) else total c' (self w).
Proof. destruct c, c'; reflexivity. Qed.

Lemma evolves_refl w : evolves w w.
Proof.
  split; [reflexivity|]. split; [unfold len; cbn; lia|].
  split; [cbn; now rewrite app_nil_r|].
  intros c. unfold len; cbn. rewrite app_nil_r. split; [reflexivity|]. split; lia.
Qed.

Lemma frame_net_timeout w w' :
  frame w' = frame w -> net w' = net w /\ timeout (self w') = timeout (self w).
Proof. unfold frame. intros [= ? ? ? ? ? ? ?]. split; assumption. Qed.

Lemma advances_trans l k w w1 w2 :
  advances l w w1 -> advances k w1 w2 -> advances (l ++ k) w w2.
Proof.
  intros (Hf & Hc & Hk & Hper) (Hf' & Hc' & Hk' & Hper').
  destruct (frame_net_timeout _ _ Hf) as [Hn Ht]. rewrite Hn, Ht in Hper'.
  split; [congruence|]. split; [rewrite Hc', Hc, len_app; lia|].
  split; [rewrite Hk', Hk, bind_app, app_assoc; reflexivity|].
  intros c. destruct (Hper c) as (Hh & Ht1 & Hm). destruct (Hper' c) as (Hh' & Ht2 & Hm').
  rewrite filter_app, len_app. split; [|split].
  - rewrite Hh', Hh, app_assoc. reflexivity.
  - lia.
  - lia.
Qed.

Lemma evolves_trans w w1 w2 : evolves w w1 -> evolves w1 w2 -> evolves w w2.
Proof. apply (advances_trans [] []). Qed.

Lemma advances_evolves l w w1 w2 : advances l w w1 -> evolves w1 w2 -> advances l w w2.
Proof. intros H1 H2. rewrite <- (app_nil_r l). exact (advances_trans l [] _ _ _ H1 H2). Qed.

Lemma evolves_drained c w : evolves w (drained c w).
Proof.
  split; [destruct c; reflexivity|]. split; [destruct c; unfold len; cbn; lia|].
  split; [cbn; now rewrite app_nil_r|].
  intros c'. unfold history. rewrite file_lines_drained, bucket_drained, total_drained.
  cbn [filter list_filter]. rewrite app_nil_r.
  pose proof (len_nonneg (bucket c (self w))).
  destruct (decide (c' = c)) as [->|Hne].
  - rewrite app_nil_r. unfold history. split; [reflexivity|].
    unfold len in *; cbn; split; lia.
  - split; [reflexivity|]. unfold len; cbn; split; lia.
Qed.

Lemma evolves_with_console m w : evolves w (with_console m w).
Proof.
  split; [reflexivity|]. split; [unfold len; cbn; lia|].
  split; [cbn; now rewrite app_nil_r|].
  intros c. unfold len, history, file_lines; cbn. rewrite app_nil_r.
  split; [reflexivity|]. split; lia.
Qed.

Lemma evolves_last_save v w : evolves w (with_self (set_last_save_count v (self w)) w).
Proof.
  split; [reflexivity|]. split; [unfold len; cbn; lia|].
  split; [cbn; now rewrite app_nil_r|].
  intros c. cbn [filter list_filter]. rewrite app_nil_r.
  split; [destruct c; reflexivity|]. destruct c; unfold len; cbn; split; lia.
Qed.

Lemma keeps_drain_bucket w0 c : keeps (since w0) (fun e => e = OSError) (drain_bucket c).
Proof.
  intros w Hw. rewrite drain_bucket_eq.
  destruct (nonempty _); [|split; [exact Hw|intros e [=]]].
  destruct (decide _) as [Hden|Hok]; cbn.
  - split; [exact Hw|]. now intros e' [= <-].
  - split; [|intros e' [=]]. exact (evolves_trans _ _ _ Hw (evolves_drained c w)).
Qed.

Lemma keeps_weaken {A} I (E E' : exception -> Prop) (m : M A) :
  keeps I E m -> (forall e, E e -> E' e) -> keeps I E' m.
Proof.
  intros H HE w HI. destruct (H w HI) as [H1 H2]. split; [exact H1|].
  intros e He. apply HE, H2, He.
Qed.

Lemma keeps_save_intermediate_results w0 :
  keeps (since w0) (fun e => e = OSError) save_intermediate_results.
Proof.
  unfold save_intermediate_results.
  repeat (apply keeps_bind; [apply keeps_drain_bucket|intros _]).
  apply keeps_bind; [apply keeps_get_self|intros s].
  apply keeps_bind.
  - apply keeps_print. intros w Hw.
    exact (evolves_trans _ _ _ Hw (evolves_with_console _ w)).
  - intros _. apply keeps_modify_self. intros w Hw.
    exact (evolves_trans _ _ _ Hw (evolves_last_save _ w)).
Qed.

Lemma keeps_checkpoint w0 : keeps (since w0) (fun e => e = OSError) checkpoint.
Proof.
  unfold checkpoint. apply keeps_bind; [apply keeps_get_self|intros s].
  apply keeps_when, keeps_save_intermediate_results.
Qed.

Lemma keeps_progress_update w0 :
  keeps (since w0) (fun e => e = ZeroDivisionError) progress_update.
Proof.
  unfold progress_update. apply keeps_bind; [apply keeps_get_self|intros s].
  destruct (total_proxies s =? 0).
  - now apply keeps_raise.
  - apply keeps_print. intros w Hw.
    exact (evolves_trans _ _ _ Hw (evolves_with_console _ w)).
Qed.

Lemma filter_one {A} (f : A -> bool) (x : A) :
  filter (fun y => f y) [x] = if f x then [x] else [].
Proof.
  rewrite filter_cons, filter_nil. destruct (f x); cbn; reflexivity.
Qed.

(** The first part of the locked block files the candidate under exactly
    the categories of its flags. *)
Lemma record_outcome_eq r w :
  (record_outcome r w).1 = Returns tt
  /\ frame (record_outcome r w).2 = frame w
  /\ disk (record_outcome r w).2 = disk w
  /\ calls (record_outcome r w).2 = calls w
  /\ console (record_outcome r w).2 = console w
  /\ checked_proxies (self (record_outcome r w).2) = checked_proxies (self w) + 1
  /\ last_save_count (self (record_outcome r w).2) = last_save_count (self w)
  /\ forall c,
       bucket c (self (record_outcome r w).2)
       = bucket c (self w) ++ (if flag c r then [proxy r] else [])
       /\ total c (self (record_outcome r w).2) = total c (self w).
Proof.
  destruct r as [p [] [] [] []]; cbn;
    (repeat (split; [reflexivity|])); intros c; destruct c; cbn;
    rewrite ?app_nil_r; split; reflexivity.
Qed.

Lemma record_outcome_advances p w :
  let r := answers (net w) (timeout (self w)) p in
  let w1 := with_calls (calls w ++ four_calls p) w in
  (record_outcome r w1).1 = Returns tt
  /\ advances [p] w (record_outcome r w1).2.
Proof.
  intros r w1.
  destruct (record_outcome_eq r w1) as (Hr & Hf & Hd & Hk & _ & Hc & _ & Hb).
  split; [exact Hr|].
  split; [exact Hf|]. split; [rewrite Hc; unfold len; cbn; lia|].
  split; [rewrite Hk; reflexivity|].
  intros c. destruct (Hb c) as [Hbc Htc].
  unfold history, file_lines. rewrite Hd, Hbc, Htc.
  assert (Hts : timestamp (self (record_outcome r w1).2) = timestamp (self w)).
  { unfold frame in Hf. now injection Hf. }
  rewrite (file_names_timestamp _ _ c Hts).
  rewrite filter_one. fold (placed (net w) (timeout (self w)) c p).
  change (flag c r) with (placed (net w) (timeout (self w)) c p).
  change (proxy r) with p. cbn [disk w1 with_calls].
  rewrite len_app, app_assoc.
  destruct (placed _ _ c p); unfold len; cbn; (split; [reflexivity|split; lia]).
Qed.

(** ** One candidate, then a list of them *)

Lemma keeps_locked_rest w0 (r : results) :
  keeps (since w0) (fun e => e = OSError \/ e = ZeroDivisionError)
    (checkpoint;; progress_update;; mret r).
Proof.
  apply keeps_bind.
  - eapply keeps_weaken; [apply keeps_checkpoint|]. now left.
  - intros _. apply keeps_bind.
    + eapply keeps_weaken; [apply keeps_progress_update|]. now right.
    + intros _. apply keeps_ret.
Qed.

Lemma bind_returns {A B} (m : M A) (f : A -> M B) w a w' :
  m w = (Returns a, w') -> (m ≫= f) w = f a w'.
Proof. intros H. unfold mbind, M_bind. now rewrite H. Qed.

Lemma bind_raises {A B} (m : M A) (f : A -> M B) w e w' :
  m w = (Raises e, w') -> (m ≫= f) w = (Raises e, w').
Proof. intros H. unfold mbind, M_bind. now rewrite H. Qed.

Lemma check_proxy_advances p w :
  advances [p] w (check_proxy p w).2
  /\ forall e, (check_proxy p w).1 = Raises e -> e = OSError \/ e = ZeroDivisionError.
Proof.
  rewrite check_proxy_eq. cbv zeta.
  destruct (record_outcome_advances p w) as [Hr Ha]. cbv zeta in Hr, Ha.
  destruct (record_outcome _ _) as [[[]|e] w2] eqn:Hrec; cbn in Hr, Ha; [|discriminate Hr].
  rewrite (bind_returns _ _ _ _ _ Hrec).
  destruct (keeps_locked_rest w2 (answers (net w) (timeout (self w)) p) w2
              (evolves_refl w2)) as [Hev He].
  split; [|exact He]. exact (advances_evolves _ _ _ _ Ha Hev).
Qed.

Lemma await_advances p w :
  (await p w).1 = Returns tt /\ advances [p] w (await p w).2.
Proof.
  destruct (check_proxy_advances p w) as [Ha He].
  unfold await, try_except, mbind, M_bind.
  destruct (check_proxy p w) as [[x|e] w']; cbn in *.
  - split; [reflexivity|exact Ha].
  - destruct (He e eq_refl) as [-> | ->]; cbn;
      (split; [reflexivity|]);
      exact (advances_evolves _ _ _ _ Ha (evolves_with_console _ w')).
Qed.

(** The loop of [run_check] never stops early, whatever the disk does. *)
Lemma for_each_await l w :
  (for_each l await w).1 = Returns tt /\ advances l w (for_each l await w).2.
Proof.
  revert w. induction l as [|p l IH]; intros w.
  - split; [reflexivity|apply evolves_refl].
  - destruct (await_advances p w) as [Hr Ha].
    cbn [for_each]. unfold mbind, M_bind.
    destruct (await p w) as [[[]|e] w1]; cbn in Hr, Ha; [|discriminate Hr].
    destruct (IH w1) as [Hr' Ha']. split; [exact Hr'|].
    exact (advances_trans [p] l _ _ _ Ha Ha').
Qed.

(** ** Draining when the disk cooperates *)

Lemma writable_frame w w' : frame w' = frame w -> writable w -> writable w'.
Proof.
  unfold frame. intros [= Hts _ _ _ _ Hd _] Hw c.
  rewrite (file_names_timestamp _ _ c Hts), Hd. apply Hw.
Qed.

Lemma drain_bucket_writable c w :
  writable w -> drain_bucket c w = (Returns tt, drain_ok c w).
Proof.
  intros Hw. rewrite drain_bucket_eq. unfold drain_ok.
  destruct (nonempty _); [|reflexivity].
  destruct (decide _) as [Hin|_]; [|reflexivity]. destruct (Hw c Hin).
Qed.

Lemma flush_bucket_writable c w :
  writable w -> flush_bucket c w = (Returns tt, flush_ok c w).
Proof.
  intros Hw. rewrite flush_bucket_eq. unfold flush_ok.
  destruct (nonempty _); [|reflexivity].
  destruct (decide _) as [Hin|_]; [|reflexivity]. destruct (Hw c Hin).
Qed.

Lemma nonempty_false {A} (l : list A) : nonempty l = false -> l = [].
Proof. destruct l; [reflexivity|discriminate]. Qed.

(** What one successful block of the checkpoint does to every category. *)
Lemma drain_ok_spec c w :
  frame (drain_ok c w) = frame w
  /\ checked_proxies (self (drain_ok c w)) = checked_proxies (self w)
  /\ last_save_count (self (drain_ok c w)) = last_save_count (self w)
  /\ forall c',
       file_lines c' (drain_ok c w) = (if decide (c' = c) then history c w else file_lines c' w)
       /\ bucket c' (self (drain_ok c w)) = (if decide (c' = c) then [] else bucket c' (self w))
       /\ total c' (self (drain_ok c w))
          = (if decide (c' = c) then total c (self w) + len (bucket c (self w))
             else total c' (self w)).
Proof.
  unfold drain_ok. destruct (nonempty (bucket c (self w))) eqn:Hne.
  - split; [destruct c; reflexivity|]. split; [destruct c; reflexivity|].
    split; [destruct c; reflexivity|]. intros c'.
    rewrite file_lines_drained, bucket_drained, total_drained. auto.
  - apply nonempty_false in Hne.
    do 3 (split; [reflexivity|]). intros c'. unfold history.
    destruct (decide (c' = c)) as [->|_]; [|auto].
    rewrite Hne, app_nil_r. unfold len; cbn. repeat split; lia.
Qed.

(** The same for the final save, which leaves the lists in place. *)
Lemma flush_ok_spec c w :
  frame (flush_ok c w) = frame w
  /\ checked_proxies (self (flush_ok c w)) = checked_proxies (self w)
  /\ last_save_count (self (flush_ok c w)) = last_save_count (self w)
  /\ forall c',
       file_lines c' (flush_ok c w) = (if decide (c' = c) then history c w else file_lines c' w)
       /\ bucket c' (self (flush_ok c w)) = bucket c' (self w)
       /\ total c' (self (flush_ok c w))
          = (if decide (c' = c) then total c (self w) + len (bucket c (self w))
             else total c' (self w)).
Proof.
  unfold flush_ok. destruct (nonempty (bucket c (self w))) eqn:Hne.
  - split; [destruct c; reflexivity|]. split; [destruct c; reflexivity|].
    split; [destruct c; reflexivity|].
    intros c'. rewrite file_lines_flushed, bucket_flushed, total_flushed. auto.
  - apply nonempty_false in Hne.
    do 3 (split; [reflexivity|]). intros c'. unfold history.
    destruct (decide (c' = c)) as [->|_]; [|auto].
    rewrite Hne, app_nil_r. unfold len; cbn. repeat split; lia.
Qed.

Lemma settled_start clear w : settled clear nothing w w.
Proof. repeat split. Qed.

Lemma settled_drain D c w0 w :
  settled true D w0 w -> D c = false -> settled true (also c D) w0 (drain_ok c w).
Proof.
  intros (Hf & Hc & Hl & Hper) HD.
  destruct (drain_ok_spec c w) as (Hf' & Hc' & Hl' & Hper').
  split; [congruence|]. split; [congruence|]. split; [congruence|].
  intros c'. destruct (Hper' c') as (H1 & H2 & H3). destruct (Hper c') as (G1 & G2 & G3).
  destruct (Hper c) as (K1 & K2 & K3). rewrite HD in K1, K2, K3. cbn in K2.
  rewrite H1, H2, H3. unfold also, history.
  destruct (decide (c' = c)) as [->|Hne]; cbn.
  - rewrite K1, K2, K3. auto.
  - rewrite G1, G2, G3. auto.
Qed.

Lemma settled_flush D c w0 w :
  settled false D w0 w -> D c = false -> settled false (also c D) w0 (flush_ok c w).
Proof.
  intros (Hf & Hc & Hl & Hper) HD.
  destruct (flush_ok_spec c w) as (Hf' & Hc' & Hl' & Hper').
  split; [congruence|]. split; [congruence|]. split; [congruence|].
  intros c'. destruct (Hper' c') as (H1 & H2 & H3). destruct (Hper c') as (G1 & G2 & G3).
  destruct (Hper c) as (K1 & K2 & K3). rewrite HD in K1, K2, K3. cbn in K2.
  rewrite H1, H2, H3. unfold also, history. rewrite !andb_false_r in *.
  destruct (decide (c' = c)) as [->|Hne]; cbn.
  - rewrite K1, K2, K3. auto.
  - rewrite G1, G2, G3. auto.
Qed.

Lemma everything_true c : everything c = true.
Proof. destruct c; reflexivity. Qed.

Lemma settled_drain_all w : settled true everything w (drain_all w).
Proof.
  unfold drain_all, everything.
  repeat (apply settled_drain; [|reflexivity]). apply settled_start.
Qed.

Lemma settled_flush_all w : settled false everything w (flush_all w).
Proof.
  unfold flush_all, everything.
  repeat (apply settled_flush; [|reflexivity]). apply settled_start.
Qed.

Lemma settled_writable clear D w0 w : settled clear D w0 w -> writable w0 -> writable w.
Proof. intros [Hf _]. now apply writable_frame. Qed.

(** The checkpoint on a disk that cooperates. *)
Lemma save_intermediate_results_writable w :
  writable w ->
  save_intermediate_results w =
  (Returns tt,
   with_self (set_last_save_count (checked_proxies (self (drain_all w))) (self (drain_all w)))
     (with_console (console (drain_all w) ++ [MsgSaved (checked_proxies (self (drain_all w)))])
        (drain_all w))).
Proof.
  intros Hw. unfold save_intermediate_results, drain_all.
  pose proof (settled_start true w) as H0.
  pose proof (settled_drain _ Http _ _ H0 eq_refl) as H1.
  pose proof (settled_drain _ Https _ _ H1 eq_refl) as H2.
  pose proof (settled_drain _ Socks4 _ _ H2 eq_refl) as H3.
  pose proof (settled_drain _ Socks5 _ _ H3 eq_refl) as H4.
  rewrite (bind_returns _ _ _ _ _ (drain_bucket_writable Http _ Hw)).
  rewrite (bind_returns _ _ _ _ _
             (drain_bucket_writable Https _ (settled_writable _ _ _ _ H1 Hw))).
  rewrite (bind_returns _ _ _ _ _
             (drain_bucket_writable Socks4 _ (settled_writable _ _ _ _ H2 Hw))).
  rewrite (bind_returns _ _ _ _ _
             (drain_bucket_writable Socks5 _ (settled_writable _ _ _ _ H3 Hw))).
  rewrite (bind_returns _ _ _ _ _
             (drain_bucket_writable Failed _ (settled_writable _ _ _ _ H4 Hw))).
  reflexivity.
Qed.

Lemma flush_all_empty w :
  (nonempty (working_http (self w)) || nonempty (working_https (self w))
   || nonempty (working_socks4 (self w)) || nonempty (working_socks5 (self w))
   || nonempty (failed_proxies (self w))) = false ->
  flush_all w = w.
Proof.
  intros H. repeat (apply orb_false_elim in H; destruct H as [H ?]).
  unfold flush_all, flush_ok. cbn.
  repeat match goal with E : nonempty _ = false |- _ => rewrite E; clear E end.
  reflexivity.
Qed.

(** The final save on a disk that cooperates. *)
Lemma save_results_writable w :
  writable w ->
  save_results w =
  (Returns tt,
   with_console (console (flush_all w) ++ [MsgAllSaved (timestamp (self w))]) (flush_all w)).
Proof.
  intros Hw. unfold save_results.
  rewrite (bind_returns get_self _ w (self w) w eq_refl).
  destruct (_ || _) eqn:Hany; cbn [when].
  - pose proof (settled_start false w) as H0.
    pose proof (settled_flush _ Http _ _ H0 eq_refl) as H1.
    pose proof (settled_flush _ Https _ _ H1 eq_refl) as H2.
    pose proof (settled_flush _ Socks4 _ _ H2 eq_refl) as H3.
    pose proof (settled_flush _ Socks5 _ _ H3 eq_refl) as H4.
    erewrite bind_returns; [reflexivity|].
    rewrite (bind_returns _ _ _ _ _ (flush_bucket_writable Http _ Hw)).
    rewrite (bind_returns _ _ _ _ _
               (flush_bucket_writable Https _ (settled_writable _ _ _ _ H1 Hw))).
    rewrite (bind_returns _ _ _ _ _
               (flush_bucket_writable Socks4 _ (settled_writable _ _ _ _ H2 Hw))).
    rewrite (bind_returns _ _ _ _ _
               (flush_bucket_writable Socks5 _ (settled_writable _ _ _ _ H3 Hw))).
    exact (flush_bucket_writable Failed _ (settled_writable _ _ _ _ H4 Hw)).
  - rewrite (flush_all_empty w Hany). reflexivity.
Qed.

(** ** Loading, and the whole run *)

Lemma load_proxies_readable path f w :
  path ∉ denied w -> disk w !! path = Some f ->
  load_proxies path w = (Returns (candidates f), loaded path f w).
Proof.
  intros Hd Hf. unfold load_proxies, try_except, read_lines, mbind, M_bind.
  destruct (decide _) as [Hin|_]; [destruct (Hd Hin)|]. rewrite Hf. cbn.
  unfold loaded, candidates. destruct (0 <? _); reflexivity.
Qed.

(** When the file cannot be read, nothing is loaded and only the console
    changes. *)
Lemma load_proxies_unreadable path w :
  path ∈ denied w \/ disk w !! path = None ->
  exists msg, load_proxies path w = (Returns [], with_console (console w ++ [msg]) w).
Proof.
  intros H. unfold load_proxies, try_except, read_lines, mbind, M_bind.
  destruct (decide _) as [Hin|Hout].
  - exists (MsgErrorLoading OSError). reflexivity.
  - destruct H as [H|H]; [destruct (Hout H)|]. rewrite H.
    exists (MsgFileNotFound path). reflexivity.
Qed.

Lemma nonempty_true {A} (l : list A) : l <> [] -> nonempty l = true.
Proof. destruct l; [congruence|reflexivity]. Qed.

Lemma run_check_readable order d path f w :
  path ∉ denied w -> disk w !! path = Some f -> candidates f <> [] ->
  0 < max_workers (self w) ->
  run_check order d path w = display_results d (checked_all order path f w).
Proof.
  intros Hd Hf Hne Hpool. unfold run_check.
  rewrite (bind_returns _ _ _ _ _ (load_proxies_readable path f w Hd Hf)).
  rewrite (nonempty_true _ Hne).
  rewrite (bind_returns get_self _ _ (self (loaded path f w)) (loaded path f w) eq_refl).
  erewrite (bind_returns (print _)); [|reflexivity].
  change (max_workers (self (loaded path f w))) with (max_workers (self w)).
  erewrite (bind_returns (executor _));
    [|unfold executor; destruct (max_workers (self w) <=? 0) eqn:Hle; [lia|reflexivity]].
  unfold checked_all.
  change (with_console _ (loaded path f w)) with (started path f w).
  change (max_workers (self (loaded path f w))) with (max_workers (self w)).
  destruct (for_each_await (order (max_workers (self w)) (candidates f)) (started path f w))
    as [Hr _].
  destruct (for_each _ _ _) as [[[]|e] w2] eqn:Hloop; cbn in Hr; [|discriminate Hr].
  rewrite (bind_returns _ _ _ _ _ Hloop). reflexivity.
Qed.

Lemma run_check_nothing order d path f w :
  path ∉ denied w -> disk w !! path = Some f -> candidates f = [] ->
  run_check order d path w = (Returns tt, loaded path f w).
Proof.
  intros Hd Hf He. unfold run_check.
  rewrite (bind_returns _ _ _ _ _ (load_proxies_readable path f w Hd Hf)).
  rewrite He. reflexivity.
Qed.

Lemma display_results_eq d w :
  total_proxies (self w) <> 0 ->
  display_results d w = save_results (displayed d w).
Proof.
  intros Hn. unfold display_results.
  rewrite (bind_returns get_self _ w (self w) w eq_refl).
  erewrite (bind_returns (print _)); [|reflexivity].
  erewrite (bind_returns (print _)); [|reflexivity].
  destruct (total_proxies (self w) =? 0) eqn:Hz; [lia|].
  erewrite (bind_returns (print _)); [|reflexivity].
  erewrite (bind_returns (print _)); [|reflexivity].
  erewrite (bind_returns (print _)); [|reflexivity].
  reflexivity.
Qed.

Lemma count_perm n t c l k : l ≡ₚ k -> count n t c l = count n t c k.
Proof. intros H. unfold count, len. now rewrite H. Qed.

Lemma count_le n t c l : 0 <= count n t c l <= len l.
Proof.
  unfold count, len. pose proof (length_filter (placed n t c) l). lia.
Qed.

(** The state in which the summary is computed, for a fresh checker: the
    counter equals the number of candidates, and each cumulative total
    plus the length of the list in memory equals the number of candidates
    placed in the category. *)
Lemma checked_all_spec order path f w :
  fresh w -> (forall W l, order W l ≡ₚ l) ->
  let w2 := checked_all order path f w in
  let n := net w in
  let t := timeout (self w) in
  timestamp (self w2) = timestamp (self w)
  /\ denied w2 = denied w
  /\ total_proxies (self w2) = len (candidates f)
  /\ checked_proxies (self w2) = len (candidates f)
  /\ forall c,
       history c w2 = filter (placed n t c) (order (max_workers (self w)) (candidates f))
       /\ total c (self w2) + len (bucket c (self w2)) = count n t c (candidates f)
       /\ 0 <= total c (self w2).
Proof.
  intros (Hc & Hl & Hper) Hord w2 n t.
  destruct (for_each_await (order (max_workers (self w)) (candidates f)) (started path f w))
    as [_ (Hf & Hck & _ & Hadv)].
  fold (checked_all order path f w) in Hf, Hck, Hadv. fold w2 in Hf, Hck, Hadv.
  unfold frame in Hf. injection Hf as Hts _ _ Htp _ Hden _.
  split; [exact Hts|]. split; [exact Hden|]. split; [exact Htp|].
  split.
  { rewrite Hck. cbn. rewrite Hc. unfold len. rewrite (Hord _ _). lia. }
  intros c. destruct (Hadv c) as (Hh & Ht & Hm). destruct (Hper c) as (Hb & Htot & Hfl).
  change (net (started path f w)) with n in Hh, Ht.
  change (timeout (self (started path f w))) with t in Hh, Ht.
  change (history c (started path f w)) with (history c w) in Hh.
  change (total c (self (started path f w))) with (total c (self w)) in Ht, Hm.
  change (bucket c (self (started path f w))) with (bucket c (self w)) in Ht.
  unfold history in Hh at 2. rewrite Hfl, Hb in Hh. rewrite Hb, Htot in Ht. rewrite Htot in Hm.
  split; [exact Hh|]. split; [|exact Hm].
  rewrite Ht. unfold len at 1. cbn. fold (count n t c (order (max_workers (self w)) (candidates f))).
  now rewrite (count_perm _ _ _ _ _ (Hord _ _)).
Qed.

Lemma writable_same w w' :
  timestamp (self w') = timestamp (self w) -> denied w' = denied w ->
  writable w -> writable w'.
Proof.
  intros Hts Hd Hw c. rewrite (file_names_timestamp _ _ c Hts), Hd. apply Hw.
Qed.

Lemma candidates_len_pos f : candidates f <> [] -> len (candidates f) <> 0.
Proof. unfold len. destruct (candidates f); [congruence|cbn; lia]. Qed.

(** The end of a run on a disk that cooperates, for a fresh checker: the
    run returns, every candidate was counted, and each output file holds
    the candidates placed in its category, as many as the cumulative total
    says. *)
Lemma run_check_final order d path f w :
  fresh w -> writable w -> path ∉ denied w -> disk w !! path = Some f ->
  0 < max_workers (self w) ->
  (forall W l, order W l ≡ₚ l) ->
  let w' := (run_check order d path w).2 in
  let n := net w in
  let t := timeout (self w) in
  (run_check order d path w).1 = Returns tt
  /\ checked_proxies (self w') = len (candidates f)
  /\ forall c,
       len (file_lines c w') = count n t c (candidates f)
       /\ total c (self w') = count n t c (candidates f).
Proof.
  intros Hfr Hw Hd Hf Hpool Hord w' n t. subst w'.
  destruct (decide (candidates f = [])) as [He|Hne].
  - rewrite (run_check_nothing order d path f w Hd Hf He).
    destruct Hfr as (Hc & _ & Hper). cbn.
    split; [reflexivity|]. split; [now rewrite Hc, He|].
    intros c. destruct (Hper c) as (_ & Ht & Hfl).
    change (file_lines c (loaded path f w)) with (file_lines c w).
    rewrite Hfl, He. split; [reflexivity|].
    destruct c; cbn in *; exact Ht.
  - rewrite (run_check_readable order d path f w Hd Hf Hne Hpool).
    destruct (checked_all_spec order path f w Hfr Hord) as (Hts & Hden & Htp & Hck & Hper).
    set (w2 := checked_all order path f w) in *.
    rewrite display_results_eq; [|rewrite Htp; now apply candidates_len_pos].
    assert (Hw2 : writable (displayed d w2)) by exact (writable_same w _ Hts Hden Hw).
    rewrite (save_results_writable _ Hw2). cbn [fst snd].
    destruct (settled_flush_all (displayed d w2)) as (_ & Hc' & _ & Hs).
    split; [reflexivity|]. split.
    { change (checked_proxies (self (flush_all (displayed d w2))) = len (candidates f)).
      rewrite Hc'. exact Hck. }
    intros c. destruct (Hs c) as (H1 & _ & H3). destruct (Hper c) as (Hh & Ht & _).
    rewrite everything_true in H1, H3.
    change (history c (displayed d w2)) with (history c w2) in H1.
    change (total c (self (displayed d w2))) with (total c (self w2)) in H3.
    change (bucket c (self (displayed d w2))) with (bucket c (self w2)) in H3.
    split.
    + change (len (file_lines c (flush_all (displayed d w2))) = count n t c (candidates f)).
      rewrite H1, Hh. fold (count n t c (order (max_workers (self w)) (candidates f))).
      apply count_perm, Hord.
    + change (total c (self (flush_all (displayed d w2))) = count n t c (candidates f)).
      rewrite H3. exact Ht.
Qed.

(** ** Checkpoint conservation *)

Lemma count_cons n t c p l :
  count n t c (p :: l) = Z.b2z (placed n t c p) + count n t c l.
Proof.
  unfold count, len. rewrite filter_cons.
  destruct (placed n t c p); cbn [Z.b2z]; [|rewrite decide_False by auto; lia].
  rewrite decide_True by exact I. cbn. lia.
Qed.

Lemma memberships_categories n t p :
  memberships n t p
  = Z.b2z (placed n t Http p) + Z.b2z (placed n t Https p) + Z.b2z (placed n t Socks4 p)
    + Z.b2z (placed n t Socks5 p) + Z.b2z (placed n t Failed p).
Proof.
  unfold memberships, placed, flag.
  destruct (http _), (https _), (socks4 _), (socks5 _); reflexivity.
Qed.

Lemma memberships_pos n t p : 1 <= memberships n t p.
Proof. unfold memberships. lia. Qed.

Lemma count_sum n t l :
  count n t Http l + count n t Https l + count n t Socks4 l + count n t Socks5 l
  + count n t Failed l = total_memberships n t l.
Proof.
  induction l as [|p l IH]; [reflexivity|].
  rewrite !count_cons. cbn [total_memberships foldr].
  fold (total_memberships n t l). rewrite memberships_categories. lia.
Qed.

Lemma total_memberships_ge n t l : len l <= total_memberships n t l.
Proof.
  induction l as [|p l IH]; [reflexivity|].
  cbn [total_memberships foldr]. fold (total_memberships n t l).
  pose proof (memberships_pos n t p). unfold len in *. cbn [length]. lia.
Qed.

(** ** The sample worlds *)

Lemma demo_order_perm W l : demo_order W l ≡ₚ l.
Proof. unfold demo_order. destruct (W =? 1); [reflexivity|apply reverse_Permutation]. Qed.

Lemma demo_world_fresh W : fresh (demo_world W).
Proof.
  split; [reflexivity|]. split; [reflexivity|].
  intros c; destruct c; repeat split; vm_compute; reflexivity.
Qed.

Lemma demo_world_writable W : writable (demo_world W).
Proof. intros c. cbn. apply not_elem_of_empty. Qed.

(** * The properties *)

(** C1 (as the code has it). At the end of a run of a fresh checker with
    a pool of at least one worker, on a disk that accepts every write,
    and for any checkpoint interval, the number of lines written to the
    five output files over all checkpoint drains and the final drain
    equals the number of bucket memberships of the candidates: for each
    candidate the number of its true flags, or one when no flag is true.
    [checked_proxies] is the number of candidates, so the lines written
    are at least [checked_proxies]. *)
Theorem checkpoint_conservation order d path f w :
  fresh w -> writable w -> path ∉ denied w -> disk w !! path = Some f ->
  0 < max_workers (self w) ->
  (forall W l, order W l ≡ₚ l) ->
  let w' := (run_check order d path w).2 in
  lines_written w' = total_memberships (net w) (timeout (self w)) (candidates f)
  /\ checked_proxies (self w') = len (candidates f)
  /\ checked_proxies (self w') <= lines_written w'.
Proof.
  intros Hfr Hw Hd Hf Hpool Hord w'.
  destruct (run_check_final order d path f w Hfr Hw Hd Hf Hpool Hord) as (_ & Hck & Hper).
  fold w' in Hck, Hper.
  assert (Hsum : lines_written w'
                 = total_memberships (net w) (timeout (self w)) (candidates f)).
  { unfold lines_written. rewrite <- count_sum.
    destruct (Hper Http) as [-> _]. destruct (Hper Https) as [-> _].
    destruct (Hper Socks4) as [-> _]. destruct (Hper Socks5) as [-> _].
    destruct (Hper Failed) as [-> _]. reflexivity. }
  split; [exact Hsum|]. split; [exact Hck|].
  rewrite Hsum, Hck. apply total_memberships_ge.
Qed.

Lemma checkpoint_conservation_witness :
  let w' := (run_check demo_order 1 "proxy_list.txt" (demo_world 50)).2 in
  0 < max_workers (self (demo_world 50))
  /\ lines_written w'
  = total_memberships (net (demo_world 50)) (timeout (self (demo_world 50)))
      (candidates demo_file)
  /\ checked_proxies (self w') = len (candidates demo_file)
  /\ checked_proxies (self w') <= lines_written w'.
Proof.
  split; [reflexivity|].
  apply (checkpoint_conservation demo_order 1 "proxy_list.txt" demo_file (demo_world 50)).
  - apply demo_world_fresh.
  - apply demo_world_writable.
  - apply not_elem_of_empty.
  - reflexivity.
  - reflexivity.
  - apply demo_order_perm.
Defined.

(** C1 as stated fails: two candidates, one of which answers both as an
    HTTP and as an HTTPS proxy, give three lines in the output files for
    a counter of two, with the default interval of 500. *)
Lemma checkpoint_conservation_counterexample :
  let w' := (run_check demo_order 1 "proxy_list.txt" (demo_world 50)).2 in
  1 <= save_interval (self (demo_world 50))
  /\ lines_written w' = 3
  /\ checked_proxies (self w') = 2
  /\ lines_written w' <> checked_proxies (self w').
Proof. vm_compute. repeat split; congruence. Qed.

(** ** Cumulative totals *)

(** The loop over a list is the loop over a prefix followed by the loop
    over the rest: the world after the prefix is a point of the run. *)
Lemma for_each_app {A} (l k : list A) body w :
  for_each (l ++ k) body w = (for_each l body;; for_each k body) w.
Proof.
  revert w. induction l as [|x l IH]; intros w; cbn [for_each app].
  - reflexivity.
  - unfold mbind, M_bind. destruct (body x w) as [[[]|e] w1]; [apply IH|reflexivity].
Qed.




(** C5. The code at an input where it breaks the claim: a run over two
    candidates with the default interval, one of which is placed in the
    HTTP category. Before the final save the cumulative total plus the
    length of the list is one, as the claim says, and a checkpoint drain
    at that point keeps the sum at one, since it clears the list; the
    final save adds the length to the total and leaves the list as it
    is, so that at the end of the run the sum is two. *)
Lemma final_drain_keeps_the_lists :
  let w := demo_world 50 in
  let before := checked_all demo_order "proxy_list.txt" demo_file w in
  let drained := (save_intermediate_results before).2 in
  let w' := (run_check demo_order 1 "proxy_list.txt" w).2 in
  count (net w) (timeout (self w)) Http (candidates demo_file) = 1
  /\ total Http (self before) + len (bucket Http (self before)) = 1
  /\ total Http (self drained) + len (bucket Http (self drained)) = 1
  /\ bucket Http (self drained) = []
  /\ total Http (self w') = 1
  /\ bucket Http (self w') = ["1.2.3.4:8080"]
  /\ total Http (self w') + len (bucket Http (self w')) = 2.
Proof. vm_compute. repeat split. Qed.

(** ** Independence of the pool size *)

(** C8. Two runs of fresh checkers over the same file, on the same network
    and with the same time limit, on disks that accept every write, end
    with the same cumulative totals and the same counter, whatever the
    sizes of their pools, of one worker or more, and the orders in which
    their pools complete the candidates. *)
Theorem pool_size_irrelevant order1 order2 d1 d2 path1 path2 f w1 w2 :
  fresh w1 -> fresh w2 -> writable w1 -> writable w2 ->
  path1 ∉ denied w1 -> path2 ∉ denied w2 ->
  disk w1 !! path1 = Some f -> disk w2 !! path2 = Some f ->
  net w1 = net w2 -> timeout (self w1) = timeout (self w2) ->
  0 < max_workers (self w1) -> 0 < max_workers (self w2) ->
  (forall W l, order1 W l ≡ₚ l) -> (forall W l, order2 W l ≡ₚ l) ->
  let end1 := (run_check order1 d1 path1 w1).2 in
  let end2 := (run_check order2 d2 path2 w2).2 in
  checked_proxies (self end1) = checked_proxies (self end2)
  /\ forall c, total c (self end1) = total c (self end2).
Proof.
  intros Hf1 Hf2 Hw1 Hw2 Hd1 Hd2 Hl1 Hl2 Hn Ht Hp1' Hp2' Ho1 Ho2 end1 end2.
  destruct (run_check_final order1 d1 path1 f w1 Hf1 Hw1 Hd1 Hl1 Hp1' Ho1) as (_ & Hc1 & Hp1).
  destruct (run_check_final order2 d2 path2 f w2 Hf2 Hw2 Hd2 Hl2 Hp2' Ho2) as (_ & Hc2 & Hp2).
  fold end1 in Hc1, Hp1. fold end2 in Hc2, Hp2.
  split; [congruence|]. intros c.
  rewrite (proj2 (Hp1 c)), (proj2 (Hp2 c)), Hn, Ht. reflexivity.
Qed.

Lemma pool_size_irrelevant_witness :
  let end1 := (run_check demo_order 1 "proxy_list.txt" (demo_world 1)).2 in
  let end2 := (run_check demo_order 2 "proxy_list.txt" (demo_world 100)).2 in
  0 < max_workers (self (demo_world 1))
  /\ 0 < max_workers (self (demo_world 100))
  /\ demo_order 1 (candidates demo_file) <> demo_order 100 (candidates demo_file)
  /\ checked_proxies (self end1) = checked_proxies (self end2)
  /\ forall c, total c (self end1) = total c (self end2).
Proof.
  split; [reflexivity|]. split; [reflexivity|]. split; [vm_compute; discriminate|].
  apply (pool_size_irrelevant demo_order demo_order 1 2 "proxy_list.txt" "proxy_list.txt"
           demo_file (demo_world 1) (demo_world 100)).
  - apply demo_world_fresh.
  - apply demo_world_fresh.
  - apply demo_world_writable.
  - apply demo_world_writable.
  - apply not_elem_of_empty.
  - apply not_elem_of_empty.
  - reflexivity.
  - reflexivity.
  - reflexivity.
  - reflexivity.
  - reflexivity.
  - reflexivity.
  - apply demo_order_perm.
  - apply demo_order_perm.
Defined.

(** ** The success rate *)

Lemma percent_bounds (a b : Z) :
  0 <= a <= b -> 0 < b -> (0 <= inject_Z a / inject_Z b * 100 <= 100)%Q.
Proof.
  intros Hab Hb. destruct b as [|pb|pb]; try lia.
  unfold Qle, Qdiv, Qmult, Qinv, inject_Z; cbn.
  split; nia.
Qed.

Lemma success_rate_range s :
  0 < total_proxies s ->
  (forall c, 0 <= total c s) ->
  total_failed_proxies s <= total_proxies s ->
  (0 <= success_rate s <= 100)%Q.
Proof.
  intros Hp Hnn Hf. unfold success_rate.
  pose proof (Hnn Http). pose proof (Hnn Https). pose proof (Hnn Socks4).
  pose proof (Hnn Socks5). pose proof (Hnn Failed). cbn [total] in *.
  destruct (_ <=? _) eqn:Hle.
  - apply percent_bounds; lia.
  - apply percent_bounds; lia.
Qed.

(** C10. In a run of a fresh checker with a pool of at least one worker
    over a file with at least one candidate, the summary is computed in a
    state where the failed total lies between zero and the number of
    tested proxies, and the success rate it prints lies between 0 and
    100, whether it is computed from the sum of the four working totals
    or, when that sum exceeds the number of tested proxies, from the
    number of tested proxies less the failed total. This holds whatever
    the disk does. *)
Theorem success_rate_bounds order d path f w :
  fresh w -> path ∉ denied w -> disk w !! path = Some f ->
  0 < max_workers (self w) ->
  (forall W l, order W l ≡ₚ l) -> candidates f <> [] ->
  let w2 := checked_all order path f w in
  let s := self w2 in
  run_check order d path w = save_results (displayed d w2)
  /\ last (console (displayed d w2)) = Some (MsgSuccessRate (success_rate s))
  /\ 0 <= total_failed_proxies s <= total_proxies s
  /\ (0 <= success_rate s <= 100)%Q
  /\ (total_proxies s
        < total_working_http s + total_working_https s
          + total_working_socks4 s + total_working_socks5 s ->
      success_rate s
      = (inject_Z (total_proxies s - total_failed_proxies s)
         / inject_Z (total_proxies s) * 100)%Q).
Proof.
  intros Hfr Hd Hf Hpool Hord Hne w2 s. subst s.
  destruct (checked_all_spec order path f w Hfr Hord) as (_ & _ & Htp & _ & Hper).
  fold w2 in Htp, Hper.
  pose proof (candidates_len_pos f Hne) as Hpos.
  pose proof (len_nonneg (candidates f)) as Hnn.
  assert (Hfail : 0 <= total_failed_proxies (self w2) <= total_proxies (self w2)).
  { destruct (Hper Failed) as (_ & Ht & H0). cbn [total bucket] in Ht, H0.
    pose proof (count_le (net w) (timeout (self w)) Failed (candidates f)).
    pose proof (len_nonneg (failed_proxies (self w2))). lia. }
  split.
  { rewrite (run_check_readable order d path f w Hd Hf Hne Hpool). fold w2.
    apply display_results_eq. lia. }
  split; [unfold displayed; cbn; apply last_snoc|].
  split; [exact Hfail|].
  split.
  { apply success_rate_range; [lia| |lia].
    intros c. exact (proj2 (proj2 (Hper c))). }
  intros Hmore. unfold success_rate. destruct (_ <=? _) eqn:Hle; [lia|reflexivity].
Qed.

Lemma eager_world_fresh : fresh eager_world.
Proof.
  split; [reflexivity|]. split; [reflexivity|].
  intros c; destruct c; repeat split; vm_compute; reflexivity.
Qed.

(** The sample run with a checkpoint after every candidate: the one
    candidate counts for two protocols, the sum of the working totals is
    two for one tested proxy, and the rate comes from the second
    expression. *)
Lemma success_rate_bounds_witness :
  let w2 := checked_all demo_order "proxy_list.txt" ["1.2.3.4:8080"] eager_world in
  let s := self w2 in
  0 < max_workers (self eager_world)
  /\ total_proxies s = 1
  /\ total_working_http s + total_working_https s
     + total_working_socks4 s + total_working_socks5 s = 2
  /\ run_check demo_order 1 "proxy_list.txt" eager_world = save_results (displayed 1 w2)
  /\ last (console (displayed 1 w2)) = Some (MsgSuccessRate (success_rate s))
  /\ 0 <= total_failed_proxies s <= total_proxies s
  /\ (0 <= success_rate s <= 100)%Q
  /\ (total_proxies s
        < total_working_http s + total_working_https s
          + total_working_socks4 s + total_working_socks5 s ->
      success_rate s
      = (inject_Z (total_proxies s - total_failed_proxies s)
         / inject_Z (total_proxies s) * 100)%Q).
Proof.
  split; [reflexivity|]. split; [vm_compute; reflexivity|]. split; [vm_compute; reflexivity|].
  apply (success_rate_bounds demo_order 1 "proxy_list.txt" ["1.2.3.4:8080"] eager_world).
  - apply eager_world_fresh.
  - apply not_elem_of_empty.
  - reflexivity.
  - reflexivity.
  - apply demo_order_perm.
  - vm_compute. discriminate.
Defined.

(** ** Classification *)

Lemma check_proxy_history p w c :
  history c (check_proxy p w).2
  = history c w ++ (if flag c (answers (net w) (timeout (self w)) p) then [p] else []).
Proof.
  destruct (check_proxy_advances p w) as [(_ & _ & _ & Hadv) _].
  destruct (Hadv c) as (Hh & _ & _). rewrite Hh, filter_one. reflexivity.
Qed.

Lemma filed_flag p w c :
  filed c p w (check_proxy p w).2 <-> flag c (answers (net w) (timeout (self w)) p) = true.
Proof.
  unfold filed. rewrite check_proxy_history.
  destruct (flag c _); split; intros H; try reflexivity; try discriminate H.
  apply app_inv_head in H. discriminate H.
Qed.

(** The first part of the locked block by itself: each list either gains
    the candidate at its end or stays as it is, and the failed list gains
    it exactly when no working list does. *)
Lemma record_outcome_buckets r w c :
  bucket c (self (record_outcome r w).2)
  = bucket c (self w) ++ (if flag c r then [proxy r] else [])
  /\ flag Failed r = negb (flag Http r || flag Https r || flag Socks4 r || flag Socks5 r).
Proof.
  destruct (record_outcome_eq r w) as (_ & _ & _ & _ & _ & _ & _ & Hb).
  split; [exact (proj1 (Hb c))|reflexivity].
Qed.

(** C2. For every candidate that [check_proxy] records, exactly one of
    the two holds: it was appended to at least one of the four working
    lists, or it was appended to the failed list; and each list either
    gained the candidate or did not change. *)
Theorem classification_complete p w :
  let w' := (check_proxy p w).2 in
  let in_working :=
    filed Http p w w' \/ filed Https p w w' \/ filed Socks4 p w w' \/ filed Socks5 p w w' in
  let in_failed := filed Failed p w w' in
  (in_working \/ in_failed)
  /\ ~ (in_working /\ in_failed)
  /\ forall c, filed c p w w' \/ history c w' = history c w.
Proof.
  intros w' in_working in_failed. subst w' in_working in_failed.
  rewrite !filed_flag. unfold flag.
  split; [|split].
  - destruct (http _), (https _), (socks4 _), (socks5 _); cbn; auto.
  - destruct (http _), (https _), (socks4 _), (socks5 _); cbn;
      intros [Hw Hf]; try discriminate Hf.
    destruct Hw as [Hw|[Hw|[Hw|Hw]]]; discriminate Hw.
  - intros c. unfold filed. rewrite check_proxy_history.
    destruct (flag c _); [now left|right]. now rewrite app_nil_r.
Qed.

(** C3. [check_proxy] calls the four probes, in order, whatever they
    answer; each flag of the outcome is what the probe of that protocol
    returns; and the candidate is appended to the list of every category
    whose flag is true, each category being decided by its own flag. *)
Theorem probes_unconditional p w :
  let r := answers (net w) (timeout (self w)) p in
  let w' := (check_proxy p w).2 in
  calls w' = calls w ++ [(Http, p); (Https, p); (Socks4, p); (Socks5, p)]
  /\ (test_http_proxy p w).1 = Returns (http r)
  /\ (test_https_proxy p w).1 = Returns (https r)
  /\ (test_socks4_proxy p w).1 = Returns (socks4 r)
  /\ (test_socks5_proxy p w).1 = Returns (socks5 r)
  /\ forall c, history c w' = history c w ++ (if flag c r then [p] else []).
Proof.
  intros r w'. subst r w'.
  split.
  { destruct (check_proxy_advances p w) as [(_ & _ & Hk & _) _]. rewrite Hk. reflexivity. }
  rewrite test_http_proxy_eq, test_https_proxy_eq, test_socks4_proxy_eq, test_socks5_proxy_eq.
  repeat (split; [reflexivity|]).
  intros c. apply check_proxy_history.
Qed.

(** The probes on the sample network: a status other than 200, an
    exception, a malformed endpoint and a completed SOCKS session. *)
Example probe_scenarios :
  let w := demo_world 50 in
  (test_http_proxy "7.7.7.7:80" w).1 = Returns false
  /\ (test_http_proxy "5.6.7.8:3128" w).1 = Returns false
  /\ (test_socks4_proxy "no-port" w).1 = Returns false
  /\ (test_socks5_proxy "9.9.9.9:x" w).1 = Returns false
  /\ (test_socks4_proxy "9.9.9.9:1080" w).1 = Returns true
  /\ (test_socks5_proxy "9.9.9.9: 1080 " w).1 = Returns true.
Proof. vm_compute. repeat split. Qed.

(** A candidate with two true flags lands in two working lists at once. *)
Example two_working_lists :
  let w' := (check_proxy "1.2.3.4:8080" (demo_world 50)).2 in
  working_http (self w') = ["1.2.3.4:8080"]
  /\ working_https (self w') = ["1.2.3.4:8080"]
  /\ failed_proxies (self w') = [].
Proof. vm_compute. repeat split. Qed.

(** ** The probes *)

(** C4. Each probe returns a boolean and never raises. The HTTP and HTTPS
    probes return true exactly when [requests.get] answers with status
    200; the SOCKS probes return true exactly when the candidate splits at
    its only colon into a host and a port that [int] accepts, and the
    session through that proxy completes. Whatever exception the request,
    the parsing or the session raises, the answer is false. *)
Theorem probes_absorb_failures p w :
  let t := timeout (self w) in
  (exists b, (test_http_proxy p w).1 = Returns b
     /\ (b = true <->
         requests_get (net w) test_url ("http://" +:+ p) ("http://" +:+ p) t = Returns 200))
  /\ (exists b, (test_https_proxy p w).1 = Returns b
     /\ (b = true <->
         requests_get (net w) test_url_https ("https://" +:+ p) ("https://" +:+ p) t
         = Returns 200))
  /\ (exists b, (test_socks4_proxy p w).1 = Returns b
     /\ (b = true <->
         exists ip port k, Py.split ":" p = [ip; port] /\ Py.int port = Some k
                           /\ socks_session (net w) SOCKS4 ip k t = Returns tt))
  /\ (exists b, (test_socks5_proxy p w).1 = Returns b
     /\ (b = true <->
         exists ip port k, Py.split ":" p = [ip; port] /\ Py.int port = Some k
                           /\ socks_session (net w) SOCKS5 ip k t = Returns tt)).
Proof.
  intros t. subst t.
  assert (Hstatus : forall r : outcome Z, status_ok r = true <-> r = Returns 200).
  { intros [z|e]; cbn; [|split; discriminate].
    rewrite Z.eqb_eq. split; [now intros ->|now intros [= ->]]. }
  assert (Hsession : forall v,
    session_ok (net w) (timeout (self w)) v p = true <->
    exists ip port k, Py.split ":" p = [ip; port] /\ Py.int port = Some k
                      /\ socks_session (net w) v ip k (timeout (self w)) = Returns tt).
  { intros v. unfold session_ok. split.
    - destruct (Py.split ":" p) as [|ip [|port [|? ?]]]; try discriminate.
      destruct (Py.int port) as [k|] eqn:Hk; [|discriminate].
      destruct (socks_session _ _ _ _ _) as [[]|e] eqn:Hs; [|discriminate].
      intros _. exists ip, port, k. auto.
    - intros (ip & port & k & -> & -> & ->). reflexivity. }
  split; [|split; [|split]].
  - rewrite test_http_proxy_eq. eexists; split; [reflexivity|]. apply Hstatus.
  - rewrite test_https_proxy_eq. eexists; split; [reflexivity|]. apply Hstatus.
  - rewrite test_socks4_proxy_eq. eexists; split; [reflexivity|]. apply Hsession.
  - rewrite test_socks5_proxy_eq. eexists; split; [reflexivity|]. apply Hsession.
Qed.

(** ** Write failures *)






(** *** A save that meets a file it cannot open *)












(** ** Loading *)

Lemma all_lines_of_trimmed f :
  all_lines_of f = filter (fun x => x <> EmptyString) (Py.strip <$> f).
Proof.
  unfold all_lines_of. induction f as [|line f IH]; [reflexivity|].
  rewrite fmap_cons, !filter_cons.
  destruct (Py.strip line) eqn:Hs; cbn [Py.truthy].
  - rewrite decide_False by auto. rewrite decide_False by congruence. exact IH.
  - rewrite decide_True by exact I. rewrite decide_True by congruence.
    rewrite fmap_cons, Hs, IH. reflexivity.
Qed.

Lemma candidates_distinct f : candidates f ≡ₚ distinct_trimmed f.
Proof.
  unfold candidates, distinct_trimmed. rewrite <- all_lines_of_trimmed.
  apply NoDup_Permutation.
  - apply NoDup_elements.
  - apply NoDup_remove_dups.
  - intros x. rewrite elem_of_elements, elem_of_list_to_set, elem_of_remove_dups.
    reflexivity.
Qed.

Lemma remove_dups_shorter (l : list string) :
  (length (remove_dups l) <= length l)%nat.
Proof.
  induction l as [|x l IH]; [reflexivity|]. cbn.
  destruct (decide_rel _ x l); cbn; lia.
Qed.

Lemma candidates_at_most f : len (candidates f) <= len (all_lines_of f).
Proof.
  unfold len. rewrite (candidates_distinct f). unfold distinct_trimmed.
  rewrite <- all_lines_of_trimmed.
  pose proof (remove_dups_shorter (all_lines_of f)). lia.
Qed.

(** C7. Loading a readable file returns a duplicate-free list with
    exactly the distinct strings obtained by trimming each line and
    dropping the empty results, so its size is their number; the counts it
    reports are the number of non-empty trimmed lines, the number of
    candidates, and their difference, which is not negative. *)
Theorem load_deduplicates path f w :
  path ∉ denied w -> disk w !! path = Some f ->
  let original := len (filter (fun x => x <> EmptyString) (Py.strip <$> f)) in
  let unique := len (distinct_trimmed f) in
  let removed := original - unique in
  load_proxies path w = (Returns (candidates f), loaded path f w)
  /\ NoDup (candidates f)
  /\ candidates f ≡ₚ distinct_trimmed f
  /\ length (candidates f) = length (distinct_trimmed f)
  /\ total_proxies (self (loaded path f w)) = unique
  /\ console (loaded path f w)
     = console w ++ [MsgLoaded original path;
                     if 0 <? removed then MsgRemoved removed unique
                     else MsgNoDuplicates unique]
  /\ 0 <= removed.
Proof.
  intros Hd Hf original unique removed.
  assert (Hlen : length (candidates f) = length (distinct_trimmed f)).
  { now rewrite (candidates_distinct f). }
  assert (Hu : len (candidates f) = unique).
  { unfold unique, len. now rewrite Hlen. }
  assert (Ho : len (all_lines_of f) = original).
  { unfold original. now rewrite all_lines_of_trimmed. }
  split; [exact (load_proxies_readable path f w Hd Hf)|].
  split; [unfold candidates; apply NoDup_elements|].
  split; [apply candidates_distinct|].
  split; [exact Hlen|].
  split; [exact Hu|].
  split.
  { unfold loaded. cbn [console with_console with_self]. rewrite Hu, Ho.
    rewrite <- app_assoc. reflexivity. }
  pose proof (candidates_at_most f). unfold removed. lia.
Qed.

Lemma load_deduplicates_witness :
  let w := demo_world 50 in
  let f := demo_file in
  let original := len (filter (fun x => x <> EmptyString) (Py.strip <$> f)) in
  let unique := len (distinct_trimmed f) in
  let removed := original - unique in
  load_proxies "proxy_list.txt" w = (Returns (candidates f), loaded "proxy_list.txt" f w)
  /\ NoDup (candidates f)
  /\ candidates f ≡ₚ distinct_trimmed f
  /\ length (candidates f) = length (distinct_trimmed f)
  /\ total_proxies (self (loaded "proxy_list.txt" f w)) = unique
  /\ console (loaded "proxy_list.txt" f w)
     = console w ++ [MsgLoaded original "proxy_list.txt";
                     if 0 <? removed then MsgRemoved removed unique
                     else MsgNoDuplicates unique]
  /\ 0 <= removed.
Proof.
  apply (load_deduplicates "proxy_list.txt" demo_file (demo_world 50)).
  - apply not_elem_of_empty.
  - reflexivity.
Defined.

(** The design document's scenario: three lines, two of them equal. *)
Example load_scenario :
  candidates ["1.2.3.4:8080"; "1.2.3.4:8080"; "5.6.7.8:3128"] ≡ₚ ["1.2.3.4:8080"; "5.6.7.8:3128"]
  /\ len (candidates demo_file) = 2.
Proof. split; [vm_compute; apply perm_swap|reflexivity]. Qed.

(** ** Validation of endpoints *)

Lemma parts_in_range_true parts :
  Scraper.parts_in_range parts = Some true ->
  Forall (fun part => exists k, Py.int part = Some k /\ 0 <= k <= 255) parts.
Proof.
  induction parts as [|part rest IH]; cbn; intros H; [constructor|].
  destruct (Py.int part) as [k|] eqn:Hk; [|discriminate].
  destruct (0 <=? k) eqn:H0; [|discriminate]. destruct (k <=? 255) eqn:H1; [|discriminate].
  cbn in H. constructor; [|exact (IH H)]. exists k. split; [exact Hk|lia].
Qed.

(** What a string that passes [validate_proxy_format] looks like. *)
Lemma validate_proxy_format_shape p :
  Scraper.validate_proxy_format p = true ->
  exists ip port n,
    Py.split ":" p = [ip; port]
    /\ ip <> EmptyString
    /\ length (Py.split "." ip) = 4%nat
    /\ Forall (fun part => exists k, Py.int part = Some k /\ 0 <= k <= 255) (Py.split "." ip)
    /\ Py.int port = Some n
    /\ 1 <= n <= 65535.
Proof.
  unfold Scraper.validate_proxy_format.
  destruct (Py.split ":" p) as [|ip [|port [|? ?]]]; try discriminate.
  destruct (length (Py.split "." ip) =? 4)%nat eqn:Hlen; [|discriminate]. cbn [negb].
  destruct (Scraper.parts_in_range _) as [[]|] eqn:Hparts; try discriminate.
  destruct (Py.int port) as [n|] eqn:Hn; [|discriminate].
  destruct (1 <=? n) eqn:H1; [|discriminate]. destruct (n <=? 65535) eqn:H2; [|discriminate].
  intros _. exists ip, port, n. apply Nat.eqb_eq in Hlen.
  split; [reflexivity|]. split; [|split; [exact Hlen|split; [|split; [exact Hn|lia]]]].
  - intros ->. cbn in Hlen. discriminate Hlen.
  - exact (parts_in_range_true _ Hparts).
Qed.

Lemma extract_step_valid (ms : list string) (acc : gset string) :
  (forall x, x ∈ acc -> Scraper.validate_proxy_format x = true) ->
  forall x,
    x ∈ foldl (fun proxies match_ =>
                 let proxy := Py.remove_spaces match_ in
                 if Scraper.validate_proxy_format proxy then proxies ∪ {[ proxy ]}
                 else proxies) acc ms ->
    Scraper.validate_proxy_format x = true.
Proof.
  revert acc. induction ms as [|m ms IH]; intros acc Hacc x; cbn [foldl]; [apply Hacc|].
  apply IH. intros y.
  destruct (Scraper.validate_proxy_format (Py.remove_spaces m)) eqn:Hv; [|apply Hacc].
  rewrite elem_of_union, elem_of_singleton. intros [Hy| ->]; [now apply Hacc|exact Hv].
Qed.

Lemma extract_valid findall text x :
  x ∈ Scraper.extract_proxies_from_text findall text ->
  Scraper.validate_proxy_format x = true.
Proof.
  unfold Scraper.extract_proxies_from_text.
  assert (H : forall (ps : list string) (acc : gset string),
            (forall y, y ∈ acc -> Scraper.validate_proxy_format y = true) ->
            forall y,
              y ∈ foldl (fun proxies pattern =>
                           foldl (fun proxies match_ =>
                                    let proxy := Py.remove_spaces match_ in
                                    if Scraper.validate_proxy_format proxy
                                    then proxies ∪ {[ proxy ]} else proxies)
                                 proxies (findall pattern text)) acc ps ->
              Scraper.validate_proxy_format y = true).
  { induction ps as [|pat ps IH]; intros acc Hacc y; cbn [foldl]; [apply Hacc|].
    apply IH. intros z. now apply extract_step_valid. }
  apply H. intros y Hy. now apply not_elem_of_empty in Hy.
Qed.



Example extract_scenario :
  elements (Scraper.extract_proxies_from_text demo_findall "page") = ["1.2.3.4:80"].
Proof. vm_compute. reflexivity. Qed.



(** The sum of the working totals exceeds the number of tested proxies,
    and the rate falls back on the failed total. *)
Example fallback_scenario :
  let s := self (checked_all demo_order "proxy_list.txt" ["1.2.3.4:8080"] eager_world) in
  total_proxies s = 1
  /\ total_working_http s + total_working_https s
     + total_working_socks4 s + total_working_socks5 s = 2
  /\ total_failed_proxies s = 0
  /\ success_rate s = 100%Q.
Proof. vm_compute. repeat split. Qed.

(** * Further properties of the checker *)

(** ** The checkpoint *)

Lemma saved_spec w :
  frame (saved w) = frame w
  /\ checked_proxies (self (saved w)) = checked_proxies (self w)
  /\ last_save_count (self (saved w)) = checked_proxies (self w)
  /\ calls (saved w) = calls w
  /\ forall c,
       file_lines c (saved w) = history c w
       /\ bucket c (self (saved w)) = []
       /\ total c (self (saved w)) = total c (self w) + len (bucket c (self w)).
Proof.
  destruct (settled_drain_all w) as (Hf & Hc & _ & Hs).
  assert (Hk : calls (drain_all w) = calls w).
  { unfold drain_all, drain_ok.
    repeat match goal with
           | |- context [nonempty ?l] => destruct (nonempty l)
           end; reflexivity. }
  split; [exact Hf|]. split; [exact Hc|]. split; [exact Hc|]. split; [exact Hk|].
  intros c. destruct (Hs c) as (H1 & H2 & H3). rewrite everything_true in H1, H2, H3.
  cbn in H2. unfold saved, file_lines. cbn.
  split; [exact H1|]. split; destruct c; cbn in *; assumption.
Qed.

(** X1. On a disk that accepts the writes, a checkpoint drain returns,
    appends every in-memory list to its own file, adds the drained length
    to the cumulative total, empties the lists and sets [last_save_count]
    to the counter; a second drain right after it writes nothing and
    changes no total. *)
Theorem drain_then_idle w :
  writable w ->
  let w1 := (save_intermediate_results w).2 in
  let w2 := (save_intermediate_results w1).2 in
  (save_intermediate_results w).1 = Returns tt
  /\ (save_intermediate_results w1).1 = Returns tt
  /\ last_save_count (self w1) = checked_proxies (self w)
  /\ (forall c, file_lines c w1 = file_lines c w ++ bucket c (self w)
                /\ bucket c (self w1) = []
                /\ total c (self w1) = total c (self w) + len (bucket c (self w)))
  /\ disk w2 = disk w1
  /\ (forall c, bucket c (self w2) = [] /\ total c (self w2) = total c (self w1)).
Proof.
  intros Hw. cbv zeta.
  rewrite (save_intermediate_results_writable w Hw). cbn [fst snd]. fold (saved w).
  destruct (saved_spec w) as (Hf & Hc & Hl & _ & Hs).
  assert (Hw1 : writable (saved w)) by exact (writable_frame _ _ Hf Hw).
  rewrite (save_intermediate_results_writable _ Hw1). cbn [fst snd]. fold (saved (saved w)).
  destruct (saved_spec (saved w)) as (_ & _ & _ & _ & Hs').
  split; [reflexivity|]. split; [reflexivity|]. split; [exact Hl|].
  split; [intros c; exact (Hs c)|].
  assert (Hempty : drain_all (saved w) = saved w).
  { unfold drain_all, drain_ok.
    rewrite (proj1 (proj2 (Hs Http))). cbn [nonempty].
    rewrite (proj1 (proj2 (Hs Https))). cbn [nonempty].
    rewrite (proj1 (proj2 (Hs Socks4))). cbn [nonempty].
    rewrite (proj1 (proj2 (Hs Socks5))). cbn [nonempty].
    rewrite (proj1 (proj2 (Hs Failed))). reflexivity. }
  split.
  { unfold saved at 1. cbn [disk with_self with_console]. now rewrite Hempty. }
  intros c. destruct (Hs' c) as (_ & Hb & Ht). split; [exact Hb|].
  rewrite Ht, (proj1 (proj2 (Hs c))). unfold len; cbn. lia.
Qed.

Lemma drain_then_idle_witness :
  let w := (record_outcome (mkResults "1.2.3.4:8080" true true false false)
              (demo_world 50)).2 in
  let w1 := (save_intermediate_results w).2 in
  let w2 := (save_intermediate_results w1).2 in
  (save_intermediate_results w).1 = Returns tt
  /\ (save_intermediate_results w1).1 = Returns tt
  /\ last_save_count (self w1) = checked_proxies (self w)
  /\ (forall c, file_lines c w1 = file_lines c w ++ bucket c (self w)
                /\ bucket c (self w1) = []
                /\ total c (self w1) = total c (self w) + len (bucket c (self w)))
  /\ disk w2 = disk w1
  /\ (forall c, bucket c (self w2) = [] /\ total c (self w2) = total c (self w1)).
Proof.
  apply (drain_then_idle
           (record_outcome (mkResults "1.2.3.4:8080" true true false false)
              (demo_world 50)).2).
  intros c. apply not_elem_of_empty.
Defined.

(** X2. With all five lists empty, a checkpoint drain opens no file: it
    returns whatever the disk would do, leaves the disk, the lists and the
    totals as they are, and sets [last_save_count] to the counter. *)
Theorem empty_drain_touches_nothing w :
  (forall c, bucket c (self w) = []) ->
  let w' := (save_intermediate_results w).2 in
  (save_intermediate_results w).1 = Returns tt
  /\ disk w' = disk w
  /\ last_save_count (self w') = checked_proxies (self w)
  /\ console w' = console w ++ [MsgSaved (checked_proxies (self w))]
  /\ forall c, bucket c (self w') = [] /\ total c (self w') = total c (self w).
Proof.
  intros He. cbv zeta.
  assert (Hd : forall c, drain_bucket c w = (Returns tt, w)).
  { intros c. rewrite drain_bucket_eq, (He c). reflexivity. }
  unfold save_intermediate_results.
  rewrite (bind_returns _ _ _ _ _ (Hd Http)), (bind_returns _ _ _ _ _ (Hd Https)),
    (bind_returns _ _ _ _ _ (Hd Socks4)), (bind_returns _ _ _ _ _ (Hd Socks5)),
    (bind_returns _ _ _ _ _ (Hd Failed)).
  cbn. do 4 (split; [reflexivity|]).
  intros c. split; [rewrite <- (He c)|]; destruct c; reflexivity.
Qed.

Lemma empty_drain_touches_nothing_witness :
  let w := refusing_world 1 in
  let w' := (save_intermediate_results w).2 in
  (save_intermediate_results w).1 = Returns tt
  /\ disk w' = disk w
  /\ last_save_count (self w') = checked_proxies (self w)
  /\ console w' = console w ++ [MsgSaved (checked_proxies (self w))]
  /\ forall c, bucket c (self w') = [] /\ total c (self w') = total c (self w).
Proof.
  apply (empty_drain_touches_nothing (refusing_world 1)).
  intros c. destruct c; reflexivity.
Defined.

(** ** The final save *)

Lemma flush_all_spec w :
  frame (flush_all w) = frame w
  /\ forall c,
       file_lines c (flush_all w) = file_lines c w ++ bucket c (self w)
       /\ bucket c (self (flush_all w)) = bucket c (self w)
       /\ total c (self (flush_all w)) = total c (self w) + len (bucket c (self w)).
Proof.
  destruct (settled_flush_all w) as (Hf & _ & _ & Hs). split; [exact Hf|].
  intros c. destruct (Hs c) as (H1 & H2 & H3). rewrite everything_true in H1, H2, H3.
  cbn in H2. auto.
Qed.

(** X3. The final save does not empty the lists, so it is not idempotent:
    run twice in a row on a disk that accepts the writes, it appends every
    list to its file twice and adds its length to the total twice. *)
Theorem final_save_twice_duplicates w :
  writable w ->
  (save_results w).1 = Returns tt
  /\ (save_results (save_results w).2).1 = Returns tt
  /\ forall c,
       file_lines c (flushed_twice w)
       = (file_lines c w ++ bucket c (self w)) ++ bucket c (self w)
       /\ total c (self (flushed_twice w))
          = total c (self w) + 2 * len (bucket c (self w))
       /\ bucket c (self (flushed_twice w)) = bucket c (self w).
Proof.
  intros Hw. unfold flushed_twice.
  rewrite (save_results_writable w Hw). cbn [fst snd].
  set (w1 := with_console _ (flush_all w)).
  destruct (flush_all_spec w) as (Hf & Hs).
  assert (Hw1 : writable w1) by exact (writable_frame _ _ Hf Hw).
  rewrite (save_results_writable w1 Hw1). cbn [fst snd].
  split; [reflexivity|]. split; [reflexivity|].
  intros c. destruct (flush_all_spec w1) as (_ & Hs1).
  destruct (Hs1 c) as (H1 & H2 & H3). destruct (Hs c) as (G1 & G2 & G3).
  change (file_lines c w1) with (file_lines c (flush_all w)) in H1.
  change (bucket c (self w1)) with (bucket c (self (flush_all w))) in H1, H2, H3.
  change (total c (self w1)) with (total c (self (flush_all w))) in H3.
  split; [|split].
  - change (file_lines c (flush_all w1) = (file_lines c w ++ bucket c (self w)) ++ bucket c (self w)).
    rewrite H1, G1, G2. reflexivity.
  - change (total c (self (flush_all w1)) = total c (self w) + 2 * len (bucket c (self w))).
    rewrite H3, G3, G2. lia.
  - change (bucket c (self (flush_all w1)) = bucket c (self w)).
    rewrite H2, G2. reflexivity.
Qed.

Lemma final_save_twice_duplicates_witness :
  let w := (record_outcome (mkResults "1.2.3.4:8080" true true false false)
              (demo_world 50)).2 in
  (save_results w).1 = Returns tt
  /\ (save_results (save_results w).2).1 = Returns tt
  /\ forall c,
       file_lines c (flushed_twice w)
       = (file_lines c w ++ bucket c (self w)) ++ bucket c (self w)
       /\ total c (self (flushed_twice w))
          = total c (self w) + 2 * len (bucket c (self w))
       /\ bucket c (self (flushed_twice w)) = bucket c (self w).
Proof.
  apply (final_save_twice_duplicates
           (record_outcome (mkResults "1.2.3.4:8080" true true false false)
              (demo_world 50)).2).
  intros c. apply not_elem_of_empty.
Defined.

(** ** Loading fails, or finds nothing *)

(** X4. When the list cannot be opened or does not exist, [load_proxies]
    does not raise: it returns the empty list, prints one message (the
    error for a file that cannot be opened, "not found" for a missing
    one) and leaves the checker and the disk as they are. *)
Theorem load_proxies_unreadable_keeps path w :
  path ∈ denied w \/ disk w !! path = None ->
  load_proxies path w
  = (Returns [],
     with_console
       (console w ++ [if decide (path ∈ denied w) then MsgErrorLoading OSError
                      else MsgFileNotFound path]) w).
Proof.
  intros H. unfold load_proxies, try_except, read_lines, mbind, M_bind.
  destruct (decide _) as [Hin|Hout]; [reflexivity|].
  destruct H as [H|H]; [destruct (Hout H)|]. rewrite H. reflexivity.
Qed.

Lemma load_proxies_unreadable_keeps_witness :
  load_proxies "missing.txt" (demo_world 50)
  = (Returns [],
     with_console
       (console (demo_world 50)
        ++ [if decide ("missing.txt" ∈ denied (demo_world 50))
            then MsgErrorLoading OSError
            else MsgFileNotFound "missing.txt"]) (demo_world 50)).
Proof.
  apply (load_proxies_unreadable_keeps "missing.txt" (demo_world 50)).
  right. vm_compute. reflexivity.
Defined.

Lemma candidates_none f : all_lines_of f = [] -> candidates f = [].
Proof. intros H. unfold candidates. rewrite H. apply elements_empty. Qed.

(** X5. When the list cannot be read, or holds no line with anything but
    blanks, [run_check] returns without calling a probe and without
    touching the disk, the counter, the lists or the totals: no summary
    is printed and no output file is created. *)
Theorem run_check_nothing_to_do order d path w :
  path ∈ denied w \/ disk w !! path = None
  \/ (exists f, disk w !! path = Some f /\ all_lines_of f = []) ->
  let w' := (run_check order d path w).2 in
  (run_check order d path w).1 = Returns tt
  /\ disk w' = disk w
  /\ calls w' = calls w
  /\ checked_proxies (self w') = checked_proxies (self w)
  /\ (forall c, bucket c (self w') = bucket c (self w)
                /\ total c (self w') = total c (self w))
  /\ (forall q, MsgSuccessRate q ∈ console w' -> MsgSuccessRate q ∈ console w).
Proof.
  intros H. cbv zeta.
  destruct (decide (path ∈ denied w)) as [Hin|Hout].
  - unfold run_check.
    rewrite (bind_returns _ _ _ _ _ (load_proxies_unreadable_keeps path w (or_introl Hin))).
    cbn. do 4 (split; [reflexivity|]). split; [intros c; split; reflexivity|].
    intros q. rewrite decide_True by exact Hin. rewrite elem_of_app, list_elem_of_singleton.
    intros [Hq|Hq]; [exact Hq|discriminate Hq].
  - destruct H as [H|[H|(f & Hf & He)]]; [destruct (Hout H)| |].
    + unfold run_check.
      rewrite (bind_returns _ _ _ _ _ (load_proxies_unreadable_keeps path w (or_intror H))).
      cbn. do 4 (split; [reflexivity|]). split; [intros c; split; reflexivity|].
      intros q. rewrite decide_False by exact Hout.
      rewrite elem_of_app, list_elem_of_singleton.
      intros [Hq|Hq]; [exact Hq|discriminate Hq].
    + rewrite (run_check_nothing order d path f w Hout Hf (candidates_none f He)).
      cbn [fst snd]. do 4 (split; [reflexivity|]).
      split; [intros c; split; destruct c; reflexivity|].
      intros q. unfold loaded. cbn [console with_console].
      rewrite !elem_of_app, !list_elem_of_singleton.
      intros [[Hq|Hq]|Hq]; [exact Hq|discriminate Hq|].
      destruct (0 <? _); discriminate Hq.
Qed.

Lemma run_check_nothing_to_do_witness :
  let w := demo_world 50 in
  let w' := (run_check demo_order 1 "missing.txt" w).2 in
  (run_check demo_order 1 "missing.txt" w).1 = Returns tt
  /\ disk w' = disk w
  /\ calls w' = calls w
  /\ checked_proxies (self w') = checked_proxies (self w)
  /\ (forall c, bucket c (self w') = bucket c (self w)
                /\ total c (self w') = total c (self w))
  /\ (forall q, MsgSuccessRate q ∈ console w' -> MsgSuccessRate q ∈ console w).
Proof.
  apply (run_check_nothing_to_do demo_order 1 "missing.txt" (demo_world 50)).
  right. left. vm_compute. reflexivity.
Defined.

(** ** One candidate on a cooperating disk *)

Lemma checkpoint_writable w : writable w -> checkpoint w = (Returns tt, checkpoint_ok w).
Proof.
  intros Hw. unfold checkpoint, checkpoint_ok.
  rewrite (bind_returns get_self _ w (self w) w eq_refl).
  destruct (_ <=? _); cbn [when]; [|reflexivity].
  exact (save_intermediate_results_writable w Hw).
Qed.

Lemma checkpoint_ok_spec w :
  frame (checkpoint_ok w) = frame w
  /\ checked_proxies (self (checkpoint_ok w)) = checked_proxies (self w)
  /\ calls (checkpoint_ok w) = calls w.
Proof.
  unfold checkpoint_ok. destruct (_ <=? _); [|auto].
  destruct (saved_spec w) as (Hf & Hc & _ & Hk & _). auto.
Qed.

(** X6. On a disk that accepts the writes, [check_proxy] counts the
    candidate and then returns the outcome of the four probes, unless
    [total_proxies] is zero: then the progress line divides by zero and
    the call raises [ZeroDivisionError], after the candidate has been
    counted and filed. *)
Theorem check_proxy_outcome p w :
  writable w ->
  (check_proxy p w).1
  = (if total_proxies (self w) =? 0 then Raises ZeroDivisionError
     else Returns (answers (net w) (timeout (self w)) p))
  /\ checked_proxies (self (check_proxy p w).2) = checked_proxies (self w) + 1
  /\ forall c,
       history c (check_proxy p w).2
       = history c w ++ (if flag c (answers (net w) (timeout (self w)) p) then [p] else []).
Proof.
  intros Hw.
  split; [|split; [|intros c; apply check_proxy_history]].
  - rewrite check_proxy_eq. cbv zeta. set (w1 := with_calls _ w).
    destruct (record_outcome_eq (answers (net w) (timeout (self w)) p) w1)
      as (Hr & Hf & _).
    destruct (record_outcome _ w1) as [[[]|e] w2] eqn:Hrec; cbn in Hr, Hf; [|discriminate Hr].
    rewrite (bind_returns _ _ _ _ _ Hrec).
    assert (Hw2 : writable w2) by exact (writable_frame w w2 Hf Hw).
    rewrite (bind_returns _ _ _ _ _ (checkpoint_writable w2 Hw2)).
    destruct (checkpoint_ok_spec w2) as (Hf3 & _).
    assert (Htp : total_proxies (self (checkpoint_ok w2)) = total_proxies (self w)).
    { unfold frame in Hf, Hf3. injection Hf as _ _ _ Ha _ _ _. injection Hf3 as _ _ _ Hb _ _ _.
      rewrite Hb. exact Ha. }
    unfold progress_update at 1.
    unfold mbind at 1, M_bind at 1.
    unfold mbind at 1, M_bind at 1. cbn [get_self].
    rewrite Htp. destruct (total_proxies (self w) =? 0); reflexivity.
  - destruct (check_proxy_advances p w) as [(_ & Hc & _) _]. rewrite Hc. reflexivity.
Qed.

Lemma check_proxy_outcome_witness :
  let p := "1.2.3.4:8080" in
  let w := demo_world 50 in
  (check_proxy p w).1
  = (if total_proxies (self w) =? 0 then Raises ZeroDivisionError
     else Returns (answers (net w) (timeout (self w)) p))
  /\ checked_proxies (self (check_proxy p w).2) = checked_proxies (self w) + 1
  /\ forall c,
       history c (check_proxy p w).2
       = history c w ++ (if flag c (answers (net w) (timeout (self w)) p) then [p] else []).
Proof.
  apply (check_proxy_outcome "1.2.3.4:8080" (demo_world 50)).
  intros c. apply not_elem_of_empty.
Defined.

(** ** The summary without candidates *)

(** X7. With [total_proxies] zero, [display_results] raises
    [ZeroDivisionError] at the average time per proxy, after two lines of
    the summary: no rate is printed, the final save is not reached, and
    whatever the lists hold is not written. *)
Theorem display_results_without_candidates d w :
  total_proxies (self w) = 0 ->
  display_results d w
  = (Raises ZeroDivisionError,
     with_console ((console w ++ [MsgTested 0]) ++ [MsgTimeTaken d]) w).
Proof.
  intros H0. unfold display_results.
  rewrite (bind_returns get_self _ w (self w) w eq_refl).
  erewrite (bind_returns (print _)); [|reflexivity].
  erewrite (bind_returns (print _)); [|reflexivity].
  rewrite H0. reflexivity.
Qed.

Lemma display_results_without_candidates_witness :
  display_results 0 (demo_world 50)
  = (Raises ZeroDivisionError,
     with_console ((console (demo_world 50) ++ [MsgTested 0]) ++ [MsgTimeTaken 0])
       (demo_world 50)).
Proof.
  apply (display_results_without_candidates 0 (demo_world 50)). reflexivity.
Defined.

(** ** The output files at the end of a run *)

Lemma order_nil (order : Z -> list string -> list string) :
  (forall W l, order W l ≡ₚ l) -> forall W, order W [] = [].
Proof. intros H W. apply Permutation_nil_r, H. Qed.

(** X8. At the end of a run of a fresh checker with a pool of at least
    one worker, on a disk that accepts the writes, each output file holds
    exactly the candidates placed in its category, in the order in which
    they were recorded and each once: a string is in the file of a
    category if and only if it is a candidate and the flag of that
    category is true for it. *)
Theorem output_files_hold_the_placed order d path f w :
  fresh w -> writable w -> path ∉ denied w -> disk w !! path = Some f ->
  0 < max_workers (self w) ->
  (forall W l, order W l ≡ₚ l) ->
  let w' := (run_check order d path w).2 in
  let n := net w in
  let t := timeout (self w) in
  forall c,
    file_lines c w' = filter (placed n t c) (order (max_workers (self w)) (candidates f))
    /\ NoDup (file_lines c w')
    /\ forall x, x ∈ file_lines c w' <-> x ∈ candidates f /\ placed n t c x = true.
Proof.
  intros Hfr Hw Hd Hf Hpool Hord w' n t c.
  assert (Hfiles : file_lines c w'
                   = filter (placed n t c) (order (max_workers (self w)) (candidates f))).
  { subst w'. destruct (decide (candidates f = [])) as [He|Hne].
    - rewrite (run_check_nothing order d path f w Hd Hf He). cbn [snd].
      change (file_lines c (loaded path f w)) with (file_lines c w).
      destruct Hfr as (_ & _ & Hper). rewrite (proj2 (proj2 (Hper c))).
      rewrite He, (order_nil order Hord). reflexivity.
    - rewrite (run_check_readable order d path f w Hd Hf Hne Hpool).
      destruct (checked_all_spec order path f w Hfr Hord) as (Hts & Hden & Htp & _ & Hper).
      set (w2 := checked_all order path f w) in *.
      rewrite display_results_eq; [|rewrite Htp; now apply candidates_len_pos].
      assert (Hw2 : writable (displayed d w2)) by exact (writable_same w _ Hts Hden Hw).
      rewrite (save_results_writable _ Hw2). cbn [snd].
      destruct (settled_flush_all (displayed d w2)) as (_ & _ & _ & Hs).
      destruct (Hs c) as (H1 & _). rewrite everything_true in H1.
      change (file_lines c (flush_all (displayed d w2))
              = filter (placed n t c) (order (max_workers (self w)) (candidates f))).
      rewrite H1. exact (proj1 (Hper c)). }
  assert (Hnd : NoDup (order (max_workers (self w)) (candidates f))).
  { rewrite (Hord _ _). unfold candidates. apply NoDup_elements. }
  split; [exact Hfiles|]. split.
  - rewrite Hfiles. now apply NoDup_filter.
  - intros x. rewrite Hfiles, list_elem_of_filter, (Hord _ _).
    split; intros [H1 H2]; split; try assumption.
    + now apply Is_true_true.
    + now apply Is_true_true.
Qed.

Lemma output_files_hold_the_placed_witness :
  let w := demo_world 50 in
  let w' := (run_check demo_order 1 "proxy_list.txt" w).2 in
  let n := net w in
  let t := timeout (self w) in
  0 < max_workers (self w)
  /\ file_lines Https w'
     = filter (placed n t Https) (demo_order (max_workers (self w)) (candidates demo_file))
  /\ NoDup (file_lines Https w')
  /\ forall x, x ∈ file_lines Https w' <-> x ∈ candidates demo_file /\ placed n t Https x = true.
Proof.
  split; [reflexivity|].
  apply (output_files_hold_the_placed demo_order 1 "proxy_list.txt" demo_file (demo_world 50)).
  - apply demo_world_fresh.
  - apply demo_world_writable.
  - apply not_elem_of_empty.
  - reflexivity.
  - reflexivity.
  - apply demo_order_perm.
Defined.

(** ** The loop, whatever the disk does *)

(** X9. The loop of [run_check] completes for every list of candidates
    and every behaviour of the disk: it returns, the counter grows by the
    number of candidates, the probes are called four times per candidate
    and in the order of completion, and what is filed under each category,
    on disk or in memory, grows by exactly the candidates placed in it. *)
Theorem checking_loop_completes l w :
  let w' := (for_each l await w).2 in
  (for_each l await w).1 = Returns tt
  /\ checked_proxies (self w') = checked_proxies (self w) + len l
  /\ calls w' = calls w ++ (l ≫= four_calls)
  /\ forall c, history c w' = history c w ++ filter (placed (net w) (timeout (self w)) c) l.
Proof.
  cbv zeta. destruct (for_each_await l w) as [Hr (_ & Hc & Hk & Hadv)].
  split; [exact Hr|]. split; [exact Hc|]. split; [exact Hk|].
  intros c. exact (proj1 (Hadv c)).
Qed.

(** ** What waits in memory *)

Lemma await_writable p w :
  writable w ->
  exists m,
    (await p w).2
    = with_console m
        (checkpoint_ok
           (record_outcome (answers (net w) (timeout (self w)) p)
              (with_calls (calls w ++ four_calls p) w)).2).
Proof.
  intros Hw. unfold await, try_except. unfold mbind at 1, M_bind at 1.
  rewrite check_proxy_eq. cbv zeta.
  set (r := answers (net w) (timeout (self w)) p). set (w1 := with_calls _ w).
  destruct (record_outcome_eq r w1) as (Hr & Hf & _).
  destruct (record_outcome r w1) as [[[]|e] w2] eqn:Hrec; cbn in Hr, Hf; [|discriminate Hr].
  cbn [snd].
  rewrite (bind_returns _ _ _ _ _ Hrec).
  assert (Hw2 : writable w2) by exact (writable_frame w w2 Hf Hw).
  rewrite (bind_returns _ _ _ _ _ (checkpoint_writable w2 Hw2)).
  unfold progress_update, mbind, M_bind, get_self, print, raise.
  destruct (total_proxies (self (checkpoint_ok w2)) =? 0); cbn.
  - eexists. reflexivity.
  - eexists. unfold with_console. cbn. reflexivity.
Qed.

Lemma checkpoint_ok_backlog w :
  1 <= save_interval (self w) ->
  0 <= backlog w ->
  (forall c, len (bucket c (self w)) <= backlog w) ->
  0 <= backlog (checkpoint_ok w) < save_interval (self w)
  /\ forall c, len (bucket c (self (checkpoint_ok w))) <= backlog (checkpoint_ok w).
Proof.
  intros Hi H0 Hb. unfold checkpoint_ok, backlog in *.
  destruct (_ <=? _) eqn:Hle.
  - destruct (saved_spec w) as (_ & Hc & Hl & _ & Hs). rewrite Hc, Hl.
    split; [lia|]. intros c. rewrite (proj1 (proj2 (Hs c))). unfold len; cbn. lia.
  - split; [lia|exact Hb].
Qed.

(** X10. On a disk that accepts the writes and with a checkpoint interval
    of at least one, after every record call fewer candidates than the
    interval have been recorded since the last checkpoint, and no list in
    memory is longer than that number: at most interval - 1 entries of a
    category wait for the next drain. *)
Theorem backlog_bounded l w :
  writable w ->
  1 <= save_interval (self w) ->
  0 <= backlog w < save_interval (self w) ->
  (forall c, len (bucket c (self w)) <= backlog w) ->
  let w' := (for_each l await w).2 in
  0 <= backlog w' < save_interval (self w)
  /\ forall c, len (bucket c (self w')) <= backlog w'.
Proof.
  revert w. induction l as [|p l IH]; intros w Hw Hi H0 Hb; cbv zeta.
  - cbn. split; [exact H0|exact Hb].
  - cbn [for_each]. destruct (await_advances p w) as [Hr (Hf & _)].
    destruct (await_writable p w Hw) as [m Hm].
    destruct (await p w) as [[[]|e] w1] eqn:Haw; cbn in Hr, Hf, Hm; [|discriminate Hr].
    rewrite (bind_returns _ _ _ _ _ Haw).
    set (r := answers (net w) (timeout (self w)) p) in *.
    set (w0 := with_calls _ w) in *.
    destruct (record_outcome_eq r w0) as (_ & Hf2 & _ & _ & _ & Hc2 & Hl2 & Hb2).
    set (w2 := (record_outcome r w0).2) in *.
    assert (Hsi : save_interval (self w2) = save_interval (self w)).
    { unfold frame in Hf2. now injection Hf2. }
    assert (Hstep : 0 <= backlog (checkpoint_ok w2) < save_interval (self w)
                    /\ forall c, len (bucket c (self (checkpoint_ok w2)))
                                 <= backlog (checkpoint_ok w2)).
    { rewrite <- Hsi. apply checkpoint_ok_backlog.
      - lia.
      - unfold backlog in *. rewrite Hc2, Hl2. cbn. lia.
      - intros c. unfold backlog in *. rewrite Hc2, Hl2. cbn.
        rewrite (proj1 (Hb2 c)), len_app. specialize (Hb c).
        destruct (flag c r); unfold len in *; cbn; lia. }
    assert (Hsi1 : save_interval (self w1) = save_interval (self w)).
    { unfold frame in Hf. now injection Hf. }
    rewrite <- Hsi1. apply IH.
    + exact (writable_frame w w1 Hf Hw).
    + lia.
    + rewrite Hsi1, Hm. exact (proj1 Hstep).
    + rewrite Hm. exact (proj2 Hstep).
Qed.

Lemma backlog_bounded_witness :
  let l := ["1.2.3.4:8080"; "5.6.7.8:3128"; "9.9.9.9:1080"] in
  let w := loaded "proxy_list.txt" demo_file (demo_world 50) in
  let w' := (for_each l await w).2 in
  0 <= backlog w' < save_interval (self w)
  /\ forall c, len (bucket c (self w')) <= backlog w'.
Proof.
  apply (backlog_bounded ["1.2.3.4:8080"; "5.6.7.8:3128"; "9.9.9.9:1080"]
           (loaded "proxy_list.txt" demo_file (demo_world 50))).
  - intros c. apply not_elem_of_empty.
  - vm_compute. discriminate.
  - vm_compute. split; [discriminate|reflexivity].
  - intros c. destruct c; vm_compute; discriminate.
Defined.

(** ** Every candidate is probed once *)

Lemma flush_bucket_calls k c :
  keeps (fun w => calls w = k) (fun _ => True) (flush_bucket c).
Proof.
  intros w Hk. rewrite flush_bucket_eq. destruct (nonempty _); [|split; auto].
  destruct (decide _); cbn [fst snd]; split; auto.
Qed.

Lemma display_results_calls d w : calls (display_results d w).2 = calls w.
Proof.
  assert (H : keeps (fun w' => calls w' = calls w) (fun _ => True) (display_results d)).
  { unfold display_results. apply keeps_bind; [apply keeps_get_self|intros s].
    apply keeps_bind; [apply keeps_print; auto|intros _].
    apply keeps_bind; [apply keeps_print; auto|intros _].
    apply keeps_bind.
    { destruct (_ =? _); [now apply keeps_raise|apply keeps_print; auto]. }
    intros _. apply keeps_bind; [apply keeps_print; auto|intros _].
    apply keeps_bind; [apply keeps_print; auto|intros _].
    unfold save_results. apply keeps_bind; [apply keeps_get_self|intros s'].
    apply keeps_bind.
    - apply keeps_when.
      repeat (apply keeps_bind; [apply flush_bucket_calls|intros _]).
      apply flush_bucket_calls.
    - intros _. apply keeps_print. auto. }
  exact (proj1 (H w eq_refl)).
Qed.

(** X11. In a run over a readable list with a pool of at least one
    worker, whatever the disk does afterwards, the probes are called
    exactly for the candidates, four calls per candidate in the order
    HTTP, HTTPS, SOCKS4, SOCKS5, and no candidate is probed twice, however
    often its line occurs in the file. *)
Theorem each_candidate_probed_once order d path f w :
  path ∉ denied w -> disk w !! path = Some f ->
  0 < max_workers (self w) ->
  (forall W l, order W l ≡ₚ l) ->
  let completed := order (max_workers (self w)) (candidates f) in
  calls (run_check order d path w).2 = calls w ++ (completed ≫= four_calls)
  /\ NoDup completed
  /\ completed ≡ₚ distinct_trimmed f.
Proof.
  intros Hd Hf Hpool Hord completed.
  assert (Hnd : NoDup completed).
  { subst completed. rewrite (Hord _ _). unfold candidates. apply NoDup_elements. }
  split; [|split; [exact Hnd|]].
  - destruct (decide (candidates f = [])) as [He|Hne].
    + rewrite (run_check_nothing order d path f w Hd Hf He). cbn [snd].
      subst completed. rewrite He, (order_nil order Hord). cbn. now rewrite app_nil_r.
    + rewrite (run_check_readable order d path f w Hd Hf Hne Hpool), display_results_calls.
      unfold checked_all.
      destruct (for_each_await (order (max_workers (self w)) (candidates f))
                  (started path f w)) as [_ (_ & _ & Hk & _)].
      exact Hk.
  - subst completed. rewrite (Hord _ _). apply candidates_distinct.
Qed.

Lemma each_candidate_probed_once_witness :
  let w := refusing_world 500 in
  let completed := demo_order (max_workers (self w)) (candidates demo_file) in
  0 < max_workers (self w)
  /\ calls (run_check demo_order 1 "proxy_list.txt" w).2 = calls w ++ (completed ≫= four_calls)
  /\ NoDup completed
  /\ completed ≡ₚ distinct_trimmed demo_file.
Proof.
  split; [reflexivity|].
  apply (each_candidate_probed_once demo_order 1 "proxy_list.txt" demo_file
           (refusing_world 500)).
  - vm_compute. discriminate.
  - reflexivity.
  - reflexivity.
  - apply demo_order_perm.
Defined.

(** X29. A pool without a worker is refused: over a readable list with at
    least one candidate, a checker whose [max_workers] is zero or less
    loads the list, prints the opening line and raises [ValueError]; no
    probe is called, nothing is counted or filed, and no file is
    written. *)
Theorem run_check_without_workers order d path f w :
  path ∉ denied w -> disk w !! path = Some f -> candidates f <> [] ->
  max_workers (self w) <= 0 ->
  run_check order d path w = (Raises ValueError, started path f w)
  /\ calls (started path f w) = calls w
  /\ disk (started path f w) = disk w
  /\ checked_proxies (self (started path f w)) = checked_proxies (self w)
  /\ forall c, bucket c (self (started path f w)) = bucket c (self w)
               /\ total c (self (started path f w)) = total c (self w).
Proof.
  intros Hd Hf Hne Hpool. split.
  - unfold run_check.
    rewrite (bind_returns _ _ _ _ _ (load_proxies_readable path f w Hd Hf)).
    rewrite (nonempty_true _ Hne).
    rewrite (bind_returns get_self _ _ (self (loaded path f w)) (loaded path f w) eq_refl).
    erewrite (bind_returns (print _)); [|reflexivity].
    change (max_workers (self (loaded path f w))) with (max_workers (self w)).
    change (with_console _ (loaded path f w)) with (started path f w).
    erewrite (bind_raises (executor _)); [reflexivity|].
    unfold executor. destruct (max_workers (self w) <=? 0) eqn:Hle; [reflexivity|lia].
  - repeat split; destruct c; reflexivity.
Qed.

Lemma run_check_without_workers_witness :
  let w := demo_world 0 in
  ("proxy_list.txt" ∉ denied w)
  /\ candidates demo_file <> []
  /\ max_workers (self w) <= 0
  /\ run_check demo_order 1 "proxy_list.txt" w
     = (Raises ValueError, started "proxy_list.txt" demo_file w)
  /\ calls (started "proxy_list.txt" demo_file w) = calls w
  /\ disk (started "proxy_list.txt" demo_file w) = disk w
  /\ checked_proxies (self (started "proxy_list.txt" demo_file w)) = checked_proxies (self w)
  /\ forall c, bucket c (self (started "proxy_list.txt" demo_file w)) = bucket c (self w)
               /\ total c (self (started "proxy_list.txt" demo_file w)) = total c (self w).
Proof.
  cbv zeta.
  assert (H1 : "proxy_list.txt" ∉ denied (demo_world 0)) by apply not_elem_of_empty.
  assert (H2 : candidates demo_file <> []) by (vm_compute; discriminate).
  assert (H3 : max_workers (self (demo_world 0)) <= 0) by (cbn; lia).
  split; [exact H1|]. split; [exact H2|]. split; [exact H3|].
  exact (run_check_without_workers demo_order 1 "proxy_list.txt" demo_file (demo_world 0)
           H1 eq_refl H2 H3).
Defined.

(** ** The names of the output files *)

Lemma string_length_append (a b : string) :
  String.length (a +:+ b) = (String.length a + String.length b)%nat.
Proof.
  induction a as [|c a IH]; [reflexivity|].
  change (S (String.length (a +:+ b)) = S (String.length a + String.length b)).
  now rewrite IH.
Qed.

Lemma append_cancel_r (x y b : string) : x +:+ b = y +:+ b -> x = y.
Proof.
  revert y. induction x as [|c x IH]; intros [|c' y] H.
  - reflexivity.
  - apply (f_equal String.length) in H.
    change (String c' y +:+ b) with (String c' (y +:+ b)) in H.
    change ("" +:+ b) with b in H. cbn [String.length] in H.
    rewrite string_length_append in H. lia.
  - apply (f_equal String.length) in H.
    change (String c x +:+ b) with (String c (x +:+ b)) in H.
    change ("" +:+ b) with b in H. cbn [String.length] in H.
    rewrite string_length_append in H. lia.
  - change (String c (x +:+ b) = String c' (y +:+ b)) in H.
    injection H as -> H. f_equal. now apply IH.
Qed.

(** X12. The name of an output file determines both its category and the
    time stamp of the run: two checkers write to the same file only for
    the same category and the same time stamp, so the five files of a run
    are pairwise distinct and runs started at different seconds share no
    file. *)
Theorem file_names_determine s s' c c' :
  file_names s c = file_names s' c' <-> c = c' /\ timestamp s = timestamp s'.
Proof.
  split; [|intros [-> Hts]; now apply file_names_timestamp].
  intros H.
  assert (Hc : c = c').
  { destruct c, c'; try reflexivity; exfalso; vm_compute in H; discriminate H. }
  subst c'. split; [reflexivity|].
  destruct c; unfold file_names in H;
    apply String.app_inj in H; exact (append_cancel_r _ _ _ H).
Qed.

(** ** The scraper's validation, in full *)

Lemma parts_in_range_complete parts :
  Forall (fun part => exists k, Py.int part = Some k /\ 0 <= k <= 255) parts ->
  Scraper.parts_in_range parts = Some true.
Proof.
  induction 1 as [|part rest (k & Hk & Hr) _ IH]; [reflexivity|].
  cbn. rewrite Hk.
  destruct (0 <=? k) eqn:H0; [|lia]. destruct (k <=? 255) eqn:H1; [|lia]. exact IH.
Qed.

(** X13. [validate_proxy_format] accepts a string exactly when it has one
    colon, the part before it has exactly three dots and four parts that
    [int] reads as integers from 0 to 255, and the part after it is read
    by [int] as an integer from 1 to 65535. Host names, addresses with
    fewer or more parts and strings with a second colon are rejected. *)
Theorem validate_proxy_format_iff p :
  Scraper.validate_proxy_format p = true <->
  exists ip port n,
    Py.split ":" p = [ip; port]
    /\ length (Py.split "." ip) = 4%nat
    /\ Forall (fun part => exists k, Py.int part = Some k /\ 0 <= k <= 255) (Py.split "." ip)
    /\ Py.int port = Some n
    /\ 1 <= n <= 65535.
Proof.
  split.
  - intros H. destruct (validate_proxy_format_shape p H) as (ip & port & n & H1 & _ & H2 & H3 & H4 & H5).
    exists ip, port, n. auto.
  - intros (ip & port & n & Hs & Hl & Hp & Hn & Hr).
    unfold Scraper.validate_proxy_format. rewrite Hs, Hl. cbn [Nat.eqb negb].
    rewrite (parts_in_range_complete _ Hp), Hn.
    destruct (1 <=? n) eqn:H1; [|lia]. destruct (n <=? 65535) eqn:H2; [|lia]. reflexivity.
Qed.

(** What [int] accepts is wider than plain digits, and so is the
    validation; a host name is rejected. *)
Example validate_proxy_format_edges :
  Scraper.validate_proxy_format "1.2.3.4:080" = true
  /\ Scraper.validate_proxy_format "+1.2.3.4:6_5" = true
  /\ Scraper.validate_proxy_format "1.2.3.4:65536" = false
  /\ Scraper.validate_proxy_format "1.2.3.4:0" = false
  /\ Scraper.validate_proxy_format "256.2.3.4:80" = false
  /\ Scraper.validate_proxy_format "1.2.3:80" = false
  /\ Scraper.validate_proxy_format "localhost:80" = false
  /\ Scraper.validate_proxy_format "1.2.3.4" = false
  /\ Scraper.validate_proxy_format "1.2.3.4:80:90" = false.
Proof. vm_compute. repeat split. Qed.

Lemma remove_spaces_idem s : Py.remove_spaces (Py.remove_spaces s) = Py.remove_spaces s.
Proof.
  induction s as [|c s IH]; [reflexivity|]. cbn.
  destruct (Py.isspace c) eqn:Hc; [exact IH|]. cbn. now rewrite Hc, IH.
Qed.

Lemma extract_step_iff (ms : list string) (acc : gset string) x :
  x ∈ foldl (fun proxies match_ =>
               let proxy := Py.remove_spaces match_ in
               if Scraper.validate_proxy_format proxy then proxies ∪ {[ proxy ]}
               else proxies) acc ms
  <-> x ∈ acc \/ exists m, m ∈ ms /\ x = Py.remove_spaces m
                           /\ Scraper.validate_proxy_format x = true.
Proof.
  revert acc. induction ms as [|m ms IH]; intros acc; cbn [foldl].
  - split; [now left|]. intros [H|(m & Hm & _)]; [exact H|]. now apply elem_of_nil in Hm.
  - rewrite IH. split.
    + intros [H|(m' & Hm' & Hx & Hv)].
      * destruct (Scraper.validate_proxy_format (Py.remove_spaces m)) eqn:Hvm; [|now left].
        apply elem_of_union in H as [H|H]; [now left|].
        apply elem_of_singleton in H. subst x. right. exists m.
        split; [left|split; [reflexivity|exact Hvm]].
      * right. exists m'. split; [now right|auto].
    + intros [H|(m' & Hm' & Hx & Hv)].
      * left. destruct (Scraper.validate_proxy_format (Py.remove_spaces m)); [|exact H].
        apply elem_of_union. now left.
      * apply elem_of_cons in Hm' as [->|Hm'].
        -- left. subst x. rewrite Hv. apply elem_of_union. right. now apply elem_of_singleton.
        -- right. exists m'. auto.
Qed.

(** X14. The set that [extract_proxies_from_text] returns consists exactly
    of the matches of the two patterns that pass the validation once
    their blanks are removed: it holds nothing else, its elements contain
    no blank, and without a match it is empty. *)
Theorem extract_proxies_from_text_iff (findall : string -> string -> list string) text x :
  x ∈ Scraper.extract_proxies_from_text findall text <->
  Py.remove_spaces x = x
  /\ exists pattern m,
       pattern ∈ Scraper.proxy_patterns /\ m ∈ findall pattern text
       /\ x = Py.remove_spaces m /\ Scraper.validate_proxy_format x = true.
Proof.
  assert (H : x ∈ Scraper.extract_proxies_from_text findall text <->
              exists pattern m,
                pattern ∈ Scraper.proxy_patterns /\ m ∈ findall pattern text
                /\ x = Py.remove_spaces m /\ Scraper.validate_proxy_format x = true).
  { unfold Scraper.extract_proxies_from_text, Scraper.proxy_patterns. cbn [foldl].
    rewrite !extract_step_iff. split.
    - intros [[H|(m & Hm & Hx & Hv)]|(m & Hm & Hx & Hv)].
      + now apply not_elem_of_empty in H.
      + eexists _, m. split; [left|]. auto.
      + eexists _, m. split; [right; left|]. auto.
    - intros (pat & m & Hp & Hm & Hx & Hv).
      apply elem_of_cons in Hp as [->|Hp].
      + left. right. exists m. auto.
      + apply list_elem_of_singleton in Hp. subst pat. right. exists m. auto. }
  rewrite H. split; [|intros [_ Hx]; exact Hx].
  intros (pat & m & Hp & Hm & Hx & Hv). split; [|eauto 6].
  rewrite Hx. apply remove_spaces_idem.
Qed.

(** * Properties of the scraper *)

(** ** The files of the scraper *)

(** X15. [load_existing_proxies] never raises and never writes: when the
    proxy file exists and can be opened, the non-empty trimmed lines of
    the file are added to [all_proxies]; when it is missing or cannot be
    opened, [all_proxies] stays as it is. Nothing is ever removed from
    the set. *)
Theorem load_existing_proxies_merges s :
  let s' := (Crawler.load_existing_proxies s).2 in
  (Crawler.load_existing_proxies s).1 = Returns tt
  /\ Crawler.files s' = Crawler.files s
  /\ Crawler.proxy_file s' = Crawler.proxy_file s
  /\ Crawler.all_proxies s'
     = (if decide (Crawler.proxy_file s ∈ Crawler.locked s) then Crawler.all_proxies s
        else match Crawler.files s !! Crawler.proxy_file s with
             | Some text =>
                 Crawler.all_proxies s ∪ list_to_set (all_lines_of (Str.readlines text))
             | None => Crawler.all_proxies s
             end)
  /\ Crawler.all_proxies s ⊆ Crawler.all_proxies s'.
Proof.
  cbv zeta.
  unfold Crawler.load_existing_proxies, Crawler.try_except, Crawler.exists_,
    Crawler.read_lines, Crawler.get, mbind, Crawler.E_bind.
  destruct (Crawler.files s !! Crawler.proxy_file s) as [f|] eqn:Hf; cbn;
    destruct (decide _) as [Hin|Hout]; cbn; rewrite ?Hf; cbn;
    repeat split; try reflexivity.
  apply union_subseteq_l.
Qed.

(** X16. [load_urls_from_file] returns, in the order of the file, the
    trimmed lines that are not blank and whose very first character is
    not [#]: a line in which blanks come before the [#] is returned, and
    then starts with [#]. A file that can be opened is left as it is and
    nothing is printed. *)
Theorem load_urls_from_file_selects filename text s :
  filename ∉ Crawler.locked s -> Crawler.files s !! filename = Some text ->
  exists urls,
    Crawler.load_urls_from_file filename s = (Returns urls, s)
    /\ urls = Py.strip <$> filter (fun line => Py.strip line <> EmptyString
                                              /\ Str.startswith "#" line = false)
                             (Str.readlines text)
    /\ forall x, x ∈ urls <->
                 x <> EmptyString
                 /\ exists line, line ∈ Str.readlines text /\ x = Py.strip line
                                 /\ Str.startswith "#" line = false.
Proof.
  intros Hl Hf.
  assert (Hfilter : forall f : list string,
    filter (fun line => Py.truthy (Py.strip line) && negb (Str.startswith "#" line)) f
    = filter (fun line => Py.strip line <> EmptyString
                          /\ Str.startswith "#" line = false) f).
  { intros f. apply list_filter_iff. intros line.
    rewrite andb_True, negb_True.
    destruct (Py.strip line), (Str.startswith "#" line); cbn; intuition congruence. }
  eexists. split; [|split; [reflexivity|]].
  - unfold Crawler.load_urls_from_file, Crawler.try_except, Crawler.read_lines,
      mbind, Crawler.E_bind.
    destruct (decide _) as [Hin|_]; [destruct (Hl Hin)|]. rewrite Hf. cbn.
    unfold mret, Crawler.E_ret. now rewrite Hfilter.
  - intros x. rewrite list_elem_of_fmap. setoid_rewrite list_elem_of_filter. split.
    + intros (line & -> & (Hne & Hs) & Hin). split; [exact Hne|]. exists line. auto.
    + intros (Hne & line & Hin & -> & Hs). exists line. auto.
Qed.

Lemma load_urls_from_file_selects_witness :
  exists urls,
    Crawler.load_urls_from_file "proxy_sources.txt" url_site = (Returns urls, url_site)
    /\ urls = Py.strip <$> filter (fun line => Py.strip line <> EmptyString
                                              /\ Str.startswith "#" line = false)
                             (Str.readlines url_text)
    /\ forall x, x ∈ urls <->
                 x <> EmptyString
                 /\ exists line, line ∈ Str.readlines url_text /\ x = Py.strip line
                                 /\ Str.startswith "#" line = false.
Proof.
  apply (load_urls_from_file_selects "proxy_sources.txt" url_text url_site).
  - apply not_elem_of_empty.
  - reflexivity.
Defined.

(** The indented comment is returned as an address; a missing file gives
    the empty list and a message, a file that cannot be opened raises. *)
Example load_urls_from_file_edges :
  (Crawler.load_urls_from_file "proxy_sources.txt" url_site).1
  = Returns ["http://a.example/list"; "# indented"; "http://b.example/"]
  /\ Crawler.load_urls_from_file "absent.txt" url_site
     = (Returns [], Crawler.with_screen [Crawler.UrlFileNotFound "absent.txt"] url_site)
  /\ (Crawler.load_urls_from_file "proxy_sources.txt"
        (Crawler.mkSite ∅ "proxy_list.txt" 1 (Crawler.files url_site)
           {[ "proxy_sources.txt" ]} [] [])).1
     = Raises OSError.
Proof. vm_compute. repeat split. Qed.

(** The sample page on the sample web: one proxy saved, one further page
    requested. *)
Example scrape_page_demo :
  let s' := (Crawler.scrape_page demo_lib "http://a.example/list" 5 demo_site).2 in
  elements (Crawler.all_proxies s') = ["1.2.3.4:80"]
  /\ Crawler.files s' !! "proxy_list.txt" = Some (written ["1.2.3.4:80"])
  /\ Crawler.requested s' = ["http://a.example/list"; "http://a.example/list?page=2"]
  /\ Crawler.screen s'
     = [ Crawler.Scraping "http://a.example/list";
         Crawler.FoundNew 1 "http://a.example/list";
         Crawler.FoundPagination 1 1;
         Crawler.Scraping "http://a.example/list?page=2";
         Crawler.TimeoutScraping "http://a.example/list?page=2" ].
Proof. vm_compute. repeat split. Qed.

(** ** A logic for the scraper's methods *)

Lemma triple_ret {A} (P : Crawler.Site -> Prop) (a : A) Q X :
  (forall s, P s -> Q a s) -> triple P (mret a) Q X.
Proof. intros H s Hs. cbn. auto. Qed.

Lemma triple_bind {A B} P (m : Crawler.E A) (k : A -> Crawler.E B) R Q X :
  triple P m R X -> (forall a, triple (R a) (k a) Q X) -> triple P (m ≫= k) Q X.
Proof.
  intros Hm Hk s Hs. specialize (Hm s Hs). unfold mbind, Crawler.E_bind.
  destruct (m s) as [[a|e] s1]; [|exact Hm]. exact (Hk a s1 Hm).
Qed.

Lemma triple_weaken {A} (P P' : Crawler.Site -> Prop) (m : Crawler.E A)
    (Q Q' : A -> Crawler.Site -> Prop) (X X' : exception -> Crawler.Site -> Prop) :
  triple P' m Q' X' ->
  (forall s, P s -> P' s) -> (forall a s, Q' a s -> Q a s) -> (forall e s, X' e s -> X e s) ->
  triple P m Q X.
Proof.
  intros Hm HP HQ HX s Hs. specialize (Hm s (HP s Hs)).
  destruct (m s) as [[a|e] s1]; auto.
Qed.

Lemma triple_try {A} P (m : Crawler.E A) clauses Q X X' :
  triple P m Q X' -> (forall e, triple (X' e) (Crawler.handle clauses e) Q X) ->
  triple P (Crawler.try_except m clauses) Q X.
Proof.
  intros Hm Hh s Hs. specialize (Hm s Hs). unfold Crawler.try_except.
  destruct (m s) as [[a|e] s1]; [exact Hm|]. exact (Hh e s1 Hm).
Qed.

Lemma triple_say P (n : Crawler.note) (Q : unit -> Crawler.Site -> Prop) X :
  (forall s, P s -> Q tt (Crawler.with_screen (Crawler.screen s ++ [n]) s)) ->
  triple P (Crawler.say n) Q X.
Proof. intros H s Hs. cbn. auto. Qed.

Lemma triple_raise {A} P e (Q : A -> Crawler.Site -> Prop) (X : exception -> Crawler.Site -> Prop) :
  (forall s, P s -> X e s) -> triple P (Crawler.raise e) Q X.
Proof. intros H s Hs. cbn. auto. Qed.

Lemma preserves_ret {A} I (a : A) : preserves I (mret a).
Proof. apply triple_ret. auto. Qed.

Lemma preserves_bind {A B} I (m : Crawler.E A) (k : A -> Crawler.E B) :
  preserves I m -> (forall a, preserves I (k a)) -> preserves I (m ≫= k).
Proof. intros Hm Hk. eapply triple_bind; [exact Hm|exact Hk]. Qed.

Lemma preserves_say I n :
  (forall s x, I s -> I (Crawler.with_screen x s)) -> preserves I (Crawler.say n).
Proof. intros H. apply triple_say. auto. Qed.

Lemma preserves_sleep lib I : preserves I (Crawler.sleep lib).
Proof.
  intros s Hs. unfold Crawler.sleep.
  destruct (Crawler.too_long lib (Crawler.delay s)); [cbn; auto|].
  destruct (Qle_bool 0 (Crawler.delay s)); cbn; auto.
Qed.

Lemma preserves_each {A} I (l : list A) body :
  (forall x, preserves I (body x)) -> preserves I (Crawler.each l body).
Proof.
  intros H. induction l as [|x l IH]; cbn [Crawler.each].
  - apply preserves_ret.
  - apply preserves_bind; [apply H|]. intros _. exact IH.
Qed.

(** ** The loop over the extracted proxies *)

Lemma record_new_spec (J : Crawler.Site -> Prop) (G : string -> Prop) proxies :
  (forall proxy, G proxy ->
     triple (fun s => J s /\ proxy ∉ Crawler.all_proxies s)
       (Crawler.update_all_proxies {[ proxy ]};; Crawler.save_proxy_instantly proxy)
       (fun _ => J) (fun _ _ => False)) ->
  Forall G proxies ->
  forall new_proxies,
    triple J (Crawler.record_new proxies new_proxies) (fun _ => J) (fun _ _ => False).
Proof.
  intros Hstep HG. induction HG as [|proxy rest Hp _ IH]; intros new_proxies.
  - apply triple_ret. auto.
  - intros s Hs. cbn [Crawler.record_new]. unfold mbind at 1, Crawler.E_bind at 1. cbn [Crawler.get].
    destruct (decide (proxy ∈ Crawler.all_proxies s)) as [Hin|Hout].
    + exact (IH new_proxies s Hs).
    + pose proof (Hstep proxy Hp s (conj Hs Hout)) as H.
      unfold mbind at 1, Crawler.E_bind at 1.
      unfold mbind at 1, Crawler.E_bind at 1.
      unfold mbind at 1, Crawler.E_bind at 1 in H.
      cbn [Crawler.update_all_proxies] in *.
      destruct (Crawler.save_proxy_instantly proxy _) as [[[]|e] s1]; [|destruct H].
      exact (IH _ s1 H).
Qed.

(** ** The body of [scrape_page] *)

Lemma scrape_body_spec lib recurse url max_pages (I J M K : Crawler.Site -> Prop) :
  (forall s x, M s -> M (Crawler.with_screen x s)) ->
  (forall s x, K s -> K (Crawler.with_screen x s)) ->
  (forall soup s,
     Crawler.session_get lib url = inr soup ->
     github url = true \/ max_pages <= 1
     \/ (forall links, Crawler.find_pagination_links lib soup url = Some links -> links = []) ->
     M s -> K s) ->
  (forall s x, I s ->
     J (Crawler.with_requested (Crawler.requested s ++ [url]) (Crawler.with_screen x s))) ->
  (forall s, (forall soup, Crawler.session_get lib url <> inr soup) -> J s -> K s) ->
  (forall soup,
     Crawler.session_get lib url = inr soup ->
     let proxies := Scraper.extract_proxies_from_text (Crawler.findall lib)
                      (Crawler.page_text soup) in
     if nonempty (elements proxies)
     then triple J (Crawler.record_new (Crawler.iterate lib proxies) [])
            (fun _ => M) (fun _ _ => False)
     else forall s, J s -> M s) ->
  (forall soup links,
     Crawler.session_get lib url = inr soup -> github url = false -> 1 < max_pages ->
     Crawler.find_pagination_links lib soup url = Some links ->
     triple M
       (Crawler.each (take (Z.to_nat (max_pages - 1)) links)
          (fun next_url => Crawler.sleep lib;; recurse next_url))
       (fun _ => K) (fun e s => K s /\ is_Exception e = true)) ->
  triple I (Crawler.scrape_body lib recurse url max_pages) (fun _ => K) (fun _ _ => False).
Proof.
  intros HM HK HMK Hreq Hfail Hfront Hrec s Hs.
  unfold Crawler.scrape_body.
  unfold mbind at 1, Crawler.E_bind at 1. cbn [Crawler.say].
  unfold mbind at 1, Crawler.E_bind at 1. cbn [Crawler.request].
  specialize (Hreq s (Crawler.screen s ++ [Crawler.Scraping url]) Hs).
  cbn [Crawler.requested Crawler.with_screen] in *.
  set (s1 := Crawler.with_requested _ _) in *.
  clearbody s1. clear s Hs. rename s1 into s, Hreq into Hs.
  destruct (Crawler.session_get lib url) as [[]|soup] eqn:Hget;
    [cbn; apply HK, Hfail; [discriminate|exact Hs] ..|].
  clear Hfail. specialize (Hfront soup eq_refl). cbv zeta in Hfront.
  specialize (HMK soup). specialize (fun s => HMK s eq_refl).
  revert s Hs.
  change (triple J
    (Crawler.try_except
       (let proxies := Scraper.extract_proxies_from_text (Crawler.findall lib)
                         (Crawler.page_text soup) in
        (if nonempty (elements proxies)
         then Crawler.record_new (Crawler.iterate lib proxies) [] ≫=
              (fun new_proxies : list string =>
               if nonempty new_proxies then Crawler.say (Crawler.FoundNew (len new_proxies) url)
               else Crawler.say (Crawler.AllDuplicates (Z.of_nat (size proxies)) url))
         else Crawler.say (Crawler.NoProxies url));;
        (if Str.contains "raw.githubusercontent.com" url || Str.contains "github.com" url
         then Crawler.say (Crawler.SkippingPagination url)
         else if 1 <? max_pages
              then match Crawler.find_pagination_links lib soup url with
                   | Some next_links =>
                       if nonempty next_links
                       then Crawler.say (Crawler.FoundPagination (len next_links)
                                           (Z.min (len next_links) (max_pages - 1)));;
                            Crawler.each (take (Z.to_nat (max_pages - 1)) next_links)
                              (fun next_url => Crawler.sleep lib;; recurse next_url)
                       else mret tt
                   | None => Crawler.raise ValueError
                   end
              else mret tt))
       [(is_Exception, fun _ => Crawler.say (Crawler.ErrorScraping url))])
    (fun _ => K) (fun _ _ => False)).
  apply triple_try with (X' := fun e s => K s /\ is_Exception e = true).
  - cbv zeta. apply triple_bind with (R := fun _ => M).
    + destruct (nonempty _).
      * apply triple_bind with (R := fun _ => M).
        -- eapply triple_weaken; [exact Hfront| |..]; cbn; auto. intros _ _ [].
        -- intros new_proxies. destruct (nonempty new_proxies); apply triple_say; auto.
      * apply triple_say; auto.
    + intros _. fold (github url). destruct (github url) eqn:Hgit.
      * apply triple_say. intros s Hs. apply HK, HMK; auto.
      * destruct (1 <? max_pages) eqn:Hmp.
        2:{ apply Z.ltb_ge in Hmp. apply triple_ret. intros s Hs. apply HMK; auto. }
        apply Z.ltb_lt in Hmp.
        destruct (Crawler.find_pagination_links lib soup url) as [links|] eqn:Hlinks.
        -- destruct links as [|u links]; cbn [nonempty].
           { apply triple_ret. intros s Hs. apply HMK; [|exact Hs].
             right. right. intros links' [= <-]. reflexivity. }
           apply triple_bind with (R := fun _ => M); [apply triple_say; auto|].
           intros _. eapply Hrec; eauto.
        -- apply triple_raise. intros s Hs. split; [|reflexivity]. apply HMK; [|exact Hs].
           right. right. intros links' [=].
  - intros e s [Hs He]. cbn [Crawler.handle]. rewrite He. cbn. auto.
Qed.

Lemma scrape_body_preserves lib recurse url max_pages
    (Inv : Crawler.Site -> Prop) (G : string -> Prop) :
  (forall s x, Inv s -> Inv (Crawler.with_screen x s)) ->
  (forall s x, Inv s -> Inv (Crawler.with_requested x s)) ->
  (forall soup, Crawler.session_get lib url = inr soup ->
     Forall G (Crawler.iterate lib
                 (Scraper.extract_proxies_from_text (Crawler.findall lib)
                    (Crawler.page_text soup)))) ->
  (forall proxy, G proxy ->
     triple (fun s => Inv s /\ proxy ∉ Crawler.all_proxies s)
       (Crawler.update_all_proxies {[ proxy ]};; Crawler.save_proxy_instantly proxy)
       (fun _ => Inv) (fun _ _ => False)) ->
  (forall u, preserves Inv (recurse u)) ->
  triple Inv (Crawler.scrape_body lib recurse url max_pages) (fun _ => Inv) (fun _ _ => False).
Proof.
  intros Hscreen Hlog HG Hstep Hrec.
  apply scrape_body_spec with (J := Inv) (M := Inv); auto.
  - intros soup Hget. cbv zeta. destruct (nonempty _); [|auto].
    apply (record_new_spec Inv G); auto.
  - intros soup links _ _ _ _. apply preserves_each. intros u.
    apply preserves_bind; [apply preserves_sleep|]. intros _. apply Hrec.
Qed.

Lemma never_raises_preserves {A} Inv (m : Crawler.E A) :
  triple Inv m (fun _ => Inv) (fun _ _ => False) -> preserves Inv m.
Proof. intros H. eapply triple_weaken; [exact H|..]; cbn; auto. intros _ _ []. Qed.

Lemma scrape_page_preserves lib url max_pages
    (Inv : Crawler.Site -> Prop) (G : string -> Prop) :
  (forall s x, Inv s -> Inv (Crawler.with_screen x s)) ->
  (forall s x, Inv s -> Inv (Crawler.with_requested x s)) ->
  (forall u soup, Crawler.session_get lib u = inr soup ->
     Forall G (Crawler.iterate lib
                 (Scraper.extract_proxies_from_text (Crawler.findall lib)
                    (Crawler.page_text soup)))) ->
  (forall proxy, G proxy ->
     triple (fun s => Inv s /\ proxy ∉ Crawler.all_proxies s)
       (Crawler.update_all_proxies {[ proxy ]};; Crawler.save_proxy_instantly proxy)
       (fun _ => Inv) (fun _ _ => False)) ->
  triple Inv (Crawler.scrape_page lib url max_pages) (fun _ => Inv) (fun _ _ => False).
Proof.
  intros Hscreen Hlog HG Hstep. unfold Crawler.scrape_page.
  apply scrape_body_preserves with (G := G);
    [exact Hscreen|exact Hlog|intros soup; apply HG|exact Hstep|].
  intros u. apply never_raises_preserves. unfold Crawler.scrape_last.
  apply scrape_body_preserves with (G := G);
    [exact Hscreen|exact Hlog|intros soup; apply HG|exact Hstep|].
  intros v. apply preserves_ret.
Qed.

(** ** What a scrape records *)

Lemma append_nil_r (a : string) : a +:+ "" = a.
Proof.
  induction a as [|c a IH]; [reflexivity|].
  change (String c (a +:+ "") = String c a). now rewrite IH.
Qed.

Lemma append_assoc (a b c : string) : (a +:+ b) +:+ c = a +:+ b +:+ c.
Proof.
  induction a as [|x a IH]; [reflexivity|].
  change (String x ((a +:+ b) +:+ c) = String x (a +:+ b +:+ c)). now rewrite IH.
Qed.

Lemma written_app l l' : written (l ++ l') = written l +:+ written l'.
Proof.
  induction l as [|x l IH]; [reflexivity|]. cbn [app written foldr].
  fold (written (l ++ l')). fold (written l). now rewrite IH, !append_assoc.
Qed.

Lemma grows_refl s : grows s s [].
Proof.
  unfold grows. repeat split; try reflexivity.
  - constructor.
  - intros x Hx. now apply elem_of_nil in Hx.
  - cbn. now rewrite (right_id_L ∅ (∪)).
  - destruct (decide _); [reflexivity|]. split; [|reflexivity].
    cbn. now rewrite append_nil_r.
Qed.

Lemma recorded_step s0 proxy :
  endpoint proxy ->
  triple (fun s => recorded s0 s /\ proxy ∉ Crawler.all_proxies s)
    (Crawler.update_all_proxies {[ proxy ]};; Crawler.save_proxy_instantly proxy)
    (fun _ => recorded s0) (fun _ _ => False).
Proof.
  intros Hp s [(added & Hg & He) Hout].
  destruct Hg as (Hpf & Hl & Hd & Hnd & Hnew & Hall & Hfiles).
  assert (Hadded : NoDup (added ++ [proxy])).
  { apply NoDup_app. split; [exact Hnd|]. split; [|apply NoDup_singleton].
    intros x Hx Hx'. apply list_elem_of_singleton in Hx'. subst x.
    apply Hout. rewrite Hall. apply elem_of_union. right. now apply elem_of_list_to_set. }
  assert (Hfresh : forall x, x ∈ added ++ [proxy] -> x ∉ Crawler.all_proxies s0).
  { intros x Hx. apply elem_of_app in Hx as [Hx|Hx]; [now apply Hnew|].
    apply list_elem_of_singleton in Hx. subst x. intros Hin. apply Hout.
    rewrite Hall. apply elem_of_union. now left. }
  assert (Hset : Crawler.all_proxies s ∪ {[ proxy ]}
                 = Crawler.all_proxies s0 ∪ list_to_set (added ++ [proxy])).
  { rewrite Hall, list_to_set_app_L. cbn. rewrite (right_id_L ∅ (∪)).
    now rewrite (assoc_L (∪)). }
  assert (Hends : Forall endpoint (added ++ [proxy])).
  { apply Forall_app. split; [exact He|]. now constructor. }
  unfold Crawler.update_all_proxies, Crawler.save_proxy_instantly,
    Crawler.try_except, Crawler.get, Crawler.append_text, mbind, Crawler.E_bind. cbn.
  destruct (decide (Crawler.proxy_file s ∈ Crawler.locked s)) as [Hlocked|Hopen]; cbn.
  - exists (added ++ [proxy]). split; [|exact Hends].
    repeat split; cbn; try assumption.
    rewrite Hpf, Hl in Hlocked. destruct (decide _) as [_|Hno]; [exact Hfiles|].
    destruct (Hno Hlocked).
  - exists (added ++ [proxy]). split; [|exact Hends].
    repeat split; cbn; try assumption.
    rewrite Hpf, Hl in Hopen. destruct (decide _) as [Hyes|_]; [destruct (Hopen Hyes)|].
    destruct Hfiles as [Hlines Hrest]. unfold proxy_text in *. cbn. split.
    + rewrite lookup_insert_eq. cbn. rewrite Hlines, written_app. cbn [written foldr].
      now rewrite append_nil_r, append_assoc.
    + intros path Hpath. rewrite lookup_insert_ne by congruence. now apply Hrest.
Qed.

Lemma recorded_screen s0 s x : recorded s0 s -> recorded s0 (Crawler.with_screen x s).
Proof. intros (added & Hg & He). exists added. split; [exact Hg|exact He]. Qed.

Lemma recorded_requested s0 s x : recorded s0 s -> recorded s0 (Crawler.with_requested x s).
Proof. intros (added & Hg & He). exists added. split; [exact Hg|exact He]. Qed.

Lemma extract_endpoint findall text x :
  x ∈ Scraper.extract_proxies_from_text findall text -> endpoint x.
Proof.
  intros Hx. split; [now apply extract_valid in Hx|].
  unfold Scraper.extract_proxies_from_text, Scraper.proxy_patterns in Hx. cbn [foldl] in Hx.
  rewrite !extract_step_iff in Hx.
  destruct Hx as [[Hx|(m & _ & -> & _)]|(m & _ & -> & _)];
    [now apply not_elem_of_empty in Hx|apply remove_spaces_idem ..].
Qed.

Lemma each_once_endpoints lib text :
  each_once lib ->
  Forall endpoint
    (Crawler.iterate lib (Scraper.extract_proxies_from_text (Crawler.findall lib) text)).
Proof.
  intros Hlib. apply Forall_forall. intros x Hx. rewrite (Hlib _) in Hx.
  apply elem_of_elements in Hx. exact (extract_endpoint _ _ _ Hx).
Qed.

(** X17. Whatever the web answers, [scrape_page] returns, and what it
    leaves behind differs from what it found by a list [added] of
    distinct new strings, each of which passes the validation and holds
    no blank: these have joined [all_proxies], from which nothing is
    removed, and they are new last lines of the proxy file, in the
    order in which they were found. No other file changes; when the
    proxy file cannot be opened the whole disk stays as it was, while the
    set still grows. *)
Theorem scrape_page_grows lib url max_pages s :
  each_once lib ->
  (Crawler.scrape_page lib url max_pages s).1 = Returns tt
  /\ exists added,
       grows s (Crawler.scrape_page lib url max_pages s).2 added
       /\ Forall endpoint added.
Proof.
  intros Hlib.
  pose proof (scrape_page_preserves lib url max_pages (recorded s) endpoint
                (recorded_screen s) (recorded_requested s)
                (fun _ soup _ => each_once_endpoints lib _ Hlib)
                (recorded_step s) s) as H.
  destruct (Crawler.scrape_page lib url max_pages s) as [[[]|e] s'].
  - split; [reflexivity|]. apply H. exists []. split; [apply grows_refl|constructor].
  - destruct H. exists []. split; [apply grows_refl|constructor].
Qed.

Lemma scrape_page_grows_witness :
  each_once demo_lib
  /\ (Crawler.scrape_page demo_lib "http://a.example/list" 5 demo_site).1 = Returns tt
  /\ exists added,
       grows demo_site (Crawler.scrape_page demo_lib "http://a.example/list" 5 demo_site).2 added
       /\ Forall endpoint added.
Proof.
  assert (H : each_once demo_lib) by (intros X; reflexivity).
  split; [exact H|]. exact (scrape_page_grows demo_lib "http://a.example/list" 5 demo_site H).
Defined.

(** ** What a scrape collects *)

Lemma record_step_eq proxy s :
  exists s',
    (Crawler.update_all_proxies {[ proxy ]};; Crawler.save_proxy_instantly proxy) s
    = (Returns tt, s')
    /\ Crawler.all_proxies s' = Crawler.all_proxies s ∪ {[ proxy ]}
    /\ Crawler.requested s' = Crawler.requested s
    /\ Crawler.delay s' = Crawler.delay s.
Proof.
  unfold Crawler.update_all_proxies, Crawler.save_proxy_instantly,
    Crawler.try_except, Crawler.get, Crawler.append_text, mbind, Crawler.E_bind. cbn.
  destruct (decide (Crawler.proxy_file s ∈ Crawler.locked s)); cbn;
    eexists; split; try reflexivity; repeat split; reflexivity.
Qed.

Lemma record_step_triple (Inv : Crawler.Site -> Prop) proxy :
  (forall s s', Inv s ->
     Crawler.all_proxies s' = Crawler.all_proxies s ∪ {[ proxy ]} ->
     Crawler.requested s' = Crawler.requested s ->
     Crawler.delay s' = Crawler.delay s -> Inv s') ->
  triple (fun s => Inv s /\ proxy ∉ Crawler.all_proxies s)
    (Crawler.update_all_proxies {[ proxy ]};; Crawler.save_proxy_instantly proxy)
    (fun _ => Inv) (fun _ _ => False).
Proof.
  intros H s [Hs _]. destruct (record_step_eq proxy s) as (s' & -> & Hall & Hreq & Hd).
  exact (H s s' Hs Hall Hreq Hd).
Qed.

Lemma record_new_collects proxies :
  forall (seen new_proxies : list string),
    triple (fun s => forall x, x ∈ seen -> x ∈ Crawler.all_proxies s)
      (Crawler.record_new proxies new_proxies)
      (fun _ s => forall x, x ∈ seen ++ proxies -> x ∈ Crawler.all_proxies s)
      (fun _ _ => False).
Proof.
  induction proxies as [|proxy rest IH]; intros seen new_proxies s Hs.
  - cbn. now rewrite app_nil_r.
  - cbn [Crawler.record_new]. unfold mbind at 1, Crawler.E_bind at 1. cbn [Crawler.get].
    replace (seen ++ proxy :: rest) with ((seen ++ [proxy]) ++ rest)
      by now rewrite <- (assoc_L (++)).
    destruct (decide (proxy ∈ Crawler.all_proxies s)) as [Hin|Hout].
    + apply IH. intros x Hx. apply elem_of_app in Hx as [Hx|Hx]; [now apply Hs|].
      apply list_elem_of_singleton in Hx. now subst x.
    + unfold mbind at 1, Crawler.E_bind at 1. unfold mbind at 1, Crawler.E_bind at 1.
      destruct (record_step_eq proxy s) as (s' & Hrun & Hall & _).
      unfold mbind at 1, Crawler.E_bind at 1 in Hrun.
      cbn [Crawler.update_all_proxies] in *.
      destruct (Crawler.save_proxy_instantly proxy _) as [[[]|e] s1]; [|discriminate Hrun].
      injection Hrun as ->.
      apply IH. intros x Hx. rewrite Hall. apply elem_of_union.
      apply elem_of_app in Hx as [Hx|Hx]; [left; now apply Hs|right].
      apply list_elem_of_singleton in Hx. subst x. now apply elem_of_singleton.
Qed.

Lemma holds_screen (X : gset string) s (x : list Crawler.note) :
  X ⊆ Crawler.all_proxies s -> X ⊆ Crawler.all_proxies (Crawler.with_screen x s).
Proof. auto. Qed.

Lemma holds_requested (X : gset string) s (x : list string) :
  X ⊆ Crawler.all_proxies s -> X ⊆ Crawler.all_proxies (Crawler.with_requested x s).
Proof. auto. Qed.

(** X18. When the request for [url] is answered with a page, every
    string that [extract_proxies_from_text] finds in the text of the page
    is in [all_proxies] when [scrape_page] returns, whatever the further
    pages do. *)
Theorem scrape_page_collects lib url max_pages soup s :
  each_once lib ->
  Crawler.session_get lib url = inr soup ->
  Scraper.extract_proxies_from_text (Crawler.findall lib) (Crawler.page_text soup)
  ⊆ Crawler.all_proxies (Crawler.scrape_page lib url max_pages s).2.
Proof.
  intros Hlib Hget.
  set (X := Scraper.extract_proxies_from_text (Crawler.findall lib) (Crawler.page_text soup)).
  assert (Hstep : forall proxy, True ->
            triple (fun s => X ⊆ Crawler.all_proxies s /\ proxy ∉ Crawler.all_proxies s)
              (Crawler.update_all_proxies {[ proxy ]};; Crawler.save_proxy_instantly proxy)
              (fun _ s => X ⊆ Crawler.all_proxies s) (fun _ _ => False)).
  { intros proxy _. apply record_step_triple. intros s1 s2 Hs Hall _ _.
    rewrite Hall. now apply union_subseteq_l'. }
  assert (H : triple (fun _ => True) (Crawler.scrape_page lib url max_pages)
                (fun _ s => X ⊆ Crawler.all_proxies s) (fun _ _ => False)).
  { unfold Crawler.scrape_page.
    apply scrape_body_spec with (J := fun _ => True) (M := fun s => X ⊆ Crawler.all_proxies s);
      auto.
    - intros s1 Hno. destruct (Hno soup Hget).
    - intros soup' Hget'. rewrite Hget in Hget'. injection Hget' as <-. cbv zeta. fold X.
      destruct (elements X) as [|x0 rest] eqn:Hel; cbn [nonempty].
      + intros s1 _ x Hx. apply elem_of_elements in Hx. rewrite Hel in Hx.
        now apply elem_of_nil in Hx.
      + eapply triple_weaken; [apply (record_new_collects _ [] [])| | |].
        * intros s1 _ x Hx. now apply elem_of_nil in Hx.
        * intros a s1 Hs x Hx. apply Hs. rewrite app_nil_l, (Hlib X).
          now apply elem_of_elements.
        * intros _ _ [].
    - intros soup' links _ _ _ _. apply preserves_each. intros u.
      apply preserves_bind; [apply preserves_sleep|]. intros _.
      apply never_raises_preserves. unfold Crawler.scrape_last.
      apply scrape_body_preserves with (G := fun _ => True).
      + apply holds_screen.
      + apply holds_requested.
      + intros soup'' _. apply Forall_forall. auto.
      + exact Hstep.
      + intros v. apply preserves_ret. }
  specialize (H s I).
  destruct (Crawler.scrape_page lib url max_pages s) as [[[]|e] s']; [exact H|destruct H].
Qed.

Lemma scrape_page_collects_witness :
  each_once demo_lib
  /\ Crawler.session_get demo_lib "http://a.example/list" = inr demo_page
  /\ Scraper.extract_proxies_from_text (Crawler.findall demo_lib) (Crawler.page_text demo_page)
     ⊆ Crawler.all_proxies (Crawler.scrape_page demo_lib "http://a.example/list" 5 demo_site).2.
Proof.
  assert (H : each_once demo_lib) by (intros X; reflexivity).
  split; [exact H|]. split; [reflexivity|].
  exact (scrape_page_collects demo_lib "http://a.example/list" 5 demo_page demo_site
           H eq_refl).
Defined.

(** ** The requests of a scrape *)

Lemma record_new_quiet r proxies new_proxies :
  triple (fun s => Crawler.requested s = r) (Crawler.record_new proxies new_proxies)
    (fun _ s => Crawler.requested s = r) (fun _ _ => False).
Proof.
  apply (record_new_spec _ (fun _ => True)); [|apply Forall_forall; auto].
  intros proxy _. apply record_step_triple. intros s s' Hs _ Hreq _. congruence.
Qed.

Lemma quiet_front lib url (r : list string) soup :
  Crawler.session_get lib url = inr soup ->
  let proxies := Scraper.extract_proxies_from_text (Crawler.findall lib)
                   (Crawler.page_text soup) in
  if nonempty (elements proxies)
  then triple (fun s => Crawler.requested s = r)
         (Crawler.record_new (Crawler.iterate lib proxies) [])
         (fun _ s => Crawler.requested s = r) (fun _ _ => False)
  else forall s, Crawler.requested s = r -> Crawler.requested s = r.
Proof. intros _. cbv zeta. destruct (nonempty _); [apply record_new_quiet|auto]. Qed.

Lemma scrape_last_requests lib url r :
  triple (fun s => Crawler.requested s = r) (Crawler.scrape_last lib url)
    (fun _ s => Crawler.requested s = r ++ [url]) (fun _ _ => False).
Proof.
  unfold Crawler.scrape_last.
  apply scrape_body_spec with (J := fun s => Crawler.requested s = r ++ [url])
                              (M := fun s => Crawler.requested s = r ++ [url]); auto.
  - intros s x Hs. cbn. now rewrite Hs.
  - intros soup Hget. exact (quiet_front lib url (r ++ [url]) soup Hget).
  - intros soup links _ _ Hlt. lia.
Qed.

Lemma each_requests lib links :
  forall r,
    triple (fun s => Crawler.requested s = r)
      (Crawler.each links (fun next_url => Crawler.sleep lib;; Crawler.scrape_last lib next_url))
      (fun _ s => exists more, more `prefix_of` links /\ Crawler.requested s = r ++ more)
      (fun e s => (exists more, more `prefix_of` links /\ Crawler.requested s = r ++ more)
                  /\ is_Exception e = true).
Proof.
  induction links as [|u links IH]; intros r.
  - apply triple_ret. intros s Hs. exists []. split; [reflexivity|now rewrite app_nil_r].
  - cbn [Crawler.each].
    apply triple_bind with (R := fun _ s => Crawler.requested s = r ++ [u]).
    + apply triple_bind with (R := fun _ s => Crawler.requested s = r).
      * intros s Hs. unfold Crawler.sleep.
        destruct (Crawler.too_long lib (Crawler.delay s));
          [|destruct (Qle_bool 0 (Crawler.delay s)); [exact Hs|]];
          (split; [|reflexivity]; exists []; split; [apply prefix_nil|now rewrite app_nil_r]).
      * intros _. eapply triple_weaken; [apply (scrape_last_requests lib u r)| | |];
          [auto|auto|intros _ _ []].
    + intros _. eapply triple_weaken; [apply (IH (r ++ [u]))| | |]; [auto| |].
      * intros a s (more & Hpre & Hs). exists (u :: more).
        split; [now apply prefix_cons|]. rewrite Hs. now rewrite <- (assoc_L (++)).
      * intros e s [(more & Hpre & Hs) He]. split; [|exact He]. exists (u :: more).
        split; [now apply prefix_cons|]. rewrite Hs. now rewrite <- (assoc_L (++)).
Qed.

(** X19. A call of [scrape_page] sends the request for [url] first and
    then at most [max_pages - 1] further requests, none when [max_pages]
    is 1 or less; each further request goes to a pagination link of the
    page received for [url], so that a link found only on one of the
    further pages is not followed. *)
Theorem scrape_page_requests lib url max_pages s :
  exists more,
    Crawler.requested (Crawler.scrape_page lib url max_pages s).2
    = Crawler.requested s ++ url :: more
    /\ len more <= Z.max 0 (max_pages - 1)
    /\ forall u, u ∈ more ->
         exists soup links,
           Crawler.session_get lib url = inr soup
           /\ Crawler.find_pagination_links lib soup url = Some links
           /\ u ∈ links.
Proof.
  set (K := fun s' : Crawler.Site =>
              exists more,
                Crawler.requested s' = Crawler.requested s ++ url :: more
                /\ len more <= Z.max 0 (max_pages - 1)
                /\ forall u, u ∈ more ->
                     exists soup links,
                       Crawler.session_get lib url = inr soup
                       /\ Crawler.find_pagination_links lib soup url = Some links
                       /\ u ∈ links).
  assert (Hone : forall s', Crawler.requested s' = Crawler.requested s ++ [url] -> K s').
  { intros s' Hs'. exists []. split; [exact Hs'|]. split; [unfold len; cbn; lia|].
    intros u Hu. now apply elem_of_nil in Hu. }
  assert (H : triple (fun s' => Crawler.requested s' = Crawler.requested s)
                (Crawler.scrape_page lib url max_pages) (fun _ => K) (fun _ _ => False)).
  { unfold Crawler.scrape_page.
    apply scrape_body_spec
      with (J := fun s' => Crawler.requested s' = Crawler.requested s ++ [url])
           (M := fun s' => Crawler.requested s' = Crawler.requested s ++ [url]); auto.
    - intros s' x Hs'. cbn. now rewrite Hs'.
    - intros soup Hget. exact (quiet_front lib url _ soup Hget).
    - intros soup links Hget _ Hlt Hlinks.
      assert (Hmore : forall more s',
                more `prefix_of` take (Z.to_nat (max_pages - 1)) links ->
                Crawler.requested s' = (Crawler.requested s ++ [url]) ++ more -> K s').
      { intros more s' Hpre Hs'. exists more.
        split; [rewrite Hs'; now rewrite <- (assoc_L (++))|]. split.
        - apply prefix_length in Hpre. rewrite length_take in Hpre. unfold len. lia.
        - intros u Hu. exists soup, links. split; [exact Hget|]. split; [exact Hlinks|].
          destruct Hpre as [rest Hrest].
          assert (Hin : u ∈ take (Z.to_nat (max_pages - 1)) links)
            by (rewrite Hrest; apply elem_of_app; now left).
          apply list_elem_of_lookup in Hin as [i Hi].
          apply lookup_take_Some in Hi as [Hi _].
          apply list_elem_of_lookup. now exists i. }
      eapply triple_weaken;
        [apply (each_requests lib _ (Crawler.requested s ++ [url]))| | |]; [auto| |].
      + intros a s' (more & Hpre & Hs'). eauto.
      + intros e s' [(more & Hpre & Hs') He]. split; [eauto|exact He]. }
  specialize (H s eq_refl).
  destruct (Crawler.scrape_page lib url max_pages s) as [[[]|e] s']; [exact H|destruct H].
Qed.

(** X20. For an address that contains [github.com], and whenever
    [max_pages] is 1 or less, [scrape_page] sends exactly one request. *)
Theorem scrape_page_single_request lib url max_pages s :
  github url = true \/ max_pages <= 1 ->
  Crawler.requested (Crawler.scrape_page lib url max_pages s).2
  = Crawler.requested s ++ [url].
Proof.
  intros Hone.
  assert (H : triple (fun s' => Crawler.requested s' = Crawler.requested s)
                (Crawler.scrape_page lib url max_pages)
                (fun _ s' => Crawler.requested s' = Crawler.requested s ++ [url])
                (fun _ _ => False)).
  { unfold Crawler.scrape_page.
    apply scrape_body_spec
      with (J := fun s' => Crawler.requested s' = Crawler.requested s ++ [url])
           (M := fun s' => Crawler.requested s' = Crawler.requested s ++ [url]); auto.
    - intros s' x Hs'. cbn. now rewrite Hs'.
    - intros soup Hget. exact (quiet_front lib url _ soup Hget).
    - intros soup links _ Hgit Hlt _. destruct Hone as [Hone|Hone]; [congruence|lia]. }
  specialize (H s eq_refl).
  destruct (Crawler.scrape_page lib url max_pages s) as [[[]|e] s']; [exact H|destruct H].
Qed.

Lemma scrape_page_single_request_witness :
  (github "https://raw.githubusercontent.com/a/b/master/list.txt" = true \/ 5 <= 1)
  /\ Crawler.requested
       (Crawler.scrape_page demo_lib "https://raw.githubusercontent.com/a/b/master/list.txt"
          5 demo_site).2
     = Crawler.requested demo_site
       ++ ["https://raw.githubusercontent.com/a/b/master/list.txt"].
Proof.
  split; [left; reflexivity|].
  apply (scrape_page_single_request demo_lib
           "https://raw.githubusercontent.com/a/b/master/list.txt" 5 demo_site).
  left. reflexivity.
Defined.

(** ** Reading the proxy file back *)

Lemma remove_spaces_length s :
  (String.length (Py.remove_spaces s) <= String.length s)%nat.
Proof.
  induction s as [|c s IH]; cbn; [lia|]. destruct (Py.isspace c); cbn; lia.
Qed.

Lemma noblank_chars s :
  Py.remove_spaces s = s -> Forall (fun c => Py.isspace c = false) (list_ascii_of_string s).
Proof.
  induction s as [|c s IH]; cbn; [constructor|].
  destruct (Py.isspace c) eqn:Hc; intros H.
  - apply (f_equal String.length) in H. cbn in H.
    pose proof (remove_spaces_length s). lia.
  - injection H as H. constructor; auto.
Qed.

Lemma chars_rev_onto s acc :
  list_ascii_of_string (Py.rev_onto s acc)
  = List.rev (list_ascii_of_string s) ++ list_ascii_of_string acc.
Proof.
  revert acc. induction s as [|c s IH]; intros acc; cbn; [reflexivity|].
  rewrite IH. cbn. now rewrite <- app_assoc.
Qed.

Lemma drop_while_none f s :
  Forall (fun c => f c = false) (list_ascii_of_string s) -> Py.drop_while f s = s.
Proof.
  destruct s as [|c s]; cbn; [reflexivity|]. intros H. inversion H as [|? ? Hc _]; subst.
  now rewrite Hc.
Qed.

Lemma rev_rev s : Py.rev (Py.rev s) = s.
Proof.
  rewrite <- (string_of_list_ascii_of_string (Py.rev (Py.rev s))). unfold Py.rev.
  rewrite !chars_rev_onto. cbn. rewrite !app_nil_r, rev_involutive.
  apply string_of_list_ascii_of_string.
Qed.

Lemma noblank_strip x : Py.remove_spaces x = x -> Py.strip x = x.
Proof.
  intros H. apply noblank_chars in H. unfold Py.strip, Py.strip_with.
  rewrite (drop_while_none _ x H). rewrite drop_while_none; [apply rev_rev|].
  unfold Py.rev. rewrite chars_rev_onto. cbn. rewrite app_nil_r. now apply Forall_rev.
Qed.

Lemma append_cons c (a b : string) : String c a +:+ b = String c (a +:+ b).
Proof. reflexivity. Qed.

Lemma append_eq_nil (a b : string) : a +:+ b = "" -> a = "" /\ b = "".
Proof. destruct a as [|c a]; [auto|]. rewrite append_cons. discriminate. Qed.

Lemma chars_append (a b : string) :
  list_ascii_of_string (a +:+ b) = list_ascii_of_string a ++ list_ascii_of_string b.
Proof.
  induction a as [|c a IH]; [reflexivity|]. rewrite append_cons. cbn. now rewrite IH.
Qed.

Lemma rev_snoc p c : Py.rev (p +:+ String c "") = String c (Py.rev p).
Proof.
  rewrite <- (string_of_list_ascii_of_string (Py.rev (p +:+ String c ""))),
    <- (string_of_list_ascii_of_string (String c (Py.rev p))).
  f_equal. unfold Py.rev. cbn [list_ascii_of_string].
  rewrite !chars_rev_onto, chars_append. cbn. rewrite !app_nil_r. apply rev_unit.
Qed.

Lemma strip_line p : Py.remove_spaces p = p -> Py.strip (p +:+ Str.newline) = p.
Proof.
  intros H. pose proof (noblank_chars p H) as Hc.
  destruct p as [|a p]; [reflexivity|].
  unfold Py.strip, Py.strip_with, Str.newline.
  assert (Ha : Py.isspace a = false) by (inversion Hc; assumption).
  rewrite append_cons. cbn [Py.drop_while]. rewrite Ha, <- append_cons.
  rewrite rev_snoc. cbn [Py.drop_while].
  replace (Py.isspace "010") with true by reflexivity.
  rewrite drop_while_none; [apply rev_rev|].
  unfold Py.rev. rewrite chars_rev_onto. cbn [list_ascii_of_string].
  rewrite app_nil_r. now apply Forall_rev.
Qed.

Lemma endpoint_one_line x : endpoint x -> one_line x.
Proof.
  intros [Hv Hb]. split; [intros ->; discriminate Hv|].
  eapply Forall_impl; [exact (noblank_chars x Hb)|]. intros c Hc. cbn beta in Hc.
  split.
  - destruct (Ascii.eqb c "010") eqn:E; [|reflexivity].
    apply Ascii.eqb_eq in E. subst c. discriminate Hc.
  - destruct (Ascii.eqb c "013") eqn:E; [|reflexivity].
    apply Ascii.eqb_eq in E. subst c. discriminate Hc.
Qed.

Lemma all_lines_of_app f g : all_lines_of (f ++ g) = all_lines_of f ++ all_lines_of g.
Proof. unfold all_lines_of. now rewrite filter_app, fmap_app. Qed.

Lemma all_lines_of_written added :
  Forall endpoint added ->
  all_lines_of ((fun proxy => proxy +:+ Str.newline) <$> added) = added.
Proof.
  unfold all_lines_of. induction 1 as [|x l [Hv Hb] _ IH]; [reflexivity|].
  cbn [fmap list_fmap]. rewrite filter_cons, (strip_line x Hb).
  destruct x as [|c x]; [discriminate Hv|]. cbn [Py.truthy].
  rewrite decide_True by exact I. cbn [fmap list_fmap].
  rewrite (strip_line (String c x) Hb). f_equal. exact IH.
Qed.

(** ** The lines of a text *)

Lemma readlines_nil s : Str.readlines s = [] -> s = "".
Proof.
  destruct s as [|a s]; [reflexivity|]. cbn [Str.readlines].
  destruct (Ascii.eqb a "010"); [discriminate|].
  destruct (Ascii.eqb a "013").
  - destruct s as [|b s]; [discriminate|]. destruct (Ascii.eqb b "010"); discriminate.
  - destruct (Str.readlines s); discriminate.
Qed.

Lemma ends_line_tail a s : ends_line (String a s) = true -> ends_line s = true.
Proof. destruct s; [reflexivity|]. cbn. auto. Qed.

Lemma readlines_app_bounded n :
  forall c t : string,
    (String.length c <= n)%nat ->
    ends_line c = true ->
    (forall t', t <> String "010" t') ->
    Str.readlines (c +:+ t) = Str.readlines c ++ Str.readlines t.
Proof.
  induction n as [|n IH]; intros c t Hlen Hend Ht.
  - destruct c; [reflexivity|cbn in Hlen; lia].
  - destruct c as [|a c]; [reflexivity|]. cbn [String.length] in Hlen.
    rewrite append_cons. cbn [Str.readlines].
    destruct (Ascii.eqb a "010") eqn:Ha.
    { rewrite (IH c t); [reflexivity|lia|exact (ends_line_tail _ _ Hend)|exact Ht]. }
    destruct (Ascii.eqb a "013") eqn:Hb.
    + destruct c as [|b c].
      * change ("" +:+ t) with t. destruct t as [|x t]; [reflexivity|].
        destruct (Ascii.eqb x "010") eqn:Hx; [|reflexivity].
        apply Ascii.eqb_eq in Hx. subst x. destruct (Ht t eq_refl).
      * rewrite append_cons. cbn [String.length] in Hlen.
        apply ends_line_tail in Hend.
        destruct (Ascii.eqb b "010") eqn:Hb'.
        -- rewrite (IH c t); [reflexivity|lia|exact (ends_line_tail _ _ Hend)|exact Ht].
        -- rewrite <- append_cons. rewrite (IH (String b c) t); [reflexivity| |exact Hend|exact Ht].
           cbn [String.length]. lia.
    + destruct c as [|b c]; [cbn in Hend; rewrite Ha, Hb in Hend; discriminate Hend|].
      rewrite (IH (String b c) t); [|lia|exact (ends_line_tail _ _ Hend)|exact Ht].
      destruct (Str.readlines (String b c)) as [|line rest] eqn:Hlines; [|reflexivity].
      apply readlines_nil in Hlines. discriminate Hlines.
Qed.

Lemma readlines_app (c t : string) :
  ends_line c = true -> (forall t', t <> String "010" t') ->
  Str.readlines (c +:+ t) = Str.readlines c ++ Str.readlines t.
Proof. apply (readlines_app_bounded (String.length c)). lia. Qed.

Lemma readlines_one_line p :
  Forall (fun c => Ascii.eqb c "010" = false /\ Ascii.eqb c "013" = false)
    (list_ascii_of_string p) ->
  Str.readlines (p +:+ Str.newline) = [p +:+ Str.newline].
Proof.
  induction p as [|a p IH]; intros H; [reflexivity|].
  cbn [list_ascii_of_string] in H. inversion H as [|? ? [Ha Hb] Hp]; subst.
  rewrite append_cons. cbn [Str.readlines]. rewrite Ha, Hb, (IH Hp). reflexivity.
Qed.

Lemma readlines_unended l : one_line l -> Str.readlines l = [l].
Proof.
  intros [Hne H]. induction l as [|a l IH]; [congruence|].
  cbn [list_ascii_of_string] in H. inversion H as [|? ? [Ha Hb] Hl]; subst.
  cbn [Str.readlines]. rewrite Ha, Hb.
  destruct l as [|b l]; [reflexivity|]. rewrite IH; [reflexivity|discriminate|exact Hl].
Qed.

Lemma ends_line_newline p : ends_line (p +:+ Str.newline) = true.
Proof.
  induction p as [|a p IH]; [reflexivity|]. rewrite append_cons.
  destruct (p +:+ Str.newline) as [|b q] eqn:E; [|exact IH].
  apply append_eq_nil in E as [_ E]. discriminate E.
Qed.

Lemma ends_line_app (c t : string) : t <> "" -> ends_line (c +:+ t) = ends_line t.
Proof.
  intros Ht. induction c as [|a c IH]; [reflexivity|]. rewrite append_cons.
  destruct (c +:+ t) as [|b q] eqn:E; [|exact IH].
  apply append_eq_nil in E as [_ E]. congruence.
Qed.

Lemma written_nil l : written l = "" -> l = [].
Proof.
  destruct l as [|x l]; [reflexivity|]. cbn [written foldr]. intros H.
  apply append_eq_nil in H as [_ H]. apply append_eq_nil in H as [H _]. discriminate H.
Qed.

Lemma ends_line_written l : ends_line (written l) = true.
Proof.
  induction l as [|x l IH]; [reflexivity|]. cbn [written foldr]. fold (written l).
  rewrite <- append_assoc. destruct l as [|y l].
  - cbn [written foldr]. rewrite append_nil_r. apply ends_line_newline.
  - rewrite ends_line_app; [exact IH|]. intros H. apply written_nil in H. discriminate H.
Qed.

Lemma written_head l : Forall one_line l -> forall t', written l <> String "010" t'.
Proof.
  intros H t'. destruct H as [|x l [Hne Hx] _]; [discriminate|].
  cbn [written foldr]. destruct x as [|a x]; [congruence|].
  rewrite append_cons. cbn [list_ascii_of_string] in Hx.
  inversion Hx as [|? ? [Ha _] _]; subst. intros [= -> _]. discriminate Ha.
Qed.

Lemma readlines_written l :
  Forall one_line l ->
  Str.readlines (written l) = (fun proxy => proxy +:+ Str.newline) <$> l.
Proof.
  induction 1 as [|x l Hx Hl IH]; [reflexivity|]. cbn [written foldr]. fold (written l).
  rewrite <- append_assoc.
  rewrite readlines_app; [|apply ends_line_newline|exact (written_head l Hl)].
  rewrite (readlines_one_line x (proj2 Hx)), IH. reflexivity.
Qed.

Lemma load_existing_proxies_frame s :
  let s' := (Crawler.load_existing_proxies s).2 in
  (Crawler.load_existing_proxies s).1 = Returns tt
  /\ Crawler.files s' = Crawler.files s
  /\ Crawler.proxy_file s' = Crawler.proxy_file s
  /\ Crawler.locked s' = Crawler.locked s
  /\ Crawler.all_proxies s'
     = (if decide (Crawler.proxy_file s ∈ Crawler.locked s) then Crawler.all_proxies s
        else match Crawler.files s !! Crawler.proxy_file s with
             | Some text =>
                 Crawler.all_proxies s ∪ list_to_set (all_lines_of (Str.readlines text))
             | None => Crawler.all_proxies s
             end).
Proof.
  cbv zeta.
  unfold Crawler.load_existing_proxies, Crawler.try_except, Crawler.exists_,
    Crawler.read_lines, Crawler.get, mbind, Crawler.E_bind.
  destruct (Crawler.files s !! Crawler.proxy_file s) as [f|] eqn:Hf; cbn;
    destruct (decide _) as [Hin|Hout]; cbn; rewrite ?Hf; cbn;
    repeat split; reflexivity.
Qed.

Lemma scrape_page_recorded lib url max_pages s :
  each_once lib -> recorded s (Crawler.scrape_page lib url max_pages s).2.
Proof.
  intros Hlib.
  pose proof (scrape_page_preserves lib url max_pages (recorded s) endpoint
                (recorded_screen s) (recorded_requested s)
                (fun _ soup _ => each_once_endpoints lib _ Hlib)
                (recorded_step s) s) as H.
  destruct (Crawler.scrape_page lib url max_pages s) as [[[]|e] s']; cbn.
  - apply H. exists []. split; [apply grows_refl|constructor].
  - destruct H. exists []. split; [apply grows_refl|constructor].
Qed.

(** X21. A scraper whose set holds what its proxy file would give to a
    new scraper, the file ending with the end of a line, is in the same
    position after [scrape_page]: everything the call has added to the
    set is in the file, on a line of its own that is read back
    unchanged. *)
Theorem scrape_page_keeps_in_sync lib url max_pages s :
  each_once lib -> in_sync s ->
  in_sync (Crawler.scrape_page lib url max_pages s).2.
Proof.
  intros Hlib [(Hname & Hopen & Hall) Hend].
  destruct (scrape_page_recorded lib url max_pages s Hlib) as (added & Hg & He).
  destruct Hg as (Hpf & Hl & _ & _ & _ & Hall' & Hfiles).
  destruct (decide _) as [Hlocked|_]; [destruct (Hopen Hlocked)|].
  destruct Hfiles as [Htext _].
  assert (Hone : Forall one_line added)
    by (eapply Forall_impl; [exact He|apply endpoint_one_line]).
  split; [split; [congruence|split; [rewrite Hpf, Hl; exact Hopen|]]|].
  - rewrite Hall', Hall, Htext.
    rewrite readlines_app; [|exact Hend|exact (written_head added Hone)].
    rewrite all_lines_of_app, list_to_set_app_L, (readlines_written added Hone).
    now rewrite (all_lines_of_written added He).
  - rewrite Htext. destruct added as [|x added].
    + cbn [written foldr]. now rewrite append_nil_r.
    + rewrite ends_line_app; [apply ends_line_written|].
      intros H. apply written_nil in H. discriminate H.
Qed.

(** X22. When the file [proxy_list.txt] can be opened, a new scraper
    starts in step with it and leaves it as it is; and for a scraper that
    is in step with its file, a new scraper created on the same disk
    starts with the same set of proxies: nothing that was scraped is lost
    by stopping and starting again. *)
Theorem restart_recovers delay s :
  "proxy_list.txt" ∉ Crawler.locked s ->
  in_step (Crawler.init delay s)
  /\ proxy_text (Crawler.init delay s)
     = default EmptyString (Crawler.files s !! "proxy_list.txt")
  /\ (in_step s -> Crawler.all_proxies (Crawler.init delay s) = Crawler.all_proxies s).
Proof.
  intros Hopen. unfold Crawler.init.
  set (s0 := Crawler.mkSite ∅ "proxy_list.txt" delay (Crawler.files s) (Crawler.locked s)
               (Crawler.requested s) (Crawler.screen s)).
  destruct (load_existing_proxies_frame s0) as (_ & Hfiles & Hpf & Hl & Hall).
  cbv zeta in *. cbn [s0 Crawler.proxy_file Crawler.locked Crawler.files Crawler.all_proxies]
    in Hfiles, Hpf, Hl, Hall.
  rewrite decide_False in Hall by exact Hopen.
  assert (Hset : Crawler.all_proxies (Crawler.load_existing_proxies s0).2
                 = list_to_set (all_lines_of (Str.readlines
                                  (default EmptyString (Crawler.files s !! "proxy_list.txt"))))).
  { rewrite Hall. destruct (Crawler.files s !! "proxy_list.txt") as [f|]; cbn.
    - now rewrite (left_id_L ∅ (∪)).
    - reflexivity. }
  assert (Htext : proxy_text (Crawler.load_existing_proxies s0).2
                  = default EmptyString (Crawler.files s !! "proxy_list.txt")).
  { unfold proxy_text. now rewrite Hpf, Hfiles. }
  split; [|split; [exact Htext|]].
  - split; [exact Hpf|]. split; [rewrite Hpf, Hl; exact Hopen|]. now rewrite Htext.
  - intros (Hname & _ & Hs). rewrite Hset, Hs. unfold proxy_text. now rewrite Hname.
Qed.

Lemma scrape_page_keeps_in_sync_witness :
  each_once demo_lib
  /\ in_sync demo_site
  /\ in_sync (Crawler.scrape_page demo_lib "http://a.example/list" 5 demo_site).2.
Proof.
  assert (H : each_once demo_lib) by (intros X; reflexivity).
  assert (H' : in_sync demo_site).
  { split; [|reflexivity]. split; [reflexivity|]. split; [apply not_elem_of_empty|reflexivity]. }
  split; [exact H|]. split; [exact H'|].
  exact (scrape_page_keeps_in_sync demo_lib "http://a.example/list" 5 demo_site H H').
Defined.

Lemma restart_recovers_witness :
  ("proxy_list.txt" ∉ Crawler.locked known_site)
  /\ in_step (Crawler.init 1 known_site)
  /\ proxy_text (Crawler.init 1 known_site)
     = default EmptyString (Crawler.files known_site !! "proxy_list.txt")
  /\ (in_step known_site ->
      Crawler.all_proxies (Crawler.init 1 known_site) = Crawler.all_proxies known_site).
Proof.
  split; [apply not_elem_of_empty|].
  apply (restart_recovers 1 known_site). apply not_elem_of_empty.
Defined.

(** X27. When the proxy file does not end with the end of a line,
    [save_proxy_instantly] does not give the proxy a line of its own:
    the file has as many lines as before, and its last line is the old
    last line with the proxy behind it. *)
Theorem unended_file_joins_lines proxy text last_line s :
  Crawler.proxy_file s ∉ Crawler.locked s ->
  Crawler.files s !! Crawler.proxy_file s = Some (text +:+ last_line) ->
  ends_line text = true -> one_line last_line -> one_line proxy ->
  Str.readlines (proxy_text s) = Str.readlines text ++ [last_line]
  /\ Str.readlines (proxy_text (Crawler.save_proxy_instantly proxy s).2)
     = Str.readlines text ++ [last_line +:+ proxy +:+ Str.newline].
Proof.
  intros Hopen Hfile Hend Hlast Hproxy.
  assert (Hhead : forall (x rest : string), one_line x -> forall t', x +:+ rest <> String "010" t').
  { intros x rest [Hne Hx] t'. destruct x as [|a x]; [congruence|].
    rewrite append_cons. cbn [list_ascii_of_string] in Hx.
    inversion Hx as [|? ? [Ha _] _]; subst. intros [= -> _]. discriminate Ha. }
  split.
  - unfold proxy_text. rewrite Hfile. cbn [from_option id].
    rewrite readlines_app; [|exact Hend|].
    + now rewrite (readlines_unended last_line Hlast).
    + intros t'. rewrite <- (append_nil_r last_line). apply Hhead, Hlast.
  - unfold Crawler.save_proxy_instantly, Crawler.try_except, Crawler.get,
      Crawler.append_text, mbind, Crawler.E_bind. cbn.
    rewrite decide_False by exact Hopen. cbn. unfold proxy_text. cbn.
    rewrite lookup_insert_eq, Hfile. cbn [from_option id].
    rewrite append_assoc, readlines_app; [|exact Hend|apply Hhead, Hlast].
    rewrite <- append_assoc, readlines_one_line; [reflexivity|].
    rewrite chars_append. apply Forall_app. split; [apply Hlast|apply Hproxy].
Qed.

Lemma unended_file_joins_lines_witness :
  let s := Crawler.mkSite ∅ "proxy_list.txt" 1
             {[ "proxy_list.txt" := written ["1.2.3.4:80"] +:+ "5.6.7.8:3128" ]} ∅ [] [] in
  (Crawler.proxy_file s ∉ Crawler.locked s)
  /\ Crawler.files s !! Crawler.proxy_file s = Some (written ["1.2.3.4:80"] +:+ "5.6.7.8:3128")
  /\ ends_line (written ["1.2.3.4:80"]) = true
  /\ one_line "5.6.7.8:3128" /\ one_line "9.9.9.9:8080"
  /\ Str.readlines (proxy_text s) = Str.readlines (written ["1.2.3.4:80"]) ++ ["5.6.7.8:3128"]
  /\ Str.readlines (proxy_text (Crawler.save_proxy_instantly "9.9.9.9:8080" s).2)
     = Str.readlines (written ["1.2.3.4:80"])
       ++ ["5.6.7.8:3128" +:+ "9.9.9.9:8080" +:+ Str.newline].
Proof.
  cbv zeta.
  assert (H1 : one_line "5.6.7.8:3128").
  { split; [discriminate|]. repeat constructor. }
  assert (H2 : one_line "9.9.9.9:8080").
  { split; [discriminate|]. repeat constructor. }
  split; [apply not_elem_of_empty|]. split; [reflexivity|]. split; [reflexivity|].
  split; [exact H1|]. split; [exact H2|].
  apply (unended_file_joins_lines "9.9.9.9:8080" (written ["1.2.3.4:80"]) "5.6.7.8:3128");
    [apply not_elem_of_empty|reflexivity|reflexivity|exact H1|exact H2].
Defined.

(** ** The pagination links *)

Lemma try_patterns_sound lib base href text patterns acc found :
  Crawler.try_patterns lib base href text patterns acc = Some found ->
  found = acc
  \/ exists u,
       found = acc ++ [u] /\ u <> base /\ (u ∉ acc)
       /\ Crawler.urljoin lib base href = Some u
       /\ exists pattern, pattern ∈ patterns /\ Crawler.re_search lib pattern text = true.
Proof.
  induction patterns as [|p rest IH]; cbn [Crawler.try_patterns].
  - intros [= <-]. now left.
  - assert (Hrest : Crawler.try_patterns lib base href text rest acc = Some found ->
              found = acc
              \/ exists u,
                   found = acc ++ [u] /\ u <> base /\ (u ∉ acc)
                   /\ Crawler.urljoin lib base href = Some u
                   /\ exists pattern, pattern ∈ p :: rest
                                      /\ Crawler.re_search lib pattern text = true).
    { intros H. destruct (IH H) as [->|(u & ? & ? & ? & ? & q & Hq & ?)]; [now left|].
      right. exists u. repeat split; try assumption. exists q. split; [now right|assumption]. }
    destruct (Crawler.re_search lib p text) eqn:Hp; [|exact Hrest].
    destruct (Crawler.urljoin lib base href) as [u|] eqn:Hu; [|discriminate].
    destruct (bool_decide (u <> base) && bool_decide (u ∉ acc)) eqn:Hnew; [|exact Hrest].
    intros [= <-]. apply andb_true_iff in Hnew as [H1 H2].
    apply bool_decide_eq_true in H1, H2.
    right. exists u. repeat split; try assumption. exists p. split; [now left|assumption].
Qed.

Lemma try_patterns_complete lib base href text patterns acc found u :
  Crawler.try_patterns lib base href text patterns acc = Some found ->
  (exists pattern, pattern ∈ patterns /\ Crawler.re_search lib pattern text = true) ->
  Crawler.urljoin lib base href = Some u -> u <> base ->
  u ∈ found.
Proof.
  intros Hrun (q & Hq & Hmatch) Hu Hne. revert Hrun Hq.
  induction patterns as [|p rest IH]; cbn [Crawler.try_patterns]; intros Hrun Hq.
  - now apply elem_of_nil in Hq.
  - destruct (Crawler.re_search lib p text) eqn:Hp.
    + rewrite Hu in Hrun.
      destruct (bool_decide (u <> base) && bool_decide (u ∉ acc)) eqn:Hnew.
      * injection Hrun as <-. apply elem_of_app. right. now apply list_elem_of_singleton.
      * apply andb_false_iff in Hnew as [H|H]; apply bool_decide_eq_false in H.
        -- destruct (H Hne).
        -- apply dec_stable in H.
           destruct (try_patterns_sound _ _ _ _ _ _ _ Hrun) as [->|(v & -> & _)];
             [exact H|apply elem_of_app; now left].
    + apply IH; [exact Hrun|]. apply elem_of_cons in Hq as [->|Hq]; [congruence|exact Hq].
Qed.

Lemma links_by_text_spec lib base links :
  forall acc found,
    Crawler.links_by_text lib base links acc = Some found ->
    (NoDup acc -> NoDup found)
    /\ forall u,
         u ∈ found <->
         u ∈ acc
         \/ (u <> base
             /\ exists text href,
                  (text, href) ∈ links
                  /\ (exists pattern,
                        pattern ∈ Crawler.pagination_patterns
                        /\ Crawler.re_search lib pattern (Py.strip (Str.lower text)) = true)
                  /\ Crawler.urljoin lib base href = Some u).
Proof.
  induction links as [|[text href] rest IH]; intros acc found; cbn [Crawler.links_by_text].
  - intros [= <-]. split; [auto|]. intros u. split; [now left|].
    intros [H|(_ & t & h & Hin & _)]; [exact H|now apply elem_of_nil in Hin].
  - destruct (Crawler.try_patterns lib base href _ _ acc) as [found1|] eqn:Hone; [|discriminate].
    intros Hrest. destruct (IH _ _ Hrest) as [Hnd Hiff]. split.
    + intros Hacc. apply Hnd.
      destruct (try_patterns_sound _ _ _ _ _ _ _ Hone) as [->|(v & -> & _ & Hv & _)];
        [exact Hacc|].
      apply NoDup_app. split; [exact Hacc|]. split; [|apply NoDup_singleton].
      intros x Hx Hx'. apply list_elem_of_singleton in Hx'. now subst x.
    + intros u. rewrite Hiff. split.
      * intros [Hu|(Hne & t & h & Hin & Hm & Hj)].
        -- destruct (try_patterns_sound _ _ _ _ _ _ _ Hone)
             as [->|(v & -> & Hvb & _ & Hj & Hm)]; [now left|].
           apply elem_of_app in Hu as [Hu|Hu]; [now left|].
           apply list_elem_of_singleton in Hu. subst u. right. split; [exact Hvb|].
           exists text, href. split; [now left|]. split; assumption.
        -- right. split; [exact Hne|]. exists t, h. split; [now right|]. split; assumption.
      * intros [Hu|(Hne & t & h & Hin & Hm & Hj)].
        -- left. destruct (try_patterns_sound _ _ _ _ _ _ _ Hone) as [->|(v & -> & _)];
             [exact Hu|apply elem_of_app; now left].
        -- apply elem_of_cons in Hin as [[= -> ->]|Hin].
           ++ left. exact (try_patterns_complete _ _ _ _ _ _ _ _ Hone Hm Hj Hne).
           ++ right. split; [exact Hne|]. exists t, h. split; [exact Hin|]. split; assumption.
Qed.

Lemma links_by_number_spec lib base links :
  forall acc found,
    Crawler.links_by_number lib base links acc = Some found ->
    (NoDup acc -> NoDup found)
    /\ forall u,
         u ∈ found <->
         u ∈ acc
         \/ (u <> base
             /\ exists text href,
                  (text, href) ∈ links
                  /\ Crawler.re_match lib "^\d+$" (Py.strip text) = true
                  /\ Crawler.urljoin lib base href = Some u).
Proof.
  induction links as [|[text href] rest IH]; intros acc found; cbn [Crawler.links_by_number].
  - intros [= <-]. split; [auto|]. intros u. split; [now left|].
    intros [H|(_ & t & h & Hin & _)]; [exact H|now apply elem_of_nil in Hin].
  - assert (Hskip : Crawler.re_match lib "^\d+$" (Py.strip text) = false
                    \/ (exists v, Crawler.urljoin lib base href = Some v
                                  /\ (v = base \/ v ∈ acc)) ->
              Crawler.links_by_number lib base rest acc = Some found ->
              (NoDup acc -> NoDup found)
              /\ forall u,
                   u ∈ found <->
                   u ∈ acc
                   \/ (u <> base
                       /\ exists t h,
                            (t, h) ∈ (text, href) :: rest
                            /\ Crawler.re_match lib "^\d+$" (Py.strip t) = true
                            /\ Crawler.urljoin lib base h = Some u)).
    { intros Hwhy Hrest. destruct (IH _ _ Hrest) as [Hnd Hiff]. split; [exact Hnd|].
      intros u. rewrite Hiff. split.
      - intros [Hu|(Hne & t & h & Hin & Hm & Hj)]; [now left|].
        right. split; [exact Hne|]. exists t, h. split; [now right|]. split; assumption.
      - intros [Hu|(Hne & t & h & Hin & Hm & Hj)]; [now left|].
        apply elem_of_cons in Hin as [[= -> ->]|Hin].
        + destruct Hwhy as [Hno|(v & Hv & Hold)]; [congruence|].
          rewrite Hj in Hv. injection Hv as <-. destruct Hold as [->|Hold]; [congruence|].
          now left.
        + right. split; [exact Hne|]. exists t, h. split; [exact Hin|]. split; assumption. }
    destruct (Crawler.re_match lib "^\d+$" (Py.strip text)) eqn:Hm; [|apply Hskip; now left].
    destruct (Crawler.urljoin lib base href) as [v|] eqn:Hv; [|discriminate].
    destruct (bool_decide (v <> base) && bool_decide (v ∉ acc)) eqn:Hnew.
    + apply andb_true_iff in Hnew as [H1 H2]. apply bool_decide_eq_true in H1, H2.
      intros Hrest. destruct (IH _ _ Hrest) as [Hnd Hiff]. split.
      * intros Hacc. apply Hnd. apply NoDup_app. split; [exact Hacc|].
        split; [|apply NoDup_singleton].
        intros x Hx Hx'. apply list_elem_of_singleton in Hx'. now subst x.
      * intros u. rewrite Hiff. split.
        -- intros [Hu|(Hne & t & h & Hin & Hmt & Hj)].
           ++ apply elem_of_app in Hu as [Hu|Hu]; [now left|].
              apply list_elem_of_singleton in Hu. subst u. right. split; [exact H1|].
              exists text, href. split; [now left|]. split; assumption.
           ++ right. split; [exact Hne|]. exists t, h. split; [now right|]. split; assumption.
        -- intros [Hu|(Hne & t & h & Hin & Hmt & Hj)].
           ++ left. apply elem_of_app. now left.
           ++ apply elem_of_cons in Hin as [[= -> ->]|Hin].
              ** left. rewrite Hj in Hv. injection Hv as <-. apply elem_of_app. right.
                 now apply list_elem_of_singleton.
              ** right. split; [exact Hne|]. exists t, h. split; [exact Hin|].
                 split; assumption.
    + apply Hskip. right. exists v. split; [reflexivity|].
      apply andb_false_iff in Hnew as [H|H]; apply bool_decide_eq_false in H;
        apply dec_stable in H; auto.
Qed.

(** X23. When [find_pagination_links] returns, its list has no
    duplicates, and it holds exactly the addresses, other than that of
    the page itself, to which [urljoin] resolves a link of the page whose
    text is a number or matches one of the pagination patterns. *)
Theorem find_pagination_links_iff lib soup base links :
  Crawler.find_pagination_links lib soup base = Some links ->
  NoDup links
  /\ forall u,
       u ∈ links <->
       u <> base
       /\ exists text href,
            (text, href) ∈ Crawler.anchors soup
            /\ paginates lib text
            /\ Crawler.urljoin lib base href = Some u.
Proof.
  unfold Crawler.find_pagination_links, paginates.
  destruct (Crawler.links_by_text lib base (Crawler.anchors soup) []) as [found|] eqn:Htext;
    [|discriminate].
  intros Hnum.
  destruct (links_by_text_spec _ _ _ _ _ Htext) as [Hnd1 Hiff1].
  destruct (links_by_number_spec _ _ _ _ _ Hnum) as [Hnd2 Hiff2].
  split; [apply Hnd2, Hnd1; constructor|].
  intros u. rewrite Hiff2, Hiff1. split.
  - intros [[Hu|(Hne & t & h & Hin & Hm & Hj)]|(Hne & t & h & Hin & Hm & Hj)].
    + now apply elem_of_nil in Hu.
    + split; [exact Hne|]. exists t, h. split; [exact Hin|]. split; [now right|exact Hj].
    + split; [exact Hne|]. exists t, h. split; [exact Hin|]. split; [now left|exact Hj].
  - intros (Hne & t & h & Hin & [Hm|Hm] & Hj).
    + right. split; [exact Hne|]. exists t, h. auto.
    + left. right. split; [exact Hne|]. exists t, h. auto.
Qed.

Lemma find_pagination_links_iff_witness :
  Crawler.find_pagination_links demo_lib demo_page "http://a.example/list"
  = Some ["http://a.example/list?page=2"]
  /\ NoDup ["http://a.example/list?page=2"]
  /\ forall u,
       u ∈ ["http://a.example/list?page=2"] <->
       u <> "http://a.example/list"
       /\ exists text href,
            (text, href) ∈ Crawler.anchors demo_page
            /\ paginates demo_lib text
            /\ Crawler.urljoin demo_lib "http://a.example/list" href = Some u.
Proof.
  split; [reflexivity|].
  apply (find_pagination_links_iff demo_lib demo_page "http://a.example/list"). reflexivity.
Defined.

(** ** The order of the requests and the delay *)

Lemma record_new_steady r d proxies new_proxies :
  triple (fun s => Crawler.requested s = r /\ Crawler.delay s = d)
    (Crawler.record_new proxies new_proxies)
    (fun _ s => Crawler.requested s = r /\ Crawler.delay s = d) (fun _ _ => False).
Proof.
  apply (record_new_spec _ (fun _ => True)); [|apply Forall_forall; auto].
  intros proxy _. apply record_step_triple. intros s s' [Hr Hd] _ Hreq Hdelay.
  split; congruence.
Qed.

Lemma steady_front lib url (r : list string) (d : Q) soup :
  Crawler.session_get lib url = inr soup ->
  let proxies := Scraper.extract_proxies_from_text (Crawler.findall lib)
                   (Crawler.page_text soup) in
  if nonempty (elements proxies)
  then triple (fun s => Crawler.requested s = r /\ Crawler.delay s = d)
         (Crawler.record_new (Crawler.iterate lib proxies) [])
         (fun _ s => Crawler.requested s = r /\ Crawler.delay s = d) (fun _ _ => False)
  else forall s, Crawler.requested s = r /\ Crawler.delay s = d ->
                 Crawler.requested s = r /\ Crawler.delay s = d.
Proof. intros _. cbv zeta. destruct (nonempty _); [apply record_new_steady|auto]. Qed.

Lemma scrape_last_steady lib url r d :
  triple (fun s => Crawler.requested s = r /\ Crawler.delay s = d) (Crawler.scrape_last lib url)
    (fun _ s => Crawler.requested s = r ++ [url] /\ Crawler.delay s = d) (fun _ _ => False).
Proof.
  unfold Crawler.scrape_last.
  apply scrape_body_spec
    with (J := fun s => Crawler.requested s = r ++ [url] /\ Crawler.delay s = d)
         (M := fun s => Crawler.requested s = r ++ [url] /\ Crawler.delay s = d); auto.
  - intros s x [Hr Hd]. cbn. now rewrite Hr.
  - intros soup Hget. exact (steady_front lib url (r ++ [url]) d soup Hget).
  - intros soup links _ _ Hlt. lia.
Qed.

Lemma each_requests_all lib d links :
  Crawler.too_long lib d = false -> Qle_bool 0 d = true ->
  forall r,
    triple (fun s => Crawler.requested s = r /\ Crawler.delay s = d)
      (Crawler.each links (fun next_url => Crawler.sleep lib;; Crawler.scrape_last lib next_url))
      (fun _ s => Crawler.requested s = r ++ links /\ Crawler.delay s = d)
      (fun _ _ => False).
Proof.
  intros Hlong Hd. induction links as [|u links IH]; intros r.
  - apply triple_ret. intros s [Hr Hs]. now rewrite app_nil_r.
  - cbn [Crawler.each].
    apply triple_bind
      with (R := fun _ s => Crawler.requested s = r ++ [u] /\ Crawler.delay s = d).
    + apply triple_bind
        with (R := fun _ s => Crawler.requested s = r /\ Crawler.delay s = d).
      * intros s [Hr Hs]. unfold Crawler.sleep. rewrite Hs, Hlong, Hd. auto.
      * intros _. apply scrape_last_steady.
    + intros _. eapply triple_weaken; [apply (IH (r ++ [u]))| | |]; [auto| |auto].
      intros a s [Hr Hs]. split; [|exact Hs]. rewrite Hr. now rewrite <- (assoc_L (++)).
Qed.

Lemma each_requests_none lib d links :
  Qle_bool 0 d = false ->
  forall r,
    triple (fun s => Crawler.requested s = r /\ Crawler.delay s = d)
      (Crawler.each links (fun next_url => Crawler.sleep lib;; Crawler.scrape_last lib next_url))
      (fun _ s => Crawler.requested s = r)
      (fun e s => Crawler.requested s = r /\ is_Exception e = true).
Proof.
  intros Hd r s [Hr Hs]. destruct links as [|u links]; cbn [Crawler.each]; [exact Hr|].
  unfold mbind, Crawler.E_bind, Crawler.sleep. rewrite Hs, Hd.
  destruct (Crawler.too_long lib d); auto.
Qed.

(** X24. With a delay that [time.sleep] accepts, neither negative nor
    beyond the range of its clock, on a page that is not on GitHub and
    with [max_pages] above 1, [scrape_page] requests [url] and then the
    first [max_pages - 1] pagination links of the page, each once and in
    the order of [find_pagination_links], whatever these requests
    return. *)
Theorem scrape_page_follows_in_order lib url max_pages soup links s :
  (0 <= Crawler.delay s)%Q ->
  Crawler.too_long lib (Crawler.delay s) = false ->
  Crawler.session_get lib url = inr soup ->
  github url = false ->
  1 < max_pages ->
  Crawler.find_pagination_links lib soup url = Some links ->
  Crawler.requested (Crawler.scrape_page lib url max_pages s).2
  = Crawler.requested s ++ url :: take (Z.to_nat (max_pages - 1)) links.
Proof.
  intros Hd Hlong Hget Hgit Hmp Hlinks. apply Qle_bool_iff in Hd.
  assert (H : triple (fun s' => Crawler.requested s' = Crawler.requested s
                                /\ Crawler.delay s' = Crawler.delay s)
                (Crawler.scrape_page lib url max_pages)
                (fun _ s' => Crawler.requested s'
                             = Crawler.requested s ++ url :: take (Z.to_nat (max_pages - 1)) links)
                (fun _ _ => False)).
  { unfold Crawler.scrape_page.
    apply scrape_body_spec
      with (J := fun s' => Crawler.requested s' = Crawler.requested s ++ [url]
                           /\ Crawler.delay s' = Crawler.delay s)
           (M := fun s' => Crawler.requested s' = Crawler.requested s ++ [url]
                           /\ Crawler.delay s' = Crawler.delay s); auto.
    - intros soup' s' Hget' [Hno|[Hno|Hno]] [Hr _]; [congruence|lia|].
      rewrite Hget in Hget'. injection Hget' as <-. rewrite (Hno links Hlinks), take_nil. exact Hr.
    - intros s' x [Hr Hs']. cbn. now rewrite Hr.
    - intros s' Hno. destruct (Hno soup Hget).
    - intros soup' Hget'. exact (steady_front lib url _ _ soup' Hget').
    - intros soup' links' Hget' _ _ Hlinks'.
      rewrite Hget in Hget'. injection Hget' as <-.
      rewrite Hlinks in Hlinks'. injection Hlinks' as <-.
      eapply triple_weaken;
        [apply (each_requests_all lib (Crawler.delay s) _ Hlong Hd
                  (Crawler.requested s ++ [url]))
        | | |]; [auto| |intros _ _ []].
      intros a s' [Hr _]. rewrite Hr. now rewrite <- (assoc_L (++)). }
  specialize (H s (conj eq_refl eq_refl)).
  destruct (Crawler.scrape_page lib url max_pages s) as [[[]|e] s']; [exact H|destruct H].
Qed.

Lemma scrape_page_follows_in_order_witness :
  (0 <= Crawler.delay demo_site)%Q
  /\ Crawler.too_long demo_lib (Crawler.delay demo_site) = false
  /\ Crawler.session_get demo_lib "http://a.example/list" = inr demo_page
  /\ github "http://a.example/list" = false
  /\ 1 < 5
  /\ Crawler.find_pagination_links demo_lib demo_page "http://a.example/list"
     = Some ["http://a.example/list?page=2"]
  /\ Crawler.requested (Crawler.scrape_page demo_lib "http://a.example/list" 5 demo_site).2
     = Crawler.requested demo_site
       ++ "http://a.example/list" :: take (Z.to_nat (5 - 1)) ["http://a.example/list?page=2"].
Proof.
  assert (Hd : (0 <= Crawler.delay demo_site)%Q) by (apply Qle_bool_iff; reflexivity).
  split; [exact Hd|]. split; [reflexivity|]. split; [reflexivity|]. split; [reflexivity|].
  split; [lia|]. split; [reflexivity|].
  apply (scrape_page_follows_in_order demo_lib "http://a.example/list" 5 demo_page
           ["http://a.example/list?page=2"] demo_site Hd);
    [reflexivity|reflexivity|reflexivity|lia|reflexivity].
Defined.

(** X25. With a negative delay no pagination link is ever requested:
    [time.sleep] refuses the delay before the first of them, and
    [scrape_page] returns after the one request for [url]. *)
Theorem negative_delay_never_paginates lib url max_pages s :
  (Crawler.delay s < 0)%Q ->
  (Crawler.scrape_page lib url max_pages s).1 = Returns tt
  /\ Crawler.requested (Crawler.scrape_page lib url max_pages s).2
     = Crawler.requested s ++ [url].
Proof.
  intros Hd.
  assert (Hneg : Qle_bool 0 (Crawler.delay s) = false).
  { destruct (Qle_bool 0 (Crawler.delay s)) eqn:Hle; [|reflexivity].
    apply Qle_bool_iff in Hle. destruct (Qlt_not_le _ _ Hd Hle). }
  assert (H : triple (fun s' => Crawler.requested s' = Crawler.requested s
                                /\ Crawler.delay s' = Crawler.delay s)
                (Crawler.scrape_page lib url max_pages)
                (fun _ s' => Crawler.requested s' = Crawler.requested s ++ [url])
                (fun _ _ => False)).
  { unfold Crawler.scrape_page.
    apply scrape_body_spec
      with (J := fun s' => Crawler.requested s' = Crawler.requested s ++ [url]
                           /\ Crawler.delay s' = Crawler.delay s)
           (M := fun s' => Crawler.requested s' = Crawler.requested s ++ [url]
                           /\ Crawler.delay s' = Crawler.delay s); auto.
    - intros soup' s' _ _ [Hr _]. exact Hr.
    - intros s' x [Hr Hs']. cbn. now rewrite Hr.
    - intros s' _ [Hr _]. exact Hr.
    - intros soup' Hget'. exact (steady_front lib url _ _ soup' Hget').
    - intros soup' links' _ _ _ _. apply each_requests_none. exact Hneg. }
  specialize (H s (conj eq_refl eq_refl)).
  destruct (Crawler.scrape_page lib url max_pages s) as [[[]|e] s'];
    [split; [reflexivity|exact H]|destruct H].
Qed.

Lemma negative_delay_never_paginates_witness :
  let s := Crawler.mkSite ∅ "proxy_list.txt" (-1) ∅ ∅ [] [] in
  (Crawler.delay s < 0)%Q
  /\ (Crawler.scrape_page demo_lib "http://a.example/list" 5 s).1 = Returns tt
  /\ Crawler.requested (Crawler.scrape_page demo_lib "http://a.example/list" 5 s).2
     = Crawler.requested s ++ ["http://a.example/list"].
Proof.
  cbv zeta.
  assert (Hd : (Crawler.delay (Crawler.mkSite ∅ "proxy_list.txt" (-1) ∅ ∅ [] []) < 0)%Q)
    by reflexivity.
  split; [exact Hd|].
  exact (negative_delay_never_paginates demo_lib "http://a.example/list" 5 _ Hd).
Defined.

(** ** A page without news *)

Lemma record_new_known proxies :
  forall new_proxies s,
    (forall x, x ∈ proxies -> x ∈ Crawler.all_proxies s) ->
    Crawler.record_new proxies new_proxies s = (Returns new_proxies, s).
Proof.
  induction proxies as [|proxy rest IH]; intros new_proxies s Hs; [reflexivity|].
  cbn [Crawler.record_new]. unfold mbind at 1, Crawler.E_bind at 1. cbn [Crawler.get].
  destruct (decide (proxy ∈ Crawler.all_proxies s)) as [_|Hout].
  - apply IH. intros x Hx. apply Hs. now right.
  - destruct Hout. apply Hs. now left.
Qed.

(** X26. A page on which every proxy is already in [all_proxies], or
    for which the request fails, changes neither the set nor the disk,
    when it is not followed by further pages: the call only prints. *)
Theorem known_page_writes_nothing lib url max_pages s :
  each_once lib ->
  (forall soup, Crawler.session_get lib url = inr soup ->
     Scraper.extract_proxies_from_text (Crawler.findall lib) (Crawler.page_text soup)
     ⊆ Crawler.all_proxies s) ->
  github url = true \/ max_pages <= 1 ->
  Crawler.all_proxies (Crawler.scrape_page lib url max_pages s).2 = Crawler.all_proxies s
  /\ Crawler.files (Crawler.scrape_page lib url max_pages s).2 = Crawler.files s.
Proof.
  intros Hlib Hknown Hone.
  set (Same := fun s' : Crawler.Site =>
                 Crawler.all_proxies s' = Crawler.all_proxies s
                 /\ Crawler.files s' = Crawler.files s).
  assert (H : triple Same (Crawler.scrape_page lib url max_pages) (fun _ => Same)
                (fun _ _ => False)).
  { unfold Crawler.scrape_page.
    apply scrape_body_spec with (J := Same) (M := Same); auto.
    - intros soup Hget. cbv zeta. destruct (nonempty _); [|auto].
      intros s' [Hall Hfiles]. rewrite record_new_known; [split; assumption|].
      intros x Hx. rewrite (Hlib _) in Hx. apply elem_of_elements in Hx.
      rewrite Hall. exact (Hknown soup Hget x Hx).
    - intros soup links _ Hgit Hlt _. destruct Hone as [Hone|Hone]; [congruence|lia]. }
  specialize (H s (conj eq_refl eq_refl)).
  destruct (Crawler.scrape_page lib url max_pages s) as [[[]|e] s']; [exact H|destruct H].
Qed.

Lemma known_page_writes_nothing_witness :
  each_once demo_lib
  /\ (forall soup, Crawler.session_get demo_lib "http://a.example/list" = inr soup ->
        Scraper.extract_proxies_from_text (Crawler.findall demo_lib) (Crawler.page_text soup)
        ⊆ Crawler.all_proxies known_site)
  /\ (github "http://a.example/list" = true \/ 1 <= 1)
  /\ Crawler.all_proxies (Crawler.scrape_page demo_lib "http://a.example/list" 1 known_site).2
     = Crawler.all_proxies known_site
  /\ Crawler.files (Crawler.scrape_page demo_lib "http://a.example/list" 1 known_site).2
     = Crawler.files known_site.
Proof.
  assert (H1 : each_once demo_lib) by (intros X; reflexivity).
  assert (H2 : forall soup, Crawler.session_get demo_lib "http://a.example/list" = inr soup ->
                 Scraper.extract_proxies_from_text (Crawler.findall demo_lib)
                   (Crawler.page_text soup)
                 ⊆ Crawler.all_proxies known_site).
  { intros soup Hget x Hx. apply elem_of_elements in Hx. vm_compute in Hx.
    apply list_elem_of_singleton in Hx. subst x.
    apply elem_of_elements. vm_compute. constructor. }
  assert (H3 : github "http://a.example/list" = true \/ 1 <= 1) by (right; lia).
  split; [exact H1|]. split; [exact H2|]. split; [exact H3|].
  exact (known_page_writes_nothing demo_lib "http://a.example/list" 1 known_site H1 H2 H3).
Defined.
